(** * AIMS Journey Mapper: the realtime transcription session

    A shallow embedding of [src/components/LiveSession.tsx] (the session
    component: connection state, the two streaming buffers, the debounce
    timer, the writers of the transcript history) and of the audio and
    transport half of [src/services/geminiService.ts] ([createBlob] and
    [LiveApiService]), with the properties of the transcript engine proved
    about them.

    Conventions of the embedding.
    - A JavaScript string is the list of its UTF-16 code units.
    - Every handler of the component is a function on [State]; a handler
      that awaits is cut at its awaits, one function per segment: an await
      on a settled promise goes on without an event in between, an await on
      [inputAudioContext.close()] or on a pending session promise leaves the
      call waiting until the event that resolves it.
    - [setTranscriptHistory (prev => [...prev, item])] hands React a
      function that builds the item when React calls it.  React calls it at
      the dispatch when App has no update pending (its eager path);
      otherwise the function is queued and called at the next render, after
      the handler has reset the ref that the function reads.  Rendering is an
      event of its own, as React batches the updates of a handler and renders
      after it.
    - The browser is part of the state: the clock, the pending timers of
      [setTimeout], the open transports, the live microphone streams and the
      running audio contexts. *)

From Stdlib Require Import ZArith NArith List Bool Ascii String Lia.
From Stdlib Require Import DecimalString.
From stdpp Require Import base list.

Import ListNotations.
Local Open Scope N_scope.

(** ** JavaScript strings *)

Abbreviation jsstring := (list N).

(** A string literal of the source, as code units. *)
Definition str (s : string) : jsstring :=
  map N_of_ascii (list_ascii_of_string s).

(** [WhiteSpace] and [LineTerminator] of ECMAScript, the code units that
    [String.prototype.trim] strips. *)
Definition is_ws (c : N) : bool :=
  (c =? 9) || (c =? 10) || (c =? 11) || (c =? 12) || (c =? 13) || (c =? 32)
  || (c =? 160) || (c =? 5760) || ((8192 <=? c) && (c <=? 8202))
  || (c =? 8232) || (c =? 8233) || (c =? 8239) || (c =? 8287)
  || (c =? 12288) || (c =? 65279).

Fixpoint trimStart (s : jsstring) : jsstring :=
  match s with
  | [] => []
  | c :: s' => if is_ws c then trimStart s' else s
  end.

Definition trimEnd (s : jsstring) : jsstring := rev (trimStart (rev s)).

(** [s.trim()] *)
Definition trim (s : jsstring) : jsstring := trimEnd (trimStart s).

(** Truthiness of a string: [if (s)] holds for every string but the empty
    one. *)
Definition truthy (s : jsstring) : bool :=
  match s with [] => false | _ :: _ => true end.

(** [n.toString()] for a non-negative integer. *)
Definition toString (n : N) : jsstring :=
  str (NilZero.string_of_uint (N.to_uint n)).

(** ** Data model ([types.ts]) *)

Inductive ConnectionState := DISCONNECTED | CONNECTING | CONNECTED | ERROR.

(** [speaker: 'user' | 'agent' | 'model'] *)
Inductive Speaker := user | agent | model.

Module TranscriptItem.
Record t := mk {
  id : jsstring;
  speaker : Speaker;
  text : jsstring;
  timestamp : N
}.
End TranscriptItem.

(** The part of a [LiveServerMessage] that the session reads.  Every field
    is optional in the SDK's type. *)
Record Transcription := { text : option jsstring }.

Record ServerContent := {
  inputTranscription : option Transcription;
  outputTranscription : option Transcription;
  turnComplete : option bool
}.

Record LiveServerMessage := { serverContent : option ServerContent }.

(** What [createBlob] returns. *)
Record Blob := { data : jsstring; mimeType : jsstring }.

(** ** The browser and the remote service, as far as the session sees them *)

(** The promise returned by [ai.live.connect], for the transport [h]. *)
Inductive Promise := Pending (h : nat) | Fulfilled (h : nat) | Rejected (h : nat).

(** What has been handed to [session.send] and
    [session.sendRealtimeInput]. *)
Inductive Outbound := ClientContent (turn : jsstring) | RealtimeInput (media : Blob).

(** Timer handles of [setTimeout] are integers greater than zero. *)
Abbreviation TimerId := positive.

Record Browser := {
  now : N;                          (* Date.now(), in ms *)
  timers : list (TimerId * N);      (* pending timeouts with their deadline *)
  nextTimer : TimerId;
  transports : list nat;            (* transports opened and not closed *)
  connecting : list nat;            (* transports whose promise is not settled *)
  streams : list nat;               (* microphone streams with live tracks *)
  contexts : list nat;              (* audio contexts not closed *)
  micRequests : nat;                (* getUserMedia calls not yet answered *)
  nextHandle : nat;
  outbox : list (nat * Outbound)    (* sends, with the transport they go to *)
}.

(** The private fields of [LiveApiService]. *)
Record LiveApiService := {
  sessionPromise : option Promise;
  inputAudioContext : option nat;
  mediaStream : option nat;
  processor : option nat;
  source : option nat
}.

(** The updater functions that the component gives to
    [setTranscriptHistory].  Each appends one entry, which it builds when
    React calls it: the clock and the ref are read then. *)
Inductive Updater :=
| AppendUser                         (* of [commitInputToHistory] *)
| AppendManual (pasted : jsstring)   (* of [handleManualSubmit]; [pastedText] is a constant of its render *)
| AppendAgent.                       (* of the [turnComplete] block *)

(** What a call of [handleDisconnect] waits for inside
    [LiveApiService.disconnect]. *)
Inductive Awaited := ContextClose (ctx : nat) | SessionPromise (h : nat).

(** What React and the event loop hold for later. *)
Record Scheduler := {
  updateQueue : list Updater;   (* updaters of the history that React has not called yet *)
  updatePending : bool;         (* an update of App is scheduled and not rendered *)
  awaiting : list Awaited       (* the calls of [handleDisconnect] that wait *)
}.

(** The [LiveSession] component: its state hooks and refs, the transcript
    history it is given by [App] (the state of the hook as far as React has
    computed it), its service object, the browser, and the scheduler. *)
Record State := {
  connectionState : ConnectionState;
  debounceTimerRef : option TimerId;
  currentInputRef : jsstring;
  currentOutputRef : jsstring;
  liveInputText : jsstring;
  liveOutputText : jsstring;
  showPasteInput : bool;
  pastedText : jsstring;
  transcriptHistory : list TranscriptItem.t;
  liveService : LiveApiService;
  browser : Browser;
  scheduler : Scheduler
}.

(** How a call of an async function ends: it returns, it throws, or it is
    left waiting on a promise that has not settled. *)
Inductive Completion (A : Type) :=
| Returned (a : A)
| Threw (a : A)
| Suspended (a : A).
Arguments Returned {A} a.
Arguments Threw {A} a.
Arguments Suspended {A} a.

(** *** Field updates *)

Definition set_now (v : N) (b : Browser) : Browser :=
  {| now := v; timers := timers b; nextTimer := nextTimer b;
     transports := transports b; connecting := connecting b;
     streams := streams b; contexts := contexts b;
     micRequests := micRequests b; nextHandle := nextHandle b;
     outbox := outbox b |}.

Definition set_timers (v : list (TimerId * N)) (b : Browser) : Browser :=
  {| now := now b; timers := v; nextTimer := nextTimer b;
     transports := transports b; connecting := connecting b;
     streams := streams b; contexts := contexts b;
     micRequests := micRequests b; nextHandle := nextHandle b;
     outbox := outbox b |}.

Definition set_nextTimer (v : TimerId) (b : Browser) : Browser :=
  {| now := now b; timers := timers b; nextTimer := v;
     transports := transports b; connecting := connecting b;
     streams := streams b; contexts := contexts b;
     micRequests := micRequests b; nextHandle := nextHandle b;
     outbox := outbox b |}.

Definition set_transports (v : list nat) (b : Browser) : Browser :=
  {| now := now b; timers := timers b; nextTimer := nextTimer b;
     transports := v; connecting := connecting b;
     streams := streams b; contexts := contexts b;
     micRequests := micRequests b; nextHandle := nextHandle b;
     outbox := outbox b |}.

Definition set_connecting (v : list nat) (b : Browser) : Browser :=
  {| now := now b; timers := timers b; nextTimer := nextTimer b;
     transports := transports b; connecting := v;
     streams := streams b; contexts := contexts b;
     micRequests := micRequests b; nextHandle := nextHandle b;
     outbox := outbox b |}.

Definition set_streams (v : list nat) (b : Browser) : Browser :=
  {| now := now b; timers := timers b; nextTimer := nextTimer b;
     transports := transports b; connecting := connecting b;
     streams := v; contexts := contexts b;
     micRequests := micRequests b; nextHandle := nextHandle b;
     outbox := outbox b |}.

Definition set_contexts (v : list nat) (b : Browser) : Browser :=
  {| now := now b; timers := timers b; nextTimer := nextTimer b;
     transports := transports b; connecting := connecting b;
     streams := streams b; contexts := v;
     micRequests := micRequests b; nextHandle := nextHandle b;
     outbox := outbox b |}.

Definition set_micRequests (v : nat) (b : Browser) : Browser :=
  {| now := now b; timers := timers b; nextTimer := nextTimer b;
     transports := transports b; connecting := connecting b;
     streams := streams b; contexts := contexts b;
     micRequests := v; nextHandle := nextHandle b; outbox := outbox b |}.

Definition set_nextHandle (v : nat) (b : Browser) : Browser :=
  {| now := now b; timers := timers b; nextTimer := nextTimer b;
     transports := transports b; connecting := connecting b;
     streams := streams b; contexts := contexts b;
     micRequests := micRequests b; nextHandle := v; outbox := outbox b |}.

Definition set_outbox (v : list (nat * Outbound)) (b : Browser) : Browser :=
  {| now := now b; timers := timers b; nextTimer := nextTimer b;
     transports := transports b; connecting := connecting b;
     streams := streams b; contexts := contexts b;
     micRequests := micRequests b; nextHandle := nextHandle b; outbox := v |}.

Definition set_sessionPromise (v : option Promise) (l : LiveApiService) : LiveApiService :=
  {| sessionPromise := v; inputAudioContext := inputAudioContext l;
     mediaStream := mediaStream l; processor := processor l; source := source l |}.

Definition set_inputAudioContext (v : option nat) (l : LiveApiService) : LiveApiService :=
  {| sessionPromise := sessionPromise l; inputAudioContext := v;
     mediaStream := mediaStream l; processor := processor l; source := source l |}.

Definition set_mediaStream (v : option nat) (l : LiveApiService) : LiveApiService :=
  {| sessionPromise := sessionPromise l; inputAudioContext := inputAudioContext l;
     mediaStream := v; processor := processor l; source := source l |}.

Definition set_processor (v : option nat) (l : LiveApiService) : LiveApiService :=
  {| sessionPromise := sessionPromise l; inputAudioContext := inputAudioContext l;
     mediaStream := mediaStream l; processor := v; source := source l |}.

Definition set_source (v : option nat) (l : LiveApiService) : LiveApiService :=
  {| sessionPromise := sessionPromise l; inputAudioContext := inputAudioContext l;
     mediaStream := mediaStream l; processor := processor l; source := v |}.

Definition setConnectionState (v : ConnectionState) (s : State) : State :=
  {| connectionState := v; debounceTimerRef := debounceTimerRef s;
     currentInputRef := currentInputRef s; currentOutputRef := currentOutputRef s;
     liveInputText := liveInputText s; liveOutputText := liveOutputText s;
     showPasteInput := showPasteInput s; pastedText := pastedText s;
     transcriptHistory := transcriptHistory s; liveService := liveService s;
     browser := browser s; scheduler := scheduler s |}.

Definition set_debounceTimerRef (v : option TimerId) (s : State) : State :=
  {| connectionState := connectionState s; debounceTimerRef := v;
     currentInputRef := currentInputRef s; currentOutputRef := currentOutputRef s;
     liveInputText := liveInputText s; liveOutputText := liveOutputText s;
     showPasteInput := showPasteInput s; pastedText := pastedText s;
     transcriptHistory := transcriptHistory s; liveService := liveService s;
     browser := browser s; scheduler := scheduler s |}.

Definition set_currentInputRef (v : jsstring) (s : State) : State :=
  {| connectionState := connectionState s; debounceTimerRef := debounceTimerRef s;
     currentInputRef := v; currentOutputRef := currentOutputRef s;
     liveInputText := liveInputText s; liveOutputText := liveOutputText s;
     showPasteInput := showPasteInput s; pastedText := pastedText s;
     transcriptHistory := transcriptHistory s; liveService := liveService s;
     browser := browser s; scheduler := scheduler s |}.

Definition set_currentOutputRef (v : jsstring) (s : State) : State :=
  {| connectionState := connectionState s; debounceTimerRef := debounceTimerRef s;
     currentInputRef := currentInputRef s; currentOutputRef := v;
     liveInputText := liveInputText s; liveOutputText := liveOutputText s;
     showPasteInput := showPasteInput s; pastedText := pastedText s;
     transcriptHistory := transcriptHistory s; liveService := liveService s;
     browser := browser s; scheduler := scheduler s |}.

Definition setLiveInputText (v : jsstring) (s : State) : State :=
  {| connectionState := connectionState s; debounceTimerRef := debounceTimerRef s;
     currentInputRef := currentInputRef s; currentOutputRef := currentOutputRef s;
     liveInputText := v; liveOutputText := liveOutputText s;
     showPasteInput := showPasteInput s; pastedText := pastedText s;
     transcriptHistory := transcriptHistory s; liveService := liveService s;
     browser := browser s; scheduler := scheduler s |}.

Definition setLiveOutputText (v : jsstring) (s : State) : State :=
  {| connectionState := connectionState s; debounceTimerRef := debounceTimerRef s;
     currentInputRef := currentInputRef s; currentOutputRef := currentOutputRef s;
     liveInputText := liveInputText s; liveOutputText := v;
     showPasteInput := showPasteInput s; pastedText := pastedText s;
     transcriptHistory := transcriptHistory s; liveService := liveService s;
     browser := browser s; scheduler := scheduler s |}.

Definition setShowPasteInput (v : bool) (s : State) : State :=
  {| connectionState := connectionState s; debounceTimerRef := debounceTimerRef s;
     currentInputRef := currentInputRef s; currentOutputRef := currentOutputRef s;
     liveInputText := liveInputText s; liveOutputText := liveOutputText s;
     showPasteInput := v; pastedText := pastedText s;
     transcriptHistory := transcriptHistory s; liveService := liveService s;
     browser := browser s; scheduler := scheduler s |}.

Definition setPastedText (v : jsstring) (s : State) : State :=
  {| connectionState := connectionState s; debounceTimerRef := debounceTimerRef s;
     currentInputRef := currentInputRef s; currentOutputRef := currentOutputRef s;
     liveInputText := liveInputText s; liveOutputText := liveOutputText s;
     showPasteInput := showPasteInput s; pastedText := v;
     transcriptHistory := transcriptHistory s; liveService := liveService s;
     browser := browser s; scheduler := scheduler s |}.

Definition set_transcriptHistory (v : list TranscriptItem.t) (s : State) : State :=
  {| connectionState := connectionState s; debounceTimerRef := debounceTimerRef s;
     currentInputRef := currentInputRef s; currentOutputRef := currentOutputRef s;
     liveInputText := liveInputText s; liveOutputText := liveOutputText s;
     showPasteInput := showPasteInput s; pastedText := pastedText s;
     transcriptHistory := v; liveService := liveService s;
     browser := browser s; scheduler := scheduler s |}.

Definition set_scheduler (v : Scheduler) (s : State) : State :=
  {| connectionState := connectionState s; debounceTimerRef := debounceTimerRef s;
     currentInputRef := currentInputRef s; currentOutputRef := currentOutputRef s;
     liveInputText := liveInputText s; liveOutputText := liveOutputText s;
     showPasteInput := showPasteInput s; pastedText := pastedText s;
     transcriptHistory := transcriptHistory s; liveService := liveService s;
     browser := browser s; scheduler := v |}.

Definition set_updateQueue (v : list Updater) (c : Scheduler) : Scheduler :=
  {| updateQueue := v; updatePending := updatePending c; awaiting := awaiting c |}.

Definition set_updatePending (v : bool) (c : Scheduler) : Scheduler :=
  {| updateQueue := updateQueue c; updatePending := v; awaiting := awaiting c |}.

Definition set_awaiting (v : list Awaited) (c : Scheduler) : Scheduler :=
  {| updateQueue := updateQueue c; updatePending := updatePending c; awaiting := v |}.

Definition set_liveService (v : LiveApiService) (s : State) : State :=
  {| connectionState := connectionState s; debounceTimerRef := debounceTimerRef s;
     currentInputRef := currentInputRef s; currentOutputRef := currentOutputRef s;
     liveInputText := liveInputText s; liveOutputText := liveOutputText s;
     showPasteInput := showPasteInput s; pastedText := pastedText s;
     transcriptHistory := transcriptHistory s; liveService := v;
     browser := browser s; scheduler := scheduler s |}.

Definition set_browser (v : Browser) (s : State) : State :=
  {| connectionState := connectionState s; debounceTimerRef := debounceTimerRef s;
     currentInputRef := currentInputRef s; currentOutputRef := currentOutputRef s;
     liveInputText := liveInputText s; liveOutputText := liveOutputText s;
     showPasteInput := showPasteInput s; pastedText := pastedText s;
     transcriptHistory := transcriptHistory s; liveService := liveService s;
     browser := v; scheduler := scheduler s |}.

(** ** Numbers and typed arrays ([createBlob]) *)

(** A JavaScript number as the audio path needs it: not-a-number, an
    infinity, or the dyadic rational [m * 2 ^ e].  Every finite sample of a
    [Float32Array] is such a rational with [|m| < 2 ^ 24]. *)
Module Number.

Inductive t := NaN | Infinity (negative : bool) | Finite (m e : Z).

Definition of_Z (n : Z) : t := Finite n 0.

(** [x < y]; false as soon as one side is [NaN]. *)
Definition lt (x y : t) : bool :=
  match x, y with
  | NaN, _ | _, NaN => false
  | Infinity n, Infinity n' => n && negb n'
  | Infinity n, Finite _ _ => n
  | Finite _ _, Infinity n => negb n
  | Finite m e, Finite m' e' =>
      let k := Z.min e e' in
      (m * 2 ^ (e - k) <? m' * 2 ^ (e' - k))%Z
  end.

Definition is_NaN (x : t) : bool :=
  match x with NaN => true | _ => false end.

(** [Math.min(a, b)] and [Math.max(a, b)] *)
Definition Math_min (a b : t) : t :=
  if is_NaN a || is_NaN b then NaN else if lt b a then b else a.

Definition Math_max (a b : t) : t :=
  if is_NaN a || is_NaN b then NaN else if lt a b then b else a.

(** [x * y] *)
Definition mul (x y : t) : t :=
  match x, y with
  | NaN, _ | _, NaN => NaN
  | Finite m e, Finite m' e' => Finite (m * m') (e + e')
  | Infinity n, Infinity n' => Infinity (xorb n n')
  | Infinity n, Finite m _ | Finite m _, Infinity n =>
      if (m =? 0)%Z then NaN else Infinity (xorb n (m <? 0)%Z)
  end.

(** The integer part, rounding toward zero. *)
Definition truncate (m e : Z) : Z :=
  if (0 <=? e)%Z then (m * 2 ^ e)%Z else Z.quot m (2 ^ (- e)).

(** The conversion done by a store into an [Int16Array]. *)
Definition ToInt16 (x : t) : Z :=
  match x with
  | Finite m e =>
      let int16bit := (truncate m e mod 2 ^ 16)%Z in
      if (int16bit <? 2 ^ 15)%Z then int16bit else (int16bit - 2 ^ 16)%Z
  | _ => 0%Z
  end.

End Number.

Abbreviation Float32Array := (list Number.t).
Abbreviation Int16Array := (list Z).
Abbreviation Uint8Array := (list N).

(** [for (let i = start; i < start + count; i++) acc = body i acc] *)
Fixpoint for_loop {A : Type} (count start : nat) (body : nat -> A -> A) (acc : A) : A :=
  match count with
  | O => acc
  | S count' => for_loop count' (S start) body (body start acc)
  end.

(** [new Uint8Array(int16.buffer)]: the two bytes of every element, the low
    byte first (typed arrays have the byte order of the platform, which is
    little-endian on every platform that runs a browser). *)
Definition Uint8Array_of_buffer (int16 : Int16Array) : Uint8Array :=
  flat_map (fun v => let u := (v mod 2 ^ 16)%Z in
                     [Z.to_N (u mod 2 ^ 8); Z.to_N (u / 2 ^ 8)]) int16.

(** The base64 alphabet of RFC 4648. *)
Definition base64_char (i : N) : N :=
  if i <? 26 then 65 + i
  else if i <? 52 then 97 + (i - 26)
  else if i <? 62 then 48 + (i - 52)
  else if i =? 62 then 43 else 47.

Fixpoint base64 (bytes : list N) : jsstring :=
  match bytes with
  | [] => []
  | [a] =>
      [base64_char (N.shiftr a 2);
       base64_char (N.shiftl (N.land a 3) 4); 61; 61]
  | [a; b] =>
      [base64_char (N.shiftr a 2);
       base64_char (N.lor (N.shiftl (N.land a 3) 4) (N.shiftr b 4));
       base64_char (N.shiftl (N.land b 15) 2); 61]
  | a :: b :: c :: rest =>
      [base64_char (N.shiftr a 2);
       base64_char (N.lor (N.shiftl (N.land a 3) 4) (N.shiftr b 4));
       base64_char (N.lor (N.shiftl (N.land b 15) 2) (N.shiftr c 6));
       base64_char (N.land c 63)] ++ base64 rest
  end.

(** [btoa(binary)]: base64 of a string of code units below 256; any other
    string raises [InvalidCharacterError]. *)
Definition btoa (binary : jsstring) : option jsstring :=
  if forallb (fun c => c <=? 255) binary then Some (base64 binary) else None.

(** [createBlob(data)] *)
Definition createBlob (data : Float32Array) : option Blob :=
  let l := length data in
  let int16 : Int16Array :=
    for_loop l 0
      (fun i int16 =>
         let s := Number.Math_max (Number.of_Z (-1))
                    (Number.Math_min (Number.of_Z 1) (default Number.NaN (data !! i))) in
         <[ i := Number.ToInt16
                   (if Number.lt s (Number.of_Z 0)
                    then Number.mul s (Number.of_Z 0x8000)
                    else Number.mul s (Number.of_Z 0x7FFF)) ]> int16)
      (replicate l 0%Z) in
  let bytes := Uint8Array_of_buffer int16 in
  let len := length bytes in
  let binary :=
    for_loop len 0 (fun i binary => binary ++ [default 0 (bytes !! i)]) [] in
  match btoa binary with
  | Some b64 => Some (Build_Blob b64 (str "audio/pcm;rate=16000"))
  | None => None
  end.

(** *** The encoding as the specification words it *)

(** A sample limited to the interval from -1 to 1. *)
Definition clamp (x : Number.t) : Number.t :=
  if Number.lt x (Number.of_Z (-1)) then Number.of_Z (-1)
  else if Number.lt (Number.of_Z 1) x then Number.of_Z 1
  else x.

(** The signed 16-bit sample: the clamped value scaled by [0x8000] below
    zero and by [0x7FFF] otherwise. *)
Definition pcm16 (x : Number.t) : Z :=
  let s := clamp x in
  Number.ToInt16 (Number.mul s (Number.of_Z (if Number.lt s (Number.of_Z 0)
                                             then 32768 else 32767))).

(** The two bytes of a signed 16-bit integer in two's complement, least
    significant first. *)
Definition int16_le (v : Z) : list N :=
  [Z.to_N (Z.land v 255); Z.to_N (Z.land (Z.shiftr v 8) 255)].

Definition pcm16_le_base64 (frame : Float32Array) : Blob :=
  {| data := base64 (flat_map (fun x => int16_le (pcm16 x)) frame);
     mimeType := str "audio/pcm;rate=16000" |}.

(** ** Timers *)

Definition clearTimeout (t : TimerId) (b : Browser) : Browser :=
  set_timers (List.filter (fun p => negb (Pos.eqb (fst p) t)) (timers b)) b.

(** [setTimeout(callback, delay)]; the only callback the session schedules
    is [commitInputToHistory], so a pending timer is its handle and its
    deadline. *)
Definition setTimeout (delay : N) (b : Browser) : TimerId * Browser :=
  (nextTimer b,
   set_nextTimer (Pos.succ (nextTimer b))
     (set_timers (timers b ++ [(nextTimer b, now b + delay)]) b)).

(** ** React: the updates of the history *)

(** The entry that an updater builds when it is called in the state [s]:
    [Date.now()], [new Date()] and the ref are read at the call. *)
Definition entry_of (u : Updater) (s : State) : TranscriptItem.t :=
  match u with
  | AppendUser =>
      TranscriptItem.mk (toString (now (browser s)) ++ str "-user")
        user (trim (currentInputRef s)) (now (browser s))
  | AppendManual pasted =>
      TranscriptItem.mk (toString (now (browser s)) ++ str "-manual")
        user (trim pasted) (now (browser s))
  | AppendAgent =>
      TranscriptItem.mk (toString (now (browser s)) ++ str "-agent")
        model (trim (currentOutputRef s)) (now (browser s))
  end.

(** The updater itself: [prev => [...prev, item]]. *)
Definition call (u : Updater) (s : State) (prev : list TranscriptItem.t)
  : list TranscriptItem.t :=
  prev ++ [entry_of u s].

(** [setTranscriptHistory(updater)].  With no update of App pending, React
    calls the updater at once to compute the next state; otherwise it puts
    the updater in the queue of the hook.  Either way App now has an update
    pending. *)
Definition setTranscriptHistory (u : Updater) (s : State) : State :=
  if updatePending (scheduler s)
  then set_scheduler (set_updateQueue (updateQueue (scheduler s) ++ [u]) (scheduler s)) s
  else set_scheduler (set_updatePending true (scheduler s))
         (set_transcriptHistory (call u s (transcriptHistory s)) s).

(** React renders App: the queued updaters are called in their order, in
    the state of the refs and of the clock at the render, and no update is
    pending any more. *)
Definition render (s : State) : State :=
  set_scheduler (set_updatePending false (set_updateQueue [] (scheduler s)))
    (set_transcriptHistory
       (fold_left (fun prev u => call u s prev) (updateQueue (scheduler s))
          (transcriptHistory s)) s).

(** ** [LiveSession]: the writers of the transcript *)

Definition commitInputToHistory (s : State) : State :=
  let s := match debounceTimerRef s with
           | Some t => set_browser (clearTimeout t (browser s)) s
           | None => s
           end in
  if truthy (trim (currentInputRef s)) then
    let s := setTranscriptHistory AppendUser s in
    let s := set_currentInputRef [] s in
    setLiveInputText [] s
  else s.

Definition handleManualSubmit (s : State) : State :=
  if negb (truthy (trim (pastedText s))) then s
  else
    let s := setTranscriptHistory (AppendManual (pastedText s)) s in
    let s := setPastedText [] s in
    setShowPasteInput false s.

(** ** [LiveApiService] *)

(** [sendText(text)] and the send of [onaudioprocess]: both go through
    [this.sessionPromise?.then(...)], which reaches the session of the
    promise unless there is none or it was rejected. *)
Definition send (o : Outbound) (l : LiveApiService) (b : Browser) : Browser :=
  match sessionPromise l with
  | Some (Pending h) | Some (Fulfilled h) => set_outbox (outbox b ++ [(h, o)]) b
  | Some (Rejected _) | None => b
  end.

Definition sendText (txt : jsstring) (s : State) : State :=
  set_browser (send (ClientContent txt) (liveService s) (browser s)) s.

(** [connect(...)] up to its await: [ai.live.connect] opens a transport and
    its promise is stored over whatever [sessionPromise] held. *)
Definition LiveApiService_connect (s : State) : State :=
  let h := nextHandle (browser s) in
  let s := set_browser
             (set_nextHandle (S h)
                (set_connecting (connecting (browser s) ++ [h])
                   (set_transports (transports (browser s) ++ [h]) (browser s)))) s in
  set_liveService (set_sessionPromise (Some (Pending h)) (liveService s)) s.

(** [startAudioStream()] up to its await on [getUserMedia]. *)
Definition startAudioStream (s : State) : State :=
  set_browser (set_micRequests (S (micRequests (browser s))) (browser s)) s.

(** [startAudioStream()] after the microphone was granted: the stream, the
    16 kHz context, the source and the 4096-sample processor. *)
Definition startAudioStream_granted (s : State) : State :=
  let ms := nextHandle (browser s) in
  let ctx := S ms in
  let s := set_browser
             (set_nextHandle (S ctx)
                (set_contexts (contexts (browser s) ++ [ctx])
                   (set_streams (streams (browser s) ++ [ms]) (browser s)))) s in
  set_liveService
    (set_processor (Some ctx)
       (set_source (Some ctx)
          (set_inputAudioContext (Some ctx)
             (set_mediaStream (Some ms) (liveService s))))) s.

(** [processor.onaudioprocess] *)
Definition onaudioprocess (inputData : Float32Array) (s : State) : State :=
  match createBlob inputData with
  | Some pcmBlob =>
      set_browser (send (RealtimeInput pcmBlob) (liveService s) (browser s)) s
  | None => s
  end.

(** [disconnect()] *)
Definition LiveApiService_disconnect (l : LiveApiService) (b : Browser)
  : Completion (LiveApiService * Browser) :=
  let '(l, b) :=
    match mediaStream l with
    | Some ms =>
        (set_mediaStream None l,
         set_streams (List.filter (fun x => negb (Nat.eqb x ms)) (streams b)) b)
    | None => (l, b)
    end in
  let '(l, b) :=
    match inputAudioContext l with
    | Some ctx =>
        (set_inputAudioContext None l,
         set_contexts (List.filter (fun x => negb (Nat.eqb x ctx)) (contexts b)) b)
    | None => (l, b)
    end in
  match sessionPromise l with
  | Some (Fulfilled h) =>
      Returned (set_sessionPromise None l,
                set_transports (List.filter (fun x => negb (Nat.eqb x h)) (transports b)) b)
  | Some (Rejected _) => Threw (l, b)
  | Some (Pending _) => Suspended (l, b)
  | None => Returned (l, b)
  end.

(** ** [LiveSession]: the callbacks given to [connect] *)

Definition kickoff : jsstring :=
  str "Please start the session with a brief, warm preamble for a social service journey mapping interview and ask the first opening question.".

Definition onOpen (s : State) : State :=
  sendText kickoff (setConnectionState CONNECTED s).

(** The [inputTranscription] block of the message callback. *)
Definition onInputTranscription (content : option ServerContent) (s : State) : State :=
  match content with
  | Some {| inputTranscription := Some {| text := Some txt |} |} =>
      if truthy txt then
        let s := set_currentInputRef (currentInputRef s ++ txt) s in
        let s := setLiveInputText (currentInputRef s) s in
        (* onTranscriptUpdate(text) is App's handleTranscriptUpdate, whose body is empty *)
        let s := match debounceTimerRef s with
                 | Some t => set_browser (clearTimeout t (browser s)) s
                 | None => s
                 end in
        let '(t, b) := setTimeout 1500 (browser s) in
        set_debounceTimerRef (Some t) (set_browser b s)
      else s
  | _ => s
  end.

(** The [outputTranscription] block. *)
Definition onOutputTranscription (content : option ServerContent) (s : State) : State :=
  match content with
  | Some {| outputTranscription := Some {| text := Some txt |} |} =>
      if truthy txt then
        let s := set_currentOutputRef (currentOutputRef s ++ txt) s in
        setLiveOutputText (currentOutputRef s) s
      else s
  | _ => s
  end.

(** The [turnComplete] block. *)
Definition onTurnComplete (content : option ServerContent) (s : State) : State :=
  match content with
  | Some {| turnComplete := Some true |} =>
      let s := commitInputToHistory s in
      if truthy (trim (currentOutputRef s)) then
        let s := setTranscriptHistory AppendAgent s in
        let s := set_currentOutputRef [] s in
        setLiveOutputText [] s
      else s
  | _ => s
  end.

Definition onMessage (msg : LiveServerMessage) (s : State) : State :=
  let content := serverContent msg in
  onTurnComplete content (onOutputTranscription content (onInputTranscription content s)).

Definition onError (s : State) : State := setConnectionState ERROR s.

Definition onClose (s : State) : State := setConnectionState DISCONNECTED s.

(** ** [LiveSession]: connect and disconnect *)

(** [handleConnect] up to its await. *)
Definition handleConnect (s : State) : State :=
  LiveApiService_connect (setConnectionState CONNECTING s).

(** The [catch] of [handleConnect], run when the awaited promise rejects. *)
Definition handleConnect_catch (s : State) : State := setConnectionState ERROR s.

(** [handleDisconnect] after [await liveService.current.disconnect()]. *)
Definition handleDisconnect_resume (s : State) : State :=
  let s := setConnectionState DISCONNECTED s in
  let s := commitInputToHistory s in
  let s := setLiveInputText [] s in
  let s := setLiveOutputText [] s in
  let s := set_currentInputRef [] s in
  set_currentOutputRef [] s.

(** [handleDisconnect] when nothing is delivered while it waits: the
    promise of [inputAudioContext.close()] resolves before any other event.
    How it ends then depends on the session promise alone. *)
Definition handleDisconnect (s : State) : Completion State :=
  match LiveApiService_disconnect (liveService s) (browser s) with
  | Returned (l, b) => Returned (handleDisconnect_resume (set_browser b (set_liveService l s)))
  | Threw (l, b) => Threw (set_browser b (set_liveService l s))
  | Suspended (l, b) => Suspended (set_browser b (set_liveService l s))
  end.

(** *** [handleDisconnect], cut at its awaits *)

Definition wait_for (a : Awaited) (s : State) : State :=
  set_scheduler (set_awaiting (awaiting (scheduler s) ++ [a]) (scheduler s)) s.

(** The last part of [disconnect()], then the rest of [handleDisconnect]:
    the session promise is awaited.  Fulfilled, its session is closed, the
    field is cleared and [handleDisconnect] goes on; rejected, the call
    throws; pending, the call waits for it. *)
Definition handleDisconnect_session (s : State) : State :=
  match sessionPromise (liveService s) with
  | Some (Fulfilled h) =>
      handleDisconnect_resume
        (set_browser
           (set_transports (List.filter (fun x => negb (Nat.eqb x h))
                              (transports (browser s))) (browser s))
           (set_liveService (set_sessionPromise None (liveService s)) s))
  | Some (Rejected _) => s
  | Some (Pending h) => wait_for (SessionPromise h) s
  | None => handleDisconnect_resume s
  end.

(** From the click to the first await that does not resolve at once: the
    tracks of the stream are stopped; [close()] closes the context, and its
    promise resolves later; called on a context that is closed already it
    rejects, and the call throws. *)
Definition handleDisconnect_call (s : State) : State :=
  let s :=
    match mediaStream (liveService s) with
    | Some ms =>
        set_browser
          (set_streams (List.filter (fun x => negb (Nat.eqb x ms)) (streams (browser s)))
             (browser s))
          (set_liveService (set_mediaStream None (liveService s)) s)
    | None => s
    end in
  match inputAudioContext (liveService s) with
  | Some ctx =>
      if existsb (Nat.eqb ctx) (contexts (browser s))
      then wait_for (ContextClose ctx)
             (set_browser
                (set_contexts (List.filter (fun x => negb (Nat.eqb x ctx))
                                 (contexts (browser s))) (browser s)) s)
      else s
  | None => handleDisconnect_session s
  end.

(** After the promise of [close()] resolved: the field is cleared, whatever
    it holds by then, and the call goes on to the session promise. *)
Definition handleDisconnect_closed (s : State) : State :=
  handleDisconnect_session
    (set_liveService (set_inputAudioContext None (liveService s)) s).

(** After the awaited session promise, of transport [h], was fulfilled. *)
Definition handleDisconnect_fulfilled (h : nat) (s : State) : State :=
  handleDisconnect_resume
    (set_browser
       (set_transports (List.filter (fun x => negb (Nat.eqb x h))
                          (transports (browser s))) (browser s))
       (set_liveService (set_sessionPromise None (liveService s)) s)).

(** ** The passing of time *)

(** The pending timer that fires next before or at [target]: the one with
    the least deadline, the one set first among equals. *)
Fixpoint earliest_due (target : N) (ts : list (TimerId * N)) : option (TimerId * N) :=
  match ts with
  | [] => None
  | p :: ts' =>
      match earliest_due target ts' with
      | Some q => if (snd p <=? target) && (snd p <=? snd q) then Some p else Some q
      | None => if snd p <=? target then Some p else None
      end
  end.

(** Fire the due timers one after the other; the callback of each is
    [commitInputToHistory], run at the deadline of the timer. *)
Fixpoint run_timers (fuel : nat) (target : N) (s : State) : State :=
  match fuel with
  | O => s
  | S fuel' =>
      match earliest_due target (timers (browser s)) with
      | None => s
      | Some (t, deadline) =>
          let b := set_now (N.max (now (browser s)) deadline)
                     (clearTimeout t (browser s)) in
          run_timers fuel' target (commitInputToHistory (set_browser b s))
      end
  end.

(** [d] milliseconds pass.  No callback sets a timer, so one round for each
    pending timer fires all that are due. *)
Definition elapse (d : N) (s : State) : State :=
  let target := now (browser s) + d in
  let s := run_timers (length (timers (browser s))) target s in
  set_browser (set_now target (browser s)) s.

(** ** Events and the steps of the session *)

Inductive Event :=
| ClickStart                       (* the Start Interview button *)
| ClickEnd                         (* the End Session button *)
| ClickPaste                       (* the Paste Text / Cancel Paste button *)
| TypePaste (v : jsstring)         (* typing in the paste area *)
| ClickAdd                         (* the Add to Transcript button *)
| Open (h : nat)                   (* transport h opened *)
| ConnectRejected (h : nat)        (* the connect of transport h failed *)
| MicGranted
| MicDenied
| Message (msg : LiveServerMessage)
| TransportError
| Close (h : nat)
| AudioProcess (ctx : nat) (inputData : Float32Array)
| Elapse (d : N)
| ContextClosed (ctx : nat)        (* the promise of close() of context ctx resolves *)
| Render                           (* React renders App *)
| AppUpdate.                       (* App has an update pending: another of its hooks was
                                      set, or React left an earlier mark on its fiber *)

Definition mem (x : nat) (l : list nat) : bool := existsb (Nat.eqb x) l.

Definition remove (x : nat) (l : list nat) : list nat :=
  List.filter (fun y => negb (Nat.eqb y x)) l.

(** The promise of transport [h] settles. *)
Definition settle (h : nat) (fulfilled : bool) (s : State) : State :=
  let s := set_browser (set_connecting (remove h (connecting (browser s))) (browser s)) s in
  match sessionPromise (liveService s) with
  | Some (Pending h') =>
      if Nat.eqb h h' then
        set_liveService
          (set_sessionPromise (Some (if fulfilled then Fulfilled h else Rejected h))
             (liveService s)) s
      else s
  | _ => s
  end.

Definition drop_transport (h : nat) (s : State) : State :=
  set_browser (set_transports (remove h (transports (browser s))) (browser s)) s.

Definition answer_mic (s : State) : State :=
  set_browser (set_micRequests (Nat.pred (micRequests (browser s))) (browser s)) s.

Definition is_awaited (a b : Awaited) : bool :=
  match a, b with
  | ContextClose x, ContextClose y | SessionPromise x, SessionPromise y => Nat.eqb x y
  | _, _ => false
  end.

Definition stop_waiting (a : Awaited) (s : State) : State :=
  set_scheduler
    (set_awaiting (List.filter (fun b => negb (is_awaited a b)) (awaiting (scheduler s)))
       (scheduler s)) s.

(** The calls that wait for [a] go on with [k], one after the other. *)
Definition resume_all (a : Awaited) (k : State -> State) (s : State) : State :=
  fold_left (fun st _ => k st)
    (List.filter (is_awaited a) (awaiting (scheduler s)))
    (stop_waiting a s).

Definition step (s : State) (e : Event) : State :=
  match e with
  | ClickStart =>
      (* rendered unless CONNECTED, disabled while CONNECTING *)
      match connectionState s with
      | CONNECTED | CONNECTING => s
      | DISCONNECTED | ERROR => handleConnect s
      end
  | ClickEnd =>
      (* rendered only when CONNECTED *)
      match connectionState s with
      | CONNECTED => handleDisconnect_call s
      | _ => s
      end
  | ClickPaste => setShowPasteInput (negb (showPasteInput s)) s
  | TypePaste v => if showPasteInput s then setPastedText v s else s
  | ClickAdd =>
      (* rendered with the paste area, disabled on blank text *)
      if showPasteInput s && truthy (trim (pastedText s))
      then handleManualSubmit s else s
  | Open h =>
      if mem h (connecting (browser s))
      then resume_all (SessionPromise h) (handleDisconnect_fulfilled h)
             (settle h true (startAudioStream (onOpen s)))
      else s
  | ConnectRejected h =>
      if mem h (connecting (browser s))
      then stop_waiting (SessionPromise h)
             (handleConnect_catch (drop_transport h (settle h false s)))
      else s
  | MicGranted =>
      if Nat.ltb 0 (micRequests (browser s))
      then startAudioStream_granted (answer_mic s) else s
  | MicDenied =>
      if Nat.ltb 0 (micRequests (browser s))
      then onError (answer_mic s) else s
  | Message msg => onMessage msg s
  | TransportError => onError s
  | Close h => onClose (drop_transport h s)
  | AudioProcess ctx inputData =>
      if mem ctx (contexts (browser s)) then onaudioprocess inputData s else s
  | Elapse d => elapse d s
  | ContextClosed ctx => resume_all (ContextClose ctx) handleDisconnect_closed s
  | Render => render s
  | AppUpdate => set_scheduler (set_updatePending true (scheduler s)) s
  end.

Definition run (s : State) (evs : list Event) : State := fold_left step evs s.

(** The component as it is mounted. *)
Definition init : State :=
  {| connectionState := DISCONNECTED;
     debounceTimerRef := None;
     currentInputRef := [];
     currentOutputRef := [];
     liveInputText := [];
     liveOutputText := [];
     showPasteInput := false;
     pastedText := [];
     transcriptHistory := [];
     liveService :=
       {| sessionPromise := None; inputAudioContext := None;
          mediaStream := None; processor := None; source := None |};
     browser :=
       {| now := 0; timers := []; nextTimer := 1%positive;
          transports := []; connecting := []; streams := []; contexts := [];
          micRequests := 0; nextHandle := 0; outbox := [] |};
     scheduler := {| updateQueue := []; updatePending := false; awaiting := [] |} |}.

(** ** The reader of the history ([analyzeTranscriptForMap]) *)

Definition speakerLabel (item : TranscriptItem.t) : jsstring :=
  match TranscriptItem.speaker item with
  | model => str "AI Co-Pilot"
  | _ => str "Human (Microphone)"
  end.

(** ** Messages of the remote service, by what they carry *)

Definition PartialTranscript_human (txt : jsstring) : LiveServerMessage :=
  {| serverContent :=
       Some {| inputTranscription := Some {| text := Some txt |};
               outputTranscription := None; turnComplete := None |} |}.

Definition PartialTranscript_agent (txt : jsstring) : LiveServerMessage :=
  {| serverContent :=
       Some {| inputTranscription := None;
               outputTranscription := Some {| text := Some txt |};
               turnComplete := None |} |}.

Definition TurnComplete : LiveServerMessage :=
  {| serverContent :=
       Some {| inputTranscription := None; outputTranscription := None;
               turnComplete := Some true |} |}.

(** ** Notions used by the statements *)

(** The text a transcription carries, empty when it carries none. *)
Definition delta (tr : option Transcription) : jsstring :=
  match tr with
  | Some {| text := Some txt |} => txt
  | _ => []
  end.

(** Every pending timer is the one [debounceTimerRef] holds. *)
Definition timers_ok (s : State) : Prop :=
  forall p, In p (timers (browser s)) -> debounceTimerRef s = Some (fst p).

(** [LiveApiService.disconnect] has no unsettled or rejected promise to
    await. *)
Definition settled (l : LiveApiService) : bool :=
  match sessionPromise l with
  | None | Some (Fulfilled _) => true
  | Some (Pending _) | Some (Rejected _) => false
  end.

(** The three writers of the history. *)
Inductive Writer := HumanChannel | ManualEntry | AgentChannel.

Definition id_suffix (w : Writer) : jsstring :=
  match w with
  | HumanChannel => str "-user"
  | ManualEntry => str "-manual"
  | AgentChannel => str "-agent"
  end.

Definition speaker_of (w : Writer) : Speaker :=
  match w with
  | HumanChannel | ManualEntry => user
  | AgentChannel => model
  end.




(** [raw] is the concatenation of consecutive pieces of [pieces]. *)
Definition run_of (pieces : list jsstring) (raw : jsstring) : Prop :=
  exists before taken after_,
    pieces = before ++ taken ++ after_ /\ raw = concat taken.

(** [item] is an entry of the writer [w]: it has the id suffix and the
    speaker of [w], and its text is the trim of text that was delivered to
    [w], consecutive deltas of its channel or a text typed in the paste
    area. *)
Definition entry_from (H A T : list jsstring) (w : Writer) (item : TranscriptItem.t)
  : Prop :=
  exists (at_ : N) (raw : jsstring),
    item = TranscriptItem.mk (toString at_ ++ id_suffix w) (speaker_of w) (trim raw) at_
    /\ match w with
       | HumanChannel => run_of H raw
       | AgentChannel => run_of A raw
       | ManualEntry => In raw T
       end.

(** A human-channel burst: each delta with the silence that follows it. *)
Definition burst_events (burst : list (jsstring * N)) : list Event :=
  flat_map (fun p => [Message (PartialTranscript_human (fst p)); Elapse (snd p)]) burst.

Definition total_silence (burst : list (jsstring * N)) : N :=
  fold_right N.add 0 (map snd burst).

(** A session with the microphone running: connect, transport 0 opens, the
    microphone is granted. *)
Definition connected : State := run init [ClickStart; Open 0%nat; MicGranted].

(** Sample values that a [Float32Array] can hold: 24-bit significands. *)
Definition is_float32 (x : Number.t) : Prop :=
  match x with
  | Number.Finite m e => (Z.abs m < 2 ^ 24 /\ -149 <= e <= 104)%Z
  | _ => True
  end.

Arguments str : simpl never.
Arguments trim : simpl never.
Arguments toString : simpl never.
Arguments createBlob : simpl never.
Arguments kickoff : simpl never.

(** Two states agree on all that the transcript engine reads and writes:
    history, buffers, live texts, the timer ref, the pending timers, the
    clock, the updates of the history that React holds, and the text of the
    paste area. *)
Definition same_transcript (s s' : State) : Prop :=
  transcriptHistory s' = transcriptHistory s
  /\ currentInputRef s' = currentInputRef s
  /\ currentOutputRef s' = currentOutputRef s
  /\ liveInputText s' = liveInputText s
  /\ liveOutputText s' = liveOutputText s
  /\ debounceTimerRef s' = debounceTimerRef s
  /\ timers (browser s') = timers (browser s)
  /\ nextTimer (browser s') = nextTimer (browser s)
  /\ now (browser s') = now (browser s)
  /\ updateQueue (scheduler s') = updateQueue (scheduler s)
  /\ updatePending (scheduler s') = updatePending (scheduler s)
  /\ pastedText s' = pastedText s.

(** The event [e] is the one at which a call of [handleDisconnect] gets
    past [await liveService.current.disconnect()] in the state [s]: the
    click on End Session itself, when the service holds no audio context
    and its session promise is settled; the closing of the context for
    which one call waits, the session promise being settled; the opening of
    the transport for whose promise one call waits. *)
Definition completes (s : State) (e : Event) : Prop :=
  match e with
  | ClickEnd =>
      connectionState s = CONNECTED
      /\ inputAudioContext (liveService s) = None
      /\ settled (liveService s) = true
  | Open h =>
      mem h (connecting (browser s)) = true
      /\ List.filter (is_awaited (SessionPromise h)) (awaiting (scheduler s))
         = [SessionPromise h]
  | ContextClosed ctx =>
      List.filter (is_awaited (ContextClose ctx)) (awaiting (scheduler s))
      = [ContextClose ctx]
      /\ settled (liveService s) = true
  | _ => False
  end.

(** The state a completed call leaves, however it completed. *)
Definition state_of (c : Completion State) : State :=
  match c with Returned s | Threw s | Suspended s => s end.

(** The events that are not a click on Start Interview. *)
Definition not_ClickStart (e : Event) : bool :=
  match e with ClickStart => false | _ => true end.

(** ** [geminiService.ts]: the journey map *)

(** A value as [JSON.parse] returns it.  The members of an object are its
    own properties, each key once. *)
#[local] Unset Elimination Schemes.
Inductive JSON :=
| JNull
| JBool (b : bool)
| JNumber (n : Number.t)
| JString (s : jsstring)
| JArray (items : list JSON)
| JObject (members : list (jsstring * JSON)).
#[local] Set Elimination Schemes.

Fixpoint jsstring_eqb (a b : jsstring) : bool :=
  match a, b with
  | [], [] => true
  | x :: a', y :: b' => (x =? y) && jsstring_eqb a' b'
  | _, _ => false
  end.

Fixpoint lookup_member (key : jsstring) (members : list (jsstring * JSON)) : option JSON :=
  match members with
  | [] => None
  | (k, v) :: rest => if jsstring_eqb k key then Some v else lookup_member key rest
  end.

(** [v.key] for a value that is not null, [None] for [undefined].  None of
    the keys the service reads is a property that arrays, strings, numbers
    or objects inherit. *)
Definition get (v : JSON) (key : jsstring) : option JSON :=
  match v with
  | JObject members => lookup_member key members
  | _ => None
  end.

(** Truthiness of a value that may be [undefined]. *)
Definition truthy_value (v : option JSON) : bool :=
  match v with
  | None | Some JNull => false
  | Some (JBool b) => b
  | Some (JNumber Number.NaN) => false
  | Some (JNumber (Number.Finite m _)) => negb (m =? 0)%Z
  | Some (JNumber (Number.Infinity _)) => true
  | Some (JString s) => truthy s
  | Some (JArray _) | Some (JObject _) => true
  end.

(** [v || d] *)
Definition or_else (v : option JSON) (d : JSON) : JSON :=
  match v with
  | Some x => if truthy_value v then x else d
  | None => d
  end.

(** [Array.isArray(v) ? v : []] *)
Definition array_or_empty (v : option JSON) : list JSON :=
  match v with
  | Some (JArray items) => items
  | _ => []
  end.

(** [typeof v === 'object'] *)
Definition typeof_object (v : JSON) : bool :=
  match v with
  | JNull | JArray _ | JObject _ => true
  | JBool _ | JNumber _ | JString _ => false
  end.

Inductive Thrown := Error (message : jsstring) | TypeError | SyntaxError.

(** What a call that may throw gives. *)
Inductive Outcome (A : Type) := Value (a : A) | Throws (e : Thrown).
Arguments Value {A} a.
Arguments Throws {A} e.

Module JourneyStage.
Record t := mk {
  name : JSON;
  userActions : list JSON;
  touchpoints : list JSON;
  emotions : JSON;
  painPoints : list JSON;
  opportunities : list JSON
}.
End JourneyStage.

Module JourneyMapData.
Record t := mk {
  title : JSON;
  stages : list JourneyStage.t
}.
End JourneyMapData.

(** The default of [emotions]: the code units of the literal as the source
    file holds it, U+F8FF, U+00FC, U+00F2, U+00EA. *)
Definition neutral_face : jsstring := [63743; 252; 242; 234].

(** The object that the callback of [data.stages.map] builds. *)
Definition stage_literal (stage : JSON) : JourneyStage.t :=
  JourneyStage.mk
    (or_else (get stage (str "name")) (JString (str "Unknown Stage")))
    (array_or_empty (get stage (str "userActions")))
    (array_or_empty (get stage (str "touchpoints")))
    (or_else (get stage (str "emotions")) (JString neutral_face))
    (array_or_empty (get stage (str "painPoints")))
    (array_or_empty (get stage (str "opportunities"))).

(** The callback itself: reading a property of [null] throws. *)
Definition sanitizeStage (stage : JSON) : Outcome JourneyStage.t :=
  match stage with
  | JNull => Throws TypeError
  | _ => Value (stage_literal stage)
  end.

Definition is_null (v : JSON) : bool :=
  match v with JNull => true | _ => false end.

(** [items.map(f)] for a callback that may throw. *)
Fixpoint map_throwing {A B : Type} (f : A -> Outcome B) (items : list A) : Outcome (list B) :=
  match items with
  | [] => Value []
  | x :: rest =>
      match f x with
      | Throws e => Throws e
      | Value y =>
          match map_throwing f rest with
          | Throws e => Throws e
          | Value ys => Value (y :: ys)
          end
      end
  end.

Definition sanitizeJourneyMap (data : JSON) : Outcome JourneyMapData.t :=
  if negb (truthy_value (Some data)) || negb (typeof_object data)
  then Throws (Error (str "Invalid data format received from AI"))
  else
    match map_throwing sanitizeStage (array_or_empty (get data (str "stages"))) with
    | Throws e => Throws e
    | Value stages =>
        Value (JourneyMapData.mk
                 (or_else (get data (str "title")) (JString (str "Untitled Journey")))
                 stages)
    end.

(** A journey map, and a stage, as the plain objects they are. *)
Definition stage_object (stage : JourneyStage.t) : JSON :=
  JObject [(str "name", JourneyStage.name stage);
           (str "userActions", JArray (JourneyStage.userActions stage));
           (str "touchpoints", JArray (JourneyStage.touchpoints stage));
           (str "emotions", JourneyStage.emotions stage);
           (str "painPoints", JArray (JourneyStage.painPoints stage));
           (str "opportunities", JArray (JourneyStage.opportunities stage))].

Definition map_object (m : JourneyMapData.t) : JSON :=
  JObject [(str "title", JourneyMapData.title m);
           (str "stages", JArray (map stage_object (JourneyMapData.stages m)))].

(** ** [analyzeTranscriptForMap]: the answer of the model *)

Definition startsWith (p s : jsstring) : bool :=
  jsstring_eqb (take (length p) s) p.

Definition endsWith (p s : jsstring) : bool :=
  jsstring_eqb (drop (length s - length p) s) p.

Definition fence : jsstring := str "```".
Definition fence_json : jsstring := str "```json".

(** [s.replace(/^P\s*/, '')] for a literal [P]: the match is at the start
    and takes all the white space that follows. *)
Definition replace_opening (p s : jsstring) : jsstring :=
  if startsWith p s then trimStart (drop (length p) s) else s.

(** [s.replace(/\s*```$/, '')]: the match ends the string and starts where
    the white space before the closing fence starts. *)
Definition replace_closing (s : jsstring) : jsstring :=
  if endsWith fence s then trimEnd (take (length s - length fence) s) else s.

(** The unwrapping of a Markdown code fence around the JSON text. *)
Definition unwrapMarkdown (jsonText : jsstring) : jsstring :=
  if startsWith fence_json jsonText
  then replace_closing (replace_opening fence_json jsonText)
  else if startsWith fence jsonText
  then replace_closing (replace_opening fence jsonText)
  else jsonText.

(** [items.join(sep)] *)
Fixpoint join (sep : jsstring) (items : list jsstring) : jsstring :=
  match items with
  | [] => []
  | [x] => x
  | x :: rest => x ++ sep ++ join sep rest
  end.

(** The transcript as the analysis request quotes it. *)
Definition formattedTranscript (transcriptHistory : list TranscriptItem.t) : jsstring :=
  join [10; 10]
    (map (fun item => speakerLabel item ++ str ": " ++ TranscriptItem.text item)
       transcriptHistory).

(** How the request to the model ends: the timeout wins the race, the call
    rejects, or it answers with a response, which may lack its text. *)
Inductive ApiResult :=
| ApiTimeout
| ApiRejected (e : Thrown)
| ApiResponse (response_text : option jsstring).

Section Analysis.

(** [JSON.parse], [None] when it throws a [SyntaxError]. *)
Variable JSON_parse : jsstring -> option JSON.

(** [analyzeTranscriptForMap], given how the request ends.  With an empty
    history no request is made. *)
Definition analyzeTranscriptForMap
  (transcriptHistory : list TranscriptItem.t) (api : ApiResult)
  : Outcome (option JourneyMapData.t) :=
  match transcriptHistory with
  | [] => Value None
  | _ :: _ =>
      match api with
      | ApiTimeout =>
          Throws (Error (str "Analysis timed out. The model took too long to respond."))
      | ApiRejected e => Throws e
      | ApiResponse response_text =>
          match response_text with
          | None | Some [] => Throws (Error (str "Empty response from AI"))
          | Some jsonText =>
              match JSON_parse (unwrapMarkdown jsonText) with
              | None => Throws SyntaxError
              | Some rawData =>
                  match sanitizeJourneyMap rawData with
                  | Value m => Value (Some m)
                  | Throws e => Throws e
                  end
              end
          end
      end
  end.

End Analysis.

(** ** [generateFollowUpQuestions]: the snippet *)

(** [items.slice(-n)] *)
Definition slice_last {A : Type} (n : nat) (items : list A) : list A :=
  drop (length items - n) items.

Definition followUpSnippet (transcriptHistory : list TranscriptItem.t) : jsstring :=
  join [10]
    (map (fun item =>
            (match TranscriptItem.speaker item with
             | model => str "AI"
             | _ => str "Human"
             end) ++ str ": " ++ TranscriptItem.text item)
       (slice_last 10 transcriptHistory)).

(** ** [App]: the Generate Journey Map button *)

(** What [alert] is called with: the fixed notice of an empty transcript, or
    the failure notice, which quotes the message of what was thrown. *)
Inductive Alert := NoTranscript | FailedToGenerate (e : Thrown).

(** The state of [App] that [handleGenerateMap] touches, and the alerts
    shown. *)
Record App := {
  journeyMap : option JourneyMapData.t;
  isMapLoading : bool;
  alerts : list Alert
}.

(** [handleGenerateMap] up to its await: the guard, then the loading flag;
    [None] when it returns at the guard and no analysis is started. *)
Definition handleGenerateMap_start
  (transcriptHistory : list TranscriptItem.t) (app : App) : option App :=
  match transcriptHistory with
  | [] => None
  | _ :: _ =>
      Some {| journeyMap := journeyMap app; isMapLoading := true; alerts := alerts app |}
  end.

(** [handleGenerateMap] after the await: try, catch and finally. *)
Definition handleGenerateMap_settle
  (analysis : Outcome (option JourneyMapData.t)) (app : App) : App :=
  let app :=
    match analysis with
    | Value (Some map) =>
        {| journeyMap := Some map; isMapLoading := isMapLoading app; alerts := alerts app |}
    | Value None =>
        {| journeyMap := journeyMap app; isMapLoading := isMapLoading app;
           alerts := alerts app ++ [FailedToGenerate (Error (str "Result was empty"))] |}
    | Throws e =>
        {| journeyMap := journeyMap app; isMapLoading := isMapLoading app;
           alerts := alerts app ++ [FailedToGenerate e] |}
    end in
  {| journeyMap := journeyMap app; isMapLoading := false; alerts := alerts app |}.

Definition handleGenerateMap
  (JSON_parse : jsstring -> option JSON)
  (transcriptHistory : list TranscriptItem.t) (api : ApiResult) (app : App) : App :=
  match handleGenerateMap_start transcriptHistory app with
  | None =>
      {| journeyMap := journeyMap app; isMapLoading := isMapLoading app;
         alerts := alerts app ++ [NoTranscript] |}
  | Some loading =>
      handleGenerateMap_settle
        (analyzeTranscriptForMap JSON_parse transcriptHistory api) loading
  end.

(** ** [JourneyMapViz]: the name of the downloaded report *)

Definition is_digit (c : N) : bool := (48 <=? c) && (c <=? 57).
Definition is_upper (c : N) : bool := (65 <=? c) && (c <=? 90).
Definition is_lower (c : N) : bool := (97 <=? c) && (c <=? 122).

(** [s.replace(/[^a-z0-9]/gi, '_')]: without the unicode flag a code unit
    matches [a-z0-9] ignoring case exactly when it is an ASCII letter or
    digit. *)
Definition replace_non_alnum (s : jsstring) : jsstring :=
  map (fun c => if is_digit c || is_upper c || is_lower c then c else 95) s.

(** [s.toLowerCase()] for a string of code units below 128. *)
Definition toLowerCase_ascii (s : jsstring) : jsstring :=
  map (fun c => if is_upper c then c + 32 else c) s.

(** The [download] attribute that [handleDownloadHTML] sets. *)
Definition download_stem (title : jsstring) : jsstring :=
  toLowerCase_ascii (replace_non_alnum title).

(** The code units of a stem: lower-case ASCII letters, digits, underscore. *)
Definition stem_char (c : N) : bool := is_digit c || is_lower c || (c =? 95).

Definition download_name (title : jsstring) : jsstring :=
  download_stem title ++ str ".html".

(** [handleDownloadHTML], as far as the name goes: [data.title.replace]
    is a call of [undefined] unless the title is a string. *)
Definition report_name (data : JourneyMapData.t) : Outcome jsstring :=
  match JourneyMapData.title data with
  | JString title => Value (download_name title)
  | _ => Throws TypeError
  end.

(** ** [googleIntegration.ts]: waiting for the scripts *)

(** The loop of [waitForGoogleScripts].  [loaded k] tells whether
    [window.gapi && window.google] is truthy at the check made after [k]
    waits of 200 ms.  The result comes with the number of waits made. *)
Fixpoint waitForGoogleScripts_loop (fuel retries : nat) (loaded : nat -> bool)
  : option (bool * nat) :=
  match fuel with
  | O => None
  | S fuel' =>
      if Nat.ltb retries 20 then
        if loaded retries then Some (true, retries)
        else waitForGoogleScripts_loop fuel' (S retries) loaded
      else Some (false, retries)
  end.

Definition waitForGoogleScripts (fuel : nat) (loaded : nat -> bool) : option (bool * nat) :=
  waitForGoogleScripts_loop fuel 0 loaded.

(** The first of the checks [from .. from + count - 1] that succeeds. *)
Fixpoint first_loaded (count from : nat) (loaded : nat -> bool) : option nat :=
  match count with
  | O => None
  | S count' => if loaded from then Some from else first_loaded count' (S from) loaded
  end.

(** ** [createBlob]: its samples, and the reading of its payload *)

(** The body of the first loop of [createBlob]: what is stored for the
    sample [x]. *)
Definition int16_of_sample (x : Number.t) : Z :=
  let s := Number.Math_max (Number.of_Z (-1)) (Number.Math_min (Number.of_Z 1) x) in
  Number.ToInt16 (if Number.lt s (Number.of_Z 0)
                  then Number.mul s (Number.of_Z 0x8000)
                  else Number.mul s (Number.of_Z 0x7FFF)).

(** The value stored for the sample [M / Q], for a denominator [Q] above
    zero: full scale beyond -1 and 1, and between them the scaled sample
    with its fraction dropped. *)
Definition scaled_sample (M Q : Z) : Z :=
  if (M <? - Q)%Z then (-32768)%Z
  else if (Q <? M)%Z then 32767%Z
  else if (M <? 0)%Z then Z.quot (M * 32768) Q
  else Z.quot (M * 32767) Q.

(** The place of a character in the base64 alphabet. *)
Definition base64_index (c : N) : option N :=
  if (65 <=? c) && (c <=? 90) then Some (c - 65)
  else if (97 <=? c) && (c <=? 122) then Some (c - 71)
  else if (48 <=? c) && (c <=? 57) then Some (c + 4)
  else if c =? 43 then Some 62
  else if c =? 47 then Some 63
  else None.

(** The bytes of a padded base64 text, as a receiver decodes it. *)
Fixpoint base64_decode (s : jsstring) : option (list N) :=
  match s with
  | [] => Some []
  | c1 :: c2 :: c3 :: c4 :: rest =>
      match base64_index c1, base64_index c2 with
      | Some i1, Some i2 =>
          let a := N.lor (N.shiftl i1 2) (N.shiftr i2 4) in
          if c3 =? 61 then
            if (c4 =? 61) && (match rest with [] => true | _ => false end)
            then Some [a] else None
          else
            match base64_index c3 with
            | Some i3 =>
                let b := N.lor (N.shiftl (N.land i2 15) 4) (N.shiftr i3 2) in
                if c4 =? 61 then
                  match rest with [] => Some [a; b] | _ => None end
                else
                  match base64_index c4, base64_decode rest with
                  | Some i4, Some bytes =>
                      Some (a :: b :: N.lor (N.shiftl (N.land i3 3) 6) i4 :: bytes)
                  | _, _ => None
                  end
            | None => None
            end
      | _, _ => None
      end
  | _ => None
  end.

(** The signed 16-bit integers that a little-endian [Int16Array] over the
    bytes holds. *)
Fixpoint Int16Array_of_bytes (bytes : list N) : option (list Z) :=
  match bytes with
  | [] => Some []
  | lo :: hi :: rest =>
      match Int16Array_of_bytes rest with
      | Some ints =>
          let u := Z.of_N (N.lor lo (N.shiftl hi 8)) in
          Some ((if (u <? 2 ^ 15)%Z then u else (u - 2 ^ 16)%Z) :: ints)
      | None => None
      end
  | [_] => None
  end.

(** [s] is found again from its character, which is not the padding. *)
Definition is_sextet (s : N) : bool :=
  match base64_index (base64_char s) with
  | Some i => (i =? s) && negb (base64_char s =? 61)
  | None => false
  end.

(** The exhaustive check of a property of two bytes. *)
Definition all_bytes2 (P : N -> N -> bool) : bool :=
  forallb (fun a => forallb (fun b => P (N.of_nat a) (N.of_nat b)) (seq 0 256)) (seq 0 256).

(** ** Notions used by the further statements about the session *)

(** At most one timer is pending, and it is the one the ref holds. *)
Definition one_timer (s : State) : Prop :=
  (length (timers (browser s)) <= 1)%nat /\ timers_ok s.

(** The live texts shown while speaking are the buffers. *)
Definition live_texts_mirror (s : State) : Prop :=
  liveInputText s = currentInputRef s /\ liveOutputText s = currentOutputRef s.

(** [l] never decreases and starts at [lo] or later. *)
Fixpoint ascending_from (lo : N) (l : list N) : Prop :=
  match l with
  | [] => True
  | x :: rest => lo <= x /\ ascending_from x rest
  end.

(** The timestamps of the history never decrease and none is ahead of the
    clock. *)
Definition stamps_in_order (s : State) : Prop :=
  ascending_from 0 (map TranscriptItem.timestamp (transcriptHistory s))
  /\ Forall (fun item => TranscriptItem.timestamp item <= now (browser s))
       (transcriptHistory s).

(** What the session hands to the transport: the kickoff text, or a frame
    as [createBlob] encodes it. *)
Definition sent_by_session (o : Outbound) : Prop :=
  match o with
  | ClientContent turn => turn = kickoff
  | RealtimeInput media => exists frame, createBlob frame = Some media
  end.

(** [raw] is the concatenation of the last pieces of [pieces]. *)
Definition tail_of (pieces : list jsstring) (raw : jsstring) : Prop :=
  exists before taken, pieces = before ++ taken /\ raw = concat taken.

(** Where the texts of a state come from, given the texts [H], [A] and [T]
    delivered so far: each buffer holds the last deltas of its channel; the
    paste area and the manual updaters in the queue hold typed text; every
    entry of the history is an entry of one of the writers. *)
Definition provenance (H A T : list jsstring) (s : State) : Prop :=
  tail_of H (currentInputRef s)
  /\ tail_of A (currentOutputRef s)
  /\ (pastedText s = [] \/ In (pastedText s) T)
  /\ (forall pasted, In (AppendManual pasted) (updateQueue (scheduler s)) -> In pasted T)
  /\ Forall (fun item => exists w, entry_from H A T w item) (transcriptHistory s).

(** [same_transcript], but for the history. *)
Definition same_transcript_but_history (s s' : State) : Prop :=
  currentInputRef s' = currentInputRef s
  /\ currentOutputRef s' = currentOutputRef s
  /\ liveInputText s' = liveInputText s
  /\ liveOutputText s' = liveOutputText s
  /\ debounceTimerRef s' = debounceTimerRef s
  /\ timers (browser s') = timers (browser s)
  /\ nextTimer (browser s') = nextTimer (browser s)
  /\ now (browser s') = now (browser s).



(** ** [LiveSession]: the cleanup of the unmount effect *)


(** * Properties *)

(** ** Trimming *)

Section Trim.

Lemma trimStart_keep (c : N) (s : jsstring) :
  is_ws c = false -> trimStart (c :: s) = c :: s.
Proof. intros H. simpl. now rewrite H. Qed.

Lemma trimStart_head (s : jsstring) :
  trimStart s = [] \/ exists c r, trimStart s = c :: r /\ is_ws c = false.
Proof.
  induction s as [|c s IH]; simpl; [now left|].
  destruct (is_ws c) eqn:E; [exact IH|].
  right. now exists c, s.
Qed.

Lemma trimStart_idem (s : jsstring) : trimStart (trimStart s) = trimStart s.
Proof.
  destruct (trimStart_head s) as [->|(c & r & -> & H)]; [reflexivity|].
  now apply trimStart_keep.
Qed.

Lemma trimStart_snoc (s : jsstring) (c : N) :
  is_ws c = false -> trimStart (s ++ [c]) = trimStart s ++ [c].
Proof.
  intros H. induction s as [|a s IH]; simpl.
  - now rewrite H.
  - destruct (is_ws a); [exact IH|reflexivity].
Qed.

Lemma trimEnd_keep (c : N) (s : jsstring) :
  is_ws c = false -> trimEnd (c :: s) = c :: trimEnd s.
Proof.
  intros H. unfold trimEnd. simpl rev.
  rewrite (trimStart_snoc _ _ H), rev_app_distr. reflexivity.
Qed.

Lemma trimEnd_idem (s : jsstring) : trimEnd (trimEnd s) = trimEnd s.
Proof.
  unfold trimEnd. now rewrite rev_involutive, trimStart_idem.
Qed.


Lemma trimStart_blank (b : jsstring) : trim b = [] -> trimStart b = [].
Proof.
  unfold trim. intros H.
  destruct (trimStart_head b) as [E|(c & r & E & Hc)]; [exact E|].
  rewrite E, (trimEnd_keep _ _ Hc) in H. discriminate.
Qed.

Lemma trimStart_blank_app (b x : jsstring) :
  trimStart b = [] -> trimStart (b ++ x) = trimStart x.
Proof.
  induction b as [|c b IH]; intros H; [reflexivity|].
  cbn in *. destruct (is_ws c); [now apply IH|discriminate].
Qed.

(** Blanks left in front of a text do not reach its trim. *)
Lemma trim_blank_prefix (b x : jsstring) : trim b = [] -> trim (b ++ x) = trim x.
Proof.
  intros H. unfold trim. now rewrite (trimStart_blank_app b x (trimStart_blank b H)).
Qed.

Lemma truthy_false (s : jsstring) : truthy s = false <-> s = [].
Proof. destruct s; simpl; split; congruence. Qed.

Lemma truthy_true (s : jsstring) : truthy s = true <-> s <> [].
Proof. destruct s; simpl; split; congruence. Qed.

End Trim.

(** ** The audio encoding *)

Section Audio.

Lemma for_loop_store {A B : Type} (f : A -> B) (d : A) (data : list A) :
  forall (count start : nat) (acc : list B),
    (start + count)%nat = length data ->
    length acc = length data ->
    for_loop count start (fun i acc => <[ i := f (default d (data !! i)) ]> acc) acc
    = take start acc ++ map f (drop start data).
Proof.
  induction count as [|count IH]; intros start acc Hn Hl; simpl.
  - rewrite take_ge, drop_ge by lia. simpl. now rewrite app_nil_r.
  - destruct (lookup_lt_is_Some_2 data start) as [x Hx]; [lia|].
    destruct (lookup_lt_is_Some_2 acc start) as [y Hy]; [lia|].
    rewrite IH by (rewrite ?length_insert; lia).
    rewrite (drop_S data x start Hx), Hx. simpl.
    rewrite (take_S_r _ _ (f x)) by (apply list_lookup_insert_eq; lia).
    rewrite take_insert_ge by lia.
    now rewrite <- app_assoc.
Qed.

Lemma for_loop_append {A : Type} (d : A) (bytes : list A) :
  forall (count start : nat) (acc : list A),
    (start + count <= length bytes)%nat ->
    for_loop count start (fun i binary => binary ++ [default d (bytes !! i)]) acc
    = acc ++ take count (drop start bytes).
Proof.
  induction count as [|count IH]; intros start acc Hn; simpl.
  - now rewrite take_0, app_nil_r.
  - destruct (lookup_lt_is_Some_2 bytes start) as [x Hx]; [lia|].
    rewrite IH by lia. rewrite (drop_S bytes x start Hx), Hx. simpl.
    now rewrite <- app_assoc.
Qed.

Lemma pow2_pos (n : Z) : (0 <= n -> 0 < 2 ^ n)%Z.
Proof. intros. apply Z.pow_pos_nonneg; lia. Qed.

(** A finite number whose value is the integer [v], scaled by an integer
    [c], converts to [v * c] exactly. *)
Lemma truncate_integer (m e v c : Z) :
  (m * 2 ^ (e - Z.min e 0) = v * 2 ^ (0 - Z.min e 0))%Z ->
  Number.truncate (m * c) (e + 0) = (v * c)%Z.
Proof.
  intros H. unfold Number.truncate. rewrite Z.add_0_r.
  destruct (Z.leb_spec 0 e) as [He|He].
  - rewrite Z.min_r in H by lia. rewrite Z.sub_0_r in H. simpl in H.
    rewrite <- Z.mul_assoc, (Z.mul_comm c), Z.mul_assoc, H. lia.
  - rewrite Z.min_l in H by lia. rewrite Z.sub_diag in H.
    replace (0 - e)%Z with (- e)%Z in H by lia.
    assert (0 < 2 ^ (- e))%Z by (apply pow2_pos; lia).
    replace (m * c)%Z with (v * c * 2 ^ (- e))%Z by lia.
    apply Z.quot_mul. lia.
Qed.

Lemma lt_finite_l (m e c : Z) :
  Number.lt (Number.Finite m e) (Number.Finite c 0)
  = (m * 2 ^ (e - Z.min e 0) <? c * 2 ^ (0 - Z.min e 0))%Z.
Proof. reflexivity. Qed.

Lemma lt_finite_r (m e c : Z) :
  Number.lt (Number.Finite c 0) (Number.Finite m e)
  = (c * 2 ^ (0 - Z.min e 0) <? m * 2 ^ (e - Z.min e 0))%Z.
Proof. unfold Number.lt. now rewrite Z.min_comm. Qed.

Lemma ToInt16_integer (m e v c : Z) :
  (m * 2 ^ (e - Z.min e 0) = v * 2 ^ (0 - Z.min e 0))%Z ->
  Number.ToInt16 (Number.mul (Number.Finite m e) (Number.of_Z c))
  = Number.ToInt16 (Number.mul (Number.of_Z v) (Number.of_Z c)).
Proof.
  intros H. unfold Number.of_Z, Number.mul, Number.ToInt16.
  rewrite (truncate_integer m e v c H).
  unfold Number.truncate. simpl (0 <=? 0 + 0)%Z. cbv iota.
  now rewrite Z.add_0_l, Z.pow_0_r, Z.mul_1_r.
Qed.

(** The sample as [createBlob] computes it is the sample of the
    specification. *)
Lemma sample_pcm16 (x : Number.t) :
  (let s := Number.Math_max (Number.of_Z (-1)) (Number.Math_min (Number.of_Z 1) x) in
   Number.ToInt16 (if Number.lt s (Number.of_Z 0)
                   then Number.mul s (Number.of_Z 0x8000)
                   else Number.mul s (Number.of_Z 0x7FFF)))
  = pcm16 x.
Proof.
  destruct x as [|[|]|m e]; try reflexivity.
  assert (HQ : (0 < 2 ^ (0 - Z.min e 0))%Z) by (apply pow2_pos; lia).
  pose proof (lt_finite_l m e 1) as L1.
  pose proof (lt_finite_l m e (-1)) as Lm1.
  pose proof (lt_finite_l m e 0) as L0.
  pose proof (lt_finite_r m e 1) as R1.
  pose proof (lt_finite_r m e (-1)) as Rm1.
  pose proof (ToInt16_integer m e 1 32767) as E1.
  pose proof (ToInt16_integer m e (-1) 32768) as Em1.
  set (M := (m * 2 ^ (e - Z.min e 0))%Z) in *.
  set (Q := (2 ^ (0 - Z.min e 0))%Z) in *.
  cbv zeta. unfold pcm16, clamp, Number.Math_max, Number.Math_min, Number.of_Z in *.
  cbn [Number.is_NaN orb].
  rewrite L1, Lm1, R1.
  destruct (Z.ltb_spec M (1 * Q)) as [A|A];
    destruct (Z.ltb_spec M (-1 * Q)) as [C|C];
    destruct (Z.ltb_spec (1 * Q) M) as [D|D]; try lia;
    cbn [Number.is_NaN orb]; rewrite ?Rm1;
    destruct (Z.ltb_spec (-1 * Q) M) as [B|B]; try lia;
    rewrite ?L0;
    destruct (Z.ltb_spec M (0 * Q)) as [F|F]; try lia;
    try reflexivity.
  - symmetry. apply Em1. lia.
  - symmetry. apply E1. lia.
Qed.


Lemma buffer_bytes (v : Z) :
  [Z.to_N ((v mod 2 ^ 16) mod 2 ^ 8); Z.to_N ((v mod 2 ^ 16) / 2 ^ 8)]%Z = int16_le v.
Proof.
  unfold int16_le. change 255%Z with (Z.ones 8).
  rewrite !Z.land_ones, Z.shiftr_div_pow2 by lia.
  change (2 ^ 16)%Z with 65536%Z. change (2 ^ 8)%Z with 256%Z.
  assert (H1 : ((v mod 65536) mod 256 = v mod 256)%Z)
    by (Z.div_mod_to_equations; lia).
  assert (H2 : ((v mod 65536) / 256 = (v / 256) mod 256)%Z)
    by (Z.div_mod_to_equations; lia).
  now rewrite H1, H2.
Qed.

Lemma Uint8Array_of_buffer_map {A : Type} (f : A -> Z) (l : list A) :
  Uint8Array_of_buffer (map f l) = flat_map (fun x => int16_le (f x)) l.
Proof.
  unfold Uint8Array_of_buffer.
  induction l as [|x l IH]; [reflexivity|].
  cbn [map flat_map]. rewrite IH. f_equal. apply buffer_bytes.
Qed.

Lemma int16_le_bytes {A : Type} (f : A -> Z) (l : list A) :
  forallb (fun c => c <=? 255) (flat_map (fun x => int16_le (f x)) l) = true.
Proof.
  induction l as [|x l IH]; [reflexivity|].
  cbn [flat_map]. rewrite forallb_app, IH, andb_true_r.
  unfold int16_le. change 255%Z with (Z.ones 8).
  rewrite !Z.land_ones by lia. cbn [forallb]. rewrite andb_true_r.
  apply andb_true_intro; split; apply N.leb_le;
    change 255 with (Z.to_N 255); apply Z2N.inj_le;
    try lia; try (apply Z.mod_pos_bound; lia);
    match goal with |- (?a mod ?b <= _)%Z =>
      pose proof (Z.mod_pos_bound a b ltac:(lia)) end; simpl in *; lia.
Qed.

Lemma base64_length_bounded (n : nat) :
  forall l : list N,
    (length l <= n)%nat ->
    length (base64 l) = (4 * ((length l + 2) / 3))%nat.
Proof.
  induction n as [n IH] using lt_wf_ind. intros l Hl.
  destruct l as [|a [|b [|c r]]]; try reflexivity.
  cbn [base64 length app]. rewrite (IH (length r)) by (cbn in Hl; lia).
  replace (S (S (S (length r))) + 2)%nat with (1 * 3 + (length r + 2))%nat by lia.
  rewrite Nat.div_add_l by lia. lia.
Qed.

Lemma base64_length (l : list N) :
  length (base64 l) = (4 * ((length l + 2) / 3))%nat.
Proof. now apply (base64_length_bounded (length l)). Qed.

Lemma int16_le_length {A : Type} (f : A -> Z) (l : list A) :
  length (flat_map (fun x => int16_le (f x)) l) = (2 * length l)%nat.
Proof. induction l as [|x l IH]; cbn; [reflexivity|]. rewrite IH. lia. Qed.

(** A frame of 4096 samples is 8192 bytes, 10924 characters of base64. *)
Lemma pcm16_le_base64_frame (frame : Float32Array) :
  Z.of_nat (length frame) = 4096%Z ->
  Z.of_nat (length (data (pcm16_le_base64 frame))) = 10924%Z.
Proof.
  intros H. unfold pcm16_le_base64. cbn [data].
  rewrite base64_length, int16_le_length.
  rewrite Nat2Z.inj_mul, Nat2Z.inj_div, Nat2Z.inj_add, Nat2Z.inj_mul, H.
  reflexivity.
Qed.

(** C9. For every captured frame, [createBlob] returns (it does not throw)
    the blob whose MIME type is audio/pcm;rate=16000 and whose data is the
    base64 encoding of the frame as little-endian signed 16-bit PCM, each
    sample clamped to the interval from -1 to 1 and then scaled by 0x8000
    when negative and by 0x7FFF otherwise. *)
Theorem createBlob_pcm16_le_base64 (data : Float32Array) :
  createBlob data = Some (pcm16_le_base64 data).
Proof.
  unfold createBlob, pcm16_le_base64.
  set (f := fun x : Number.t =>
    let s := Number.Math_max (Number.of_Z (-1)) (Number.Math_min (Number.of_Z 1) x) in
    Number.ToInt16 (if Number.lt s (Number.of_Z 0)
                    then Number.mul s (Number.of_Z 0x8000)
                    else Number.mul s (Number.of_Z 0x7FFF))).
  change (for_loop (length data) 0 _ (replicate (length data) 0%Z))
    with (for_loop (length data) 0
            (fun i acc => <[ i := f (default Number.NaN (data !! i)) ]> acc)
            (replicate (length data) 0%Z)).
  rewrite for_loop_store by (rewrite ?length_replicate; lia).
  rewrite take_0, drop_0, app_nil_l.
  rewrite (map_ext f pcm16) by (intros x; apply sample_pcm16).
  rewrite Uint8Array_of_buffer_map.
  rewrite for_loop_append by lia.
  rewrite drop_0, firstn_all, app_nil_l.
  unfold btoa. now rewrite int16_le_bytes.
Qed.

End Audio.

(** ** The writers of the history *)

Section Writers.

(** What [setTranscriptHistory] changes: the history, on React's eager
    path, or else the queue; and the mark that an update is pending. *)
Lemma setTranscriptHistory_history (u : Updater) (s : State) :
  transcriptHistory (setTranscriptHistory u s)
  = transcriptHistory s ++
    (if updatePending (scheduler s) then [] else [entry_of u s]).
Proof.
  unfold setTranscriptHistory.
  destruct (updatePending (scheduler s)); cbn; now rewrite ?app_nil_r.
Qed.

Lemma setTranscriptHistory_queue (u : Updater) (s : State) :
  updateQueue (scheduler (setTranscriptHistory u s))
  = updateQueue (scheduler s) ++
    (if updatePending (scheduler s) then [u] else []).
Proof.
  unfold setTranscriptHistory.
  destruct (updatePending (scheduler s)); cbn; now rewrite ?app_nil_r.
Qed.

Lemma setTranscriptHistory_pending (u : Updater) (s : State) :
  updatePending (scheduler (setTranscriptHistory u s)) = true.
Proof.
  unfold setTranscriptHistory.
  destruct (updatePending (scheduler s)) eqn:E; cbn; [exact E|reflexivity].
Qed.

Lemma setTranscriptHistory_frame (u : Updater) (s : State) :
  let s' := setTranscriptHistory u s in
  connectionState s' = connectionState s
  /\ debounceTimerRef s' = debounceTimerRef s
  /\ currentInputRef s' = currentInputRef s
  /\ currentOutputRef s' = currentOutputRef s
  /\ liveInputText s' = liveInputText s
  /\ liveOutputText s' = liveOutputText s
  /\ showPasteInput s' = showPasteInput s
  /\ pastedText s' = pastedText s
  /\ liveService s' = liveService s
  /\ browser s' = browser s
  /\ awaiting (scheduler s') = awaiting (scheduler s).
Proof.
  cbv zeta. unfold setTranscriptHistory.
  destruct (updatePending (scheduler s)); repeat split.
Qed.

Lemma setTranscriptHistory_browser (u : Updater) (s : State) :
  browser (setTranscriptHistory u s) = browser s.
Proof. apply (setTranscriptHistory_frame u s). Qed.

Lemma setTranscriptHistory_debounceTimerRef (u : Updater) (s : State) :
  debounceTimerRef (setTranscriptHistory u s) = debounceTimerRef s.
Proof. apply (setTranscriptHistory_frame u s). Qed.

Lemma setTranscriptHistory_currentInputRef (u : Updater) (s : State) :
  currentInputRef (setTranscriptHistory u s) = currentInputRef s.
Proof. apply (setTranscriptHistory_frame u s). Qed.

Lemma setTranscriptHistory_currentOutputRef (u : Updater) (s : State) :
  currentOutputRef (setTranscriptHistory u s) = currentOutputRef s.
Proof. apply (setTranscriptHistory_frame u s). Qed.

Lemma setTranscriptHistory_liveInputText (u : Updater) (s : State) :
  liveInputText (setTranscriptHistory u s) = liveInputText s.
Proof. apply (setTranscriptHistory_frame u s). Qed.

Lemma setTranscriptHistory_liveOutputText (u : Updater) (s : State) :
  liveOutputText (setTranscriptHistory u s) = liveOutputText s.
Proof. apply (setTranscriptHistory_frame u s). Qed.

Lemma setTranscriptHistory_liveService (u : Updater) (s : State) :
  liveService (setTranscriptHistory u s) = liveService s.
Proof. apply (setTranscriptHistory_frame u s). Qed.

Lemma setTranscriptHistory_connectionState (u : Updater) (s : State) :
  connectionState (setTranscriptHistory u s) = connectionState s.
Proof. apply (setTranscriptHistory_frame u s). Qed.

Lemma setTranscriptHistory_awaiting (u : Updater) (s : State) :
  awaiting (scheduler (setTranscriptHistory u s)) = awaiting (scheduler s).
Proof. apply (setTranscriptHistory_frame u s). Qed.

Lemma commitInputToHistory_history (s : State) :
  transcriptHistory (commitInputToHistory s)
  = transcriptHistory s ++
    (if truthy (trim (currentInputRef s)) && negb (updatePending (scheduler s))
     then [entry_of AppendUser s]
     else []).
Proof.
  unfold commitInputToHistory, setTranscriptHistory.
  destruct (debounceTimerRef s); cbn;
    destruct (truthy (trim (currentInputRef s))); cbn;
    destruct (updatePending (scheduler s)); cbn;
    now rewrite ?app_nil_r.
Qed.

Lemma commitInputToHistory_queue (s : State) :
  updateQueue (scheduler (commitInputToHistory s))
  = updateQueue (scheduler s) ++
    (if truthy (trim (currentInputRef s)) && updatePending (scheduler s)
     then [AppendUser]
     else []).
Proof.
  unfold commitInputToHistory, setTranscriptHistory.
  destruct (debounceTimerRef s); cbn;
    destruct (truthy (trim (currentInputRef s))); cbn;
    destruct (updatePending (scheduler s)); cbn;
    now rewrite ?app_nil_r.
Qed.

Lemma commitInputToHistory_pending (s : State) :
  updatePending (scheduler (commitInputToHistory s))
  = updatePending (scheduler s) || truthy (trim (currentInputRef s)).
Proof.
  unfold commitInputToHistory, setTranscriptHistory.
  destruct (debounceTimerRef s); cbn;
    destruct (truthy (trim (currentInputRef s))); cbn;
    destruct (updatePending (scheduler s)) eqn:E; cbn; rewrite ?E; reflexivity.
Qed.

Lemma commitInputToHistory_buffer (s : State) :
  currentInputRef (commitInputToHistory s)
  = if truthy (trim (currentInputRef s)) then [] else currentInputRef s.
Proof.
  unfold commitInputToHistory, setTranscriptHistory.
  destruct (debounceTimerRef s); cbn;
    destruct (truthy (trim (currentInputRef s))); cbn;
    destruct (updatePending (scheduler s)); reflexivity.
Qed.

Lemma commitInputToHistory_timers (s : State) :
  timers (browser (commitInputToHistory s))
  = match debounceTimerRef s with
    | Some t => List.filter (fun p => negb (Pos.eqb (fst p) t)) (timers (browser s))
    | None => timers (browser s)
    end.
Proof.
  unfold commitInputToHistory, setTranscriptHistory.
  destruct (debounceTimerRef s); cbn;
    destruct (truthy (trim (currentInputRef s))); cbn;
    destruct (updatePending (scheduler s)); reflexivity.
Qed.

Lemma commitInputToHistory_frame (s : State) :
  let s' := commitInputToHistory s in
  connectionState s' = connectionState s
  /\ debounceTimerRef s' = debounceTimerRef s
  /\ currentOutputRef s' = currentOutputRef s
  /\ liveOutputText s' = liveOutputText s
  /\ liveService s' = liveService s
  /\ now (browser s') = now (browser s)
  /\ nextTimer (browser s') = nextTimer (browser s).
Proof.
  cbv zeta. unfold commitInputToHistory, setTranscriptHistory.
  destruct (debounceTimerRef s) eqn:E; cbn;
    destruct (truthy (trim (currentInputRef s))); cbn;
    destruct (updatePending (scheduler s)); cbn; repeat split;
    now rewrite ?E.
Qed.

Lemma commitInputToHistory_awaiting (s : State) :
  awaiting (scheduler (commitInputToHistory s)) = awaiting (scheduler s).
Proof.
  unfold commitInputToHistory, setTranscriptHistory.
  destruct (debounceTimerRef s); cbn;
    destruct (truthy (trim (currentInputRef s))); cbn;
    destruct (updatePending (scheduler s)); reflexivity.
Qed.

Lemma onInputTranscription_history (c : option ServerContent) (s : State) :
  transcriptHistory (onInputTranscription c s) = transcriptHistory s.
Proof.
  unfold onInputTranscription.
  destruct c as [[[[[txt|]]|] o tc]|]; try reflexivity.
  destruct (truthy txt); [|reflexivity].
  cbn. destruct (debounceTimerRef s); reflexivity.
Qed.

Lemma onInputTranscription_scheduler (c : option ServerContent) (s : State) :
  scheduler (onInputTranscription c s) = scheduler s.
Proof.
  unfold onInputTranscription.
  destruct c as [[[[[txt|]]|] o tc]|]; try reflexivity.
  destruct (truthy txt); [|reflexivity].
  cbn. destruct (debounceTimerRef s); reflexivity.
Qed.

Lemma onOutputTranscription_history (c : option ServerContent) (s : State) :
  transcriptHistory (onOutputTranscription c s) = transcriptHistory s.
Proof.
  unfold onOutputTranscription.
  destruct c as [[i [[[txt|]]|] tc]|]; try reflexivity.
  destruct (truthy txt); reflexivity.
Qed.

Lemma onOutputTranscription_scheduler (c : option ServerContent) (s : State) :
  scheduler (onOutputTranscription c s) = scheduler s.
Proof.
  unfold onOutputTranscription.
  destruct c as [[i [[[txt|]]|] tc]|]; try reflexivity.
  destruct (truthy txt); reflexivity.
Qed.

(** The [turnComplete] block dispatches the human update, if the human
    text is not blank, and then the agent update, if the agent text is not
    blank.  Only the first update dispatched, and only when none was
    pending, is computed at once. *)
Lemma onTurnComplete_history (c : ServerContent) (s : State) :
  turnComplete c = Some true ->
  transcriptHistory (onTurnComplete (Some c) s)
  = transcriptHistory s ++
    (if truthy (trim (currentInputRef s)) && negb (updatePending (scheduler s))
     then [entry_of AppendUser s]
     else []) ++
    (if truthy (trim (currentOutputRef s))
        && negb (updatePending (scheduler s) || truthy (trim (currentInputRef s)))
     then [entry_of AppendAgent s]
     else []).
Proof.
  intros Htc. destruct c as [i o tc]. cbn in Htc. subst tc.
  unfold onTurnComplete. cbv zeta.
  destruct (commitInputToHistory_frame s) as (_ & _ & Ho & _ & _ & Hn & _).
  cbv zeta in Ho, Hn. rewrite Ho.
  destruct (truthy (trim (currentOutputRef s))); cbn [andb].
  - cbn. rewrite setTranscriptHistory_history, commitInputToHistory_pending,
      commitInputToHistory_history, <- app_assoc.
    do 2 f_equal.
    destruct (updatePending (scheduler s) || truthy (trim (currentInputRef s)));
      [reflexivity|].
    cbn. unfold entry_of. now rewrite Hn, Ho.
  - now rewrite commitInputToHistory_history, app_nil_r.
Qed.

Lemma onTurnComplete_queue (c : ServerContent) (s : State) :
  turnComplete c = Some true ->
  updateQueue (scheduler (onTurnComplete (Some c) s))
  = updateQueue (scheduler s) ++
    (if truthy (trim (currentInputRef s)) && updatePending (scheduler s)
     then [AppendUser]
     else []) ++
    (if truthy (trim (currentOutputRef s))
        && (updatePending (scheduler s) || truthy (trim (currentInputRef s)))
     then [AppendAgent]
     else []).
Proof.
  intros Htc. destruct c as [i o tc]. cbn in Htc. subst tc.
  unfold onTurnComplete. cbv zeta.
  destruct (commitInputToHistory_frame s) as (_ & _ & Ho & _ & _ & Hn & _).
  cbv zeta in Ho, Hn. rewrite Ho.
  destruct (truthy (trim (currentOutputRef s))); cbn [andb].
  - cbn. rewrite setTranscriptHistory_queue, commitInputToHistory_pending,
      commitInputToHistory_queue, <- app_assoc.
    reflexivity.
  - now rewrite commitInputToHistory_queue, app_nil_r.
Qed.

Lemma handleManualSubmit_history (s : State) :
  transcriptHistory (handleManualSubmit s)
  = transcriptHistory s ++
    (if truthy (trim (pastedText s)) && negb (updatePending (scheduler s))
     then [entry_of (AppendManual (pastedText s)) s]
     else []).
Proof.
  unfold handleManualSubmit, setTranscriptHistory.
  destruct (truthy (trim (pastedText s))); cbn;
    destruct (updatePending (scheduler s)); cbn; now rewrite ?app_nil_r.
Qed.

Lemma render_history (s : State) :
  transcriptHistory (render s)
  = transcriptHistory s ++ map (fun u => entry_of u s) (updateQueue (scheduler s)).
Proof.
  unfold render. cbn.
  generalize (transcriptHistory s).
  induction (updateQueue (scheduler s)) as [|u q IH]; intros h; cbn.
  - now rewrite app_nil_r.
  - rewrite IH. unfold call. now rewrite <- app_assoc.
Qed.

End Writers.

Ltac updates :=
  rewrite ?setTranscriptHistory_browser, ?setTranscriptHistory_debounceTimerRef,
    ?setTranscriptHistory_currentInputRef, ?setTranscriptHistory_currentOutputRef,
    ?setTranscriptHistory_liveInputText, ?setTranscriptHistory_liveOutputText,
    ?setTranscriptHistory_liveService, ?setTranscriptHistory_connectionState,
    ?setTranscriptHistory_awaiting in *.

(** ** What the other handlers leave alone *)

Section Frame.

Ltac frame :=
  unfold same_transcript; cbn; repeat split; reflexivity.

Lemma same_transcript_refl (s : State) : same_transcript s s.
Proof. frame. Qed.

Lemma same_transcript_trans (s1 s2 s3 : State) :
  same_transcript s1 s2 -> same_transcript s2 s3 -> same_transcript s1 s3.
Proof.
  unfold same_transcript.
  intros (A1 & A2 & A3 & A4 & A5 & A6 & A7 & A8 & A9 & A10 & A11 & A12)
         (B1 & B2 & B3 & B4 & B5 & B6 & B7 & B8 & B9 & B10 & B11 & B12).
  repeat split; congruence.
Qed.

Lemma setConnectionState_same (v : ConnectionState) (s : State) :
  same_transcript s (setConnectionState v s).
Proof. frame. Qed.

Lemma onError_same (s : State) : same_transcript s (onError s).
Proof. frame. Qed.

Lemma onClose_same (s : State) : same_transcript s (onClose s).
Proof. frame. Qed.

Lemma send_same (o : Outbound) (s : State) :
  same_transcript s (set_browser (send o (liveService s) (browser s)) s).
Proof. unfold send. destruct (sessionPromise (liveService s)) as [[h|h|h]|]; frame. Qed.

Lemma onOpen_same (s : State) : same_transcript s (onOpen s).
Proof.
  unfold onOpen, sendText.
  eapply same_transcript_trans; [apply (setConnectionState_same CONNECTED)|].
  apply send_same.
Qed.

Lemma handleConnect_same (s : State) : same_transcript s (handleConnect s).
Proof. frame. Qed.

Lemma handleConnect_catch_same (s : State) : same_transcript s (handleConnect_catch s).
Proof. frame. Qed.

Lemma startAudioStream_same (s : State) : same_transcript s (startAudioStream s).
Proof. frame. Qed.

Lemma startAudioStream_granted_same (s : State) :
  same_transcript s (startAudioStream_granted s).
Proof. frame. Qed.

Lemma answer_mic_same (s : State) : same_transcript s (answer_mic s).
Proof. frame. Qed.

Lemma drop_transport_same (h : nat) (s : State) : same_transcript s (drop_transport h s).
Proof. frame. Qed.

Lemma settle_same (h : nat) (f : bool) (s : State) : same_transcript s (settle h f s).
Proof.
  unfold settle. cbn.
  destruct (sessionPromise (liveService s)) as [[h'|h'|h']|]; try frame.
  destruct (Nat.eqb h h'); frame.
Qed.

Lemma onaudioprocess_same (d : Float32Array) (s : State) :
  same_transcript s (onaudioprocess d s).
Proof.
  unfold onaudioprocess. destruct (createBlob d); [apply send_same|frame].
Qed.

Lemma LiveApiService_disconnect_browser (l : LiveApiService) (b : Browser) :
  let b' := snd (match LiveApiService_disconnect l b with
                 | Returned r | Threw r | Suspended r => r end) in
  timers b' = timers b /\ nextTimer b' = nextTimer b /\ now b' = now b.
Proof.
  unfold LiveApiService_disconnect.
  destruct l as [[[h|h|h]|] [ctx|] [ms|] pr so]; cbn; repeat split.
Qed.

End Frame.

(** ** Invariants of the session *)

Section Invariants.

Lemma same_transcript_timers_ok (s s' : State) :
  same_transcript s s' -> timers_ok s -> timers_ok s'.
Proof.
  intros (_ & _ & _ & _ & _ & Hr & Ht & _) Hok p Hp.
  rewrite Hr. apply Hok. now rewrite <- Ht.
Qed.

Lemma clearTimeout_timers_ok (t : TimerId) (s : State) :
  timers_ok s -> timers_ok (set_browser (clearTimeout t (browser s)) s).
Proof.
  intros Hok p Hp. cbn in *. apply filter_In in Hp. now apply Hok.
Qed.

Lemma commitInputToHistory_timers_ok (s : State) :
  timers_ok s -> timers_ok (commitInputToHistory s).
Proof.
  intros Hok p Hp.
  destruct (commitInputToHistory_frame s) as (_ & Hr & _). cbv zeta in Hr.
  rewrite Hr. apply Hok. rewrite commitInputToHistory_timers in Hp.
  destruct (debounceTimerRef s); [apply filter_In in Hp; tauto|exact Hp].
Qed.

(** Under [timers_ok], clearing the timer of the ref leaves none pending. *)
Lemma clear_ref_timers (s : State) (t : TimerId) :
  timers_ok s -> debounceTimerRef s = Some t ->
  List.filter (fun p => negb (Pos.eqb (fst p) t)) (timers (browser s)) = [].
Proof.
  intros Hok Hr.
  assert (H : forall p, In p (timers (browser s)) -> fst p = t).
  { intros p Hp. specialize (Hok p Hp). congruence. }
  induction (timers (browser s)) as [|p l IH]; [reflexivity|].
  cbn. rewrite (H p) by now left. rewrite Pos.eqb_refl. cbn.
  apply IH. intros q Hq. apply H. now right.
Qed.

Lemma timers_ok_no_ref (s : State) :
  timers_ok s -> debounceTimerRef s = None -> timers (browser s) = [].
Proof.
  intros Hok Hr. destruct (timers (browser s)) as [|p l] eqn:E; [reflexivity|].
  specialize (Hok p). rewrite E in Hok. specialize (Hok (or_introl eq_refl)).
  congruence.
Qed.

(** A non-empty human delta: the text is appended, and the one pending
    timer is the new one, due a quiet period from now. *)
Lemma onInputTranscription_delta (c : ServerContent) (s : State) :
  delta (inputTranscription c) <> [] ->
  timers_ok s ->
  let s' := onInputTranscription (Some c) s in
  currentInputRef s' = currentInputRef s ++ delta (inputTranscription c)
  /\ debounceTimerRef s' = Some (nextTimer (browser s))
  /\ timers (browser s') = [(nextTimer (browser s), now (browser s) + 1500)]
  /\ now (browser s') = now (browser s)
  /\ transcriptHistory s' = transcriptHistory s
  /\ currentOutputRef s' = currentOutputRef s.
Proof.
  intros Hd Hok. cbv zeta. unfold onInputTranscription.
  destruct c as [[[[txt|]]|] o tc]; cbn in Hd; try congruence.
  apply truthy_true in Hd. rewrite Hd. cbn.
  destruct (debounceTimerRef s) as [t|] eqn:Hr; cbn.
  - rewrite (clear_ref_timers s t Hok Hr). repeat split.
  - rewrite (timers_ok_no_ref s Hok Hr). repeat split.
Qed.

Lemma onInputTranscription_buffer (c : option ServerContent) (s : State) :
  currentInputRef (onInputTranscription c s)
  = currentInputRef s ++ delta (match c with Some c => inputTranscription c | None => None end).
Proof.
  unfold onInputTranscription.
  destruct c as [[[[[txt|]]|] o tc]|]; cbn; rewrite ?app_nil_r; try reflexivity.
  destruct (truthy txt) eqn:E.
  - cbn. destruct (debounceTimerRef s); reflexivity.
  - apply truthy_false in E. subst. now rewrite app_nil_r.
Qed.

Lemma onOutputTranscription_buffer (c : option ServerContent) (s : State) :
  currentOutputRef (onOutputTranscription c s)
  = currentOutputRef s ++ delta (match c with Some c => outputTranscription c | None => None end).
Proof.
  unfold onOutputTranscription.
  destruct c as [[i [[[txt|]]|] tc]|]; cbn; rewrite ?app_nil_r; try reflexivity.
  destruct (truthy txt) eqn:E.
  - reflexivity.
  - apply truthy_false in E. subst. now rewrite app_nil_r.
Qed.

(** The agent block reads and writes nothing of the human channel. *)
Lemma onOutputTranscription_frame (c : option ServerContent) (s : State) :
  let s' := onOutputTranscription c s in
  transcriptHistory s' = transcriptHistory s
  /\ currentInputRef s' = currentInputRef s
  /\ liveInputText s' = liveInputText s
  /\ debounceTimerRef s' = debounceTimerRef s
  /\ browser s' = browser s
  /\ connectionState s' = connectionState s
  /\ liveService s' = liveService s.
Proof.
  cbv zeta. unfold onOutputTranscription.
  destruct c as [[i [[[txt|]]|] tc]|]; try (repeat split; fail).
  destruct (truthy txt); repeat split.
Qed.

Lemma onInputTranscription_timers_ok (c : option ServerContent) (s : State) :
  timers_ok s -> timers_ok (onInputTranscription c s).
Proof.
  intros Hok.
  destruct c as [c|]; [|exact Hok].
  destruct (delta (inputTranscription c)) as [|a r] eqn:Hd.
  - unfold onInputTranscription.
    destruct c as [[[[txt|]]|] o tc]; try exact Hok.
    cbn in Hd. subst txt. exact Hok.
  - destruct (onInputTranscription_delta c s) as (_ & Hr & Ht & _);
      [rewrite Hd; discriminate|exact Hok|].
    intros p Hp. rewrite Ht in Hp. destruct Hp as [<-|[]]. exact Hr.
Qed.

Lemma onTurnComplete_timers_ok (c : option ServerContent) (s : State) :
  timers_ok s -> timers_ok (onTurnComplete c s).
Proof.
  intros Hok. unfold onTurnComplete.
  destruct c as [[i o [[|]|]]|]; try exact Hok.
  cbv zeta. pose proof (commitInputToHistory_timers_ok s Hok) as Hc.
  destruct (truthy (trim (currentOutputRef (commitInputToHistory s)))); [|exact Hc].
  intros p Hp. cbn in *. updates. now apply Hc.
Qed.

Lemma onMessage_timers_ok (msg : LiveServerMessage) (s : State) :
  timers_ok s -> timers_ok (onMessage msg s).
Proof.
  intros Hok. unfold onMessage. apply onTurnComplete_timers_ok.
  pose proof (onInputTranscription_timers_ok (serverContent msg) s Hok) as Hi.
  destruct (onOutputTranscription_frame (serverContent msg)
              (onInputTranscription (serverContent msg) s))
    as (_ & _ & _ & Hr & Hb & _).
  cbv zeta in Hr, Hb. intros p Hp. rewrite Hr. apply Hi. now rewrite <- Hb.
Qed.

Lemma run_timers_timers_ok (fuel : nat) (target : N) :
  forall s, timers_ok s -> timers_ok (run_timers fuel target s).
Proof.
  induction fuel as [|fuel IH]; intros s H; cbn; [exact H|].
  destruct (earliest_due target (timers (browser s))) as [[t d]|]; [|exact H].
  apply IH. apply commitInputToHistory_timers_ok.
  intros p Hp. cbn in *. apply filter_In in Hp. now apply H.
Qed.

Lemma handleDisconnect_resume_timers_ok (s : State) :
  timers_ok s -> timers_ok (handleDisconnect_resume s).
Proof.
  intros H. unfold handleDisconnect_resume.
  pose proof (commitInputToHistory_timers_ok (setConnectionState DISCONNECTED s) H) as Hc.
  intros p Hp. cbn in *. now apply Hc.
Qed.

(** [handleDisconnect] first runs the service's disconnect, which touches
    nothing of the transcript, and goes on only if that returned. *)
Lemma handleDisconnect_cases (s : State) :
  exists s0, same_transcript s s0
    /\ connectionState s0 = connectionState s
    /\ (handleDisconnect s = Returned (handleDisconnect_resume s0)
        \/ handleDisconnect s = Threw s0
        \/ handleDisconnect s = Suspended s0).
Proof.
  unfold handleDisconnect.
  pose proof (LiveApiService_disconnect_browser (liveService s) (browser s)) as H.
  destruct (LiveApiService_disconnect (liveService s) (browser s)) as [[l b]|[l b]|[l b]];
    cbn in H; destruct H as (Ht & Hn & Hw);
    exists (set_browser b (set_liveService l s));
    (split; [unfold same_transcript; cbn; repeat split; assumption|]);
    (split; [reflexivity|]); auto.
Qed.

(** *** The steps of [handleDisconnect] *)

Lemma wait_for_same (a : Awaited) (s : State) : same_transcript s (wait_for a s).
Proof. unfold same_transcript. cbn. repeat split. Qed.

Lemma stop_waiting_same (a : Awaited) (s : State) : same_transcript s (stop_waiting a s).
Proof. unfold same_transcript. cbn. repeat split. Qed.

(** From the session promise on, a call either stops there (it throws, or
    it waits), or runs its last part on a state with the same transcript. *)
Lemma handleDisconnect_session_cases (s : State) :
  same_transcript s (handleDisconnect_session s)
  \/ exists s0, same_transcript s s0
                /\ handleDisconnect_session s = handleDisconnect_resume s0.
Proof.
  unfold handleDisconnect_session.
  destruct (sessionPromise (liveService s)) as [[h|h|h]|].
  - left. apply wait_for_same.
  - right. eexists. split; [|reflexivity]. unfold same_transcript. cbn. repeat split.
  - left. apply same_transcript_refl.
  - right. exists s. split; [apply same_transcript_refl|reflexivity].
Qed.

Lemma handleDisconnect_call_cases (s : State) :
  same_transcript s (handleDisconnect_call s)
  \/ exists s0, same_transcript s s0
                /\ handleDisconnect_call s = handleDisconnect_resume s0.
Proof.
  unfold handleDisconnect_call.
  set (s1 := match mediaStream (liveService s) with
             | Some ms => _
             | None => s
             end).
  assert (H1 : same_transcript s s1).
  { unfold s1. destruct (mediaStream (liveService s));
      unfold same_transcript; cbn; repeat split. }
  clearbody s1.
  destruct (inputAudioContext (liveService s1)) as [ctx|].
  - left. destruct (existsb (Nat.eqb ctx) (contexts (browser s1))); [|exact H1].
    eapply same_transcript_trans; [exact H1|].
    unfold same_transcript. cbn. repeat split.
  - destruct (handleDisconnect_session_cases s1) as [H|(s0 & H & E)].
    + left. eapply same_transcript_trans; eassumption.
    + right. exists s0. split; [|exact E].
      eapply same_transcript_trans; eassumption.
Qed.

Lemma handleDisconnect_closed_cases (s : State) :
  same_transcript s (handleDisconnect_closed s)
  \/ exists s0, same_transcript s s0
                /\ handleDisconnect_closed s = handleDisconnect_resume s0.
Proof.
  unfold handleDisconnect_closed.
  set (s1 := set_liveService _ s).
  assert (H1 : same_transcript s s1) by (unfold same_transcript; cbn; repeat split).
  clearbody s1.
  destruct (handleDisconnect_session_cases s1) as [H|(s0 & H & E)].
  - left. eapply same_transcript_trans; eassumption.
  - right. exists s0. split; [|exact E].
    eapply same_transcript_trans; eassumption.
Qed.

Lemma handleDisconnect_fulfilled_cases (h : nat) (s : State) :
  exists s0, same_transcript s s0
             /\ handleDisconnect_fulfilled h s = handleDisconnect_resume s0.
Proof.
  eexists. split; [|reflexivity]. unfold same_transcript. cbn. repeat split.
Qed.

(** *** Properties that every step keeps *)

Lemma resume_all_preserves (P : State -> Prop) (a : Awaited) (k : State -> State) :
  (forall s s', same_transcript s s' -> P s -> P s') ->
  (forall s, P s -> P (k s)) ->
  forall s, P s -> P (resume_all a k s).
Proof.
  intros Hsame Hk s H. unfold resume_all.
  assert (H0 : P (stop_waiting a s)) by exact (Hsame _ _ (stop_waiting_same a s) H).
  revert H0. generalize (stop_waiting a s).
  induction (List.filter (is_awaited a) (awaiting (scheduler s))) as [|x l IH];
    intros st Hst; cbn; [exact Hst|].
  apply IH. now apply Hk.
Qed.

(** A property of the transcript side of the state that the writers and
    React keep is kept by every step but those that bring text in: a
    message and the typing in the paste area. *)
Lemma step_preserves_but (P : State -> Prop) :
  (forall s s', same_transcript s s' -> P s -> P s') ->
  (forall s, P s -> P (handleManualSubmit s)) ->
  (forall s, P s -> P (handleDisconnect_resume s)) ->
  (forall d s, P s -> P (elapse d s)) ->
  (forall s, P s -> P (render s)) ->
  (forall s, P s -> P (set_scheduler (set_updatePending true (scheduler s)) s)) ->
  forall s e,
    match e with Message _ | TypePaste _ => False | _ => True end ->
    P s -> P (step s e).
Proof.
  intros Hsame Hman Hres Hel Hren Hmark s e He H.
  assert (Hmsg : forall msg st, Message msg = e -> P st -> P (onMessage msg st))
    by (intros msg st <-; contradiction).
  assert (Htype : forall v st, TypePaste v = e -> P st -> P (setPastedText v st))
    by (intros v st <-; contradiction).
  clear He. revert Hmsg Htype.
  destruct e; intros Hmsg Htype; cbn [step].
  - destruct (connectionState s); try exact H.
    all: exact (Hsame _ _ (handleConnect_same s) H).
  - destruct (connectionState s); try exact H.
    destruct (handleDisconnect_call_cases s) as [Hs|(s0 & Hs & E)].
    + exact (Hsame _ _ Hs H).
    + rewrite E. apply Hres. exact (Hsame _ _ Hs H).
  - refine (Hsame s _ _ H). unfold same_transcript. cbn. repeat split.
  - destruct (showPasteInput s); [|exact H]. now apply (Htype v).
  - destruct (showPasteInput s && truthy (trim (pastedText s))); [|exact H].
    now apply Hman.
  - destruct (mem h (connecting (browser s))); [|exact H].
    apply resume_all_preserves; [exact Hsame| |].
    + intros st Hst.
      destruct (handleDisconnect_fulfilled_cases h st) as (s0 & Hs & E).
      rewrite E. apply Hres. exact (Hsame _ _ Hs Hst).
    + refine (Hsame s _ _ H).
      eapply same_transcript_trans; [apply onOpen_same|].
      eapply same_transcript_trans; [apply startAudioStream_same|apply settle_same].
  - destruct (mem h (connecting (browser s))); [|exact H].
    refine (Hsame s _ _ H).
    eapply same_transcript_trans; [apply settle_same|].
    eapply same_transcript_trans; [apply drop_transport_same|].
    eapply same_transcript_trans; [apply handleConnect_catch_same|].
    apply stop_waiting_same.
  - destruct (Nat.ltb 0 (micRequests (browser s))); [|exact H].
    refine (Hsame s _ _ H).
    eapply same_transcript_trans; [apply answer_mic_same|apply startAudioStream_granted_same].
  - destruct (Nat.ltb 0 (micRequests (browser s))); [|exact H].
    refine (Hsame s _ _ H).
    eapply same_transcript_trans; [apply answer_mic_same|apply onError_same].
  - now apply (Hmsg msg).
  - exact (Hsame _ _ (onError_same s) H).
  - refine (Hsame s _ _ H).
    eapply same_transcript_trans; [apply drop_transport_same|apply onClose_same].
  - destruct (mem ctx (contexts (browser s))); [|exact H].
    exact (Hsame _ _ (onaudioprocess_same inputData s) H).
  - now apply Hel.
  - apply resume_all_preserves; [exact Hsame| |exact H].
    intros st Hst.
    destruct (handleDisconnect_closed_cases st) as [Hs|(s0 & Hs & E)].
    + exact (Hsame _ _ Hs Hst).
    + rewrite E. apply Hres. exact (Hsame _ _ Hs Hst).
  - now apply Hren.
  - now apply Hmark.
Qed.

(** With the two steps that bring text in, every step. *)
Lemma step_preserves (P : State -> Prop) :
  (forall s s', same_transcript s s' -> P s -> P s') ->
  (forall msg s, P s -> P (onMessage msg s)) ->
  (forall v s, P s -> P (setPastedText v s)) ->
  (forall s, P s -> P (handleManualSubmit s)) ->
  (forall s, P s -> P (handleDisconnect_resume s)) ->
  (forall d s, P s -> P (elapse d s)) ->
  (forall s, P s -> P (render s)) ->
  (forall s, P s -> P (set_scheduler (set_updatePending true (scheduler s)) s)) ->
  forall s e, P s -> P (step s e).
Proof.
  intros Hsame Hmsg Htype Hman Hres Hel Hren Hmark s e H.
  destruct e;
    try (apply step_preserves_but; [assumption..|exact I|exact H]).
  - cbn [step]. destruct (showPasteInput s); [|exact H]. now apply Htype.
  - cbn [step]. now apply Hmsg.
Qed.

Lemma run_preserves (P : State -> Prop) :
  (forall s e, P s -> P (step s e)) ->
  forall evs s, P s -> P (run s evs).
Proof.
  intros Hstep evs. induction evs as [|e evs IH]; intros s H; [exact H|].
  apply IH. now apply Hstep.
Qed.

Lemma handleManualSubmit_timers_ok (s : State) :
  timers_ok s -> timers_ok (handleManualSubmit s).
Proof.
  intros H. unfold handleManualSubmit.
  destruct (truthy (trim (pastedText s))); [|exact H].
  intros p Hp. cbn in *. updates. now apply H.
Qed.

Lemma step_timers_ok (s : State) (e : Event) :
  timers_ok s -> timers_ok (step s e).
Proof.
  apply step_preserves; clear s e.
  - exact same_transcript_timers_ok.
  - exact onMessage_timers_ok.
  - intros v s H. exact H.
  - exact handleManualSubmit_timers_ok.
  - exact handleDisconnect_resume_timers_ok.
  - intros d s H. unfold elapse.
    pose proof (run_timers_timers_ok (length (timers (browser s)))
                  (now (browser s) + d) s H) as Hr.
    intros p Hp. cbn in *. now apply Hr.
  - intros s H p Hp. cbn in *. now apply H.
  - intros s H p Hp. cbn in *. now apply H.
Qed.

Lemma run_timers_ok (evs : list Event) :
  forall s, timers_ok s -> timers_ok (run s evs).
Proof.
  induction evs as [|e evs IH]; intros s H; [exact H|].
  apply IH. now apply step_timers_ok.
Qed.

Lemma init_timers_ok : timers_ok init.
Proof. intros p []. Qed.

End Invariants.

(** ** One round for each pending timer is enough *)

Section Fuel.

Lemma earliest_due_In (target : N) (ts : list (TimerId * N)) (p : TimerId * N) :
  earliest_due target ts = Some p -> In p ts /\ snd p <= target.
Proof.
  revert p. induction ts as [|q ts IH]; intros p H; cbn in H; [discriminate|].
  destruct (earliest_due target ts) as [r|].
  - destruct (IH r eq_refl) as (Hr & Hle).
    destruct ((snd q <=? target) && (snd q <=? snd r)) eqn:E; injection H as <-.
    + apply andb_prop in E. destruct E as (E & _). apply N.leb_le in E.
      split; [now left|exact E].
    + split; [now right|exact Hle].
  - destruct (N.leb_spec (snd q) target); [|discriminate].
    injection H as <-. split; [now left|assumption].
Qed.

Lemma filter_length_lt (t : TimerId) (ts : list (TimerId * N)) (p : TimerId * N) :
  In p ts -> fst p = t ->
  (length (List.filter (fun q => negb (Pos.eqb (fst q) t)) ts) < length ts)%nat.
Proof.
  intros Hin Ht. induction ts as [|q ts IH]; [destruct Hin|]. cbn.
  pose proof (filter_length_le (fun q => negb (Pos.eqb (fst q) t)) ts) as Hle.
  destruct Hin as [->|Hin].
  - rewrite Ht, Pos.eqb_refl. cbn. lia.
  - specialize (IH Hin). destruct (negb (Pos.eqb (fst q) t)); cbn; lia.
Qed.

Lemma commitInputToHistory_timers_length (s : State) :
  (length (timers (browser (commitInputToHistory s))) <= length (timers (browser s)))%nat.
Proof.
  rewrite commitInputToHistory_timers.
  destruct (debounceTimerRef s); [apply filter_length_le|reflexivity].
Qed.

(** When [elapse] has run, no pending timer is due. *)
Lemma run_timers_complete (fuel : nat) (target : N) :
  forall s, (length (timers (browser s)) <= fuel)%nat ->
            earliest_due target (timers (browser (run_timers fuel target s))) = None.
Proof.
  induction fuel as [|fuel IH]; intros s Hlen; cbn.
  - destruct (timers (browser s)); [reflexivity|cbn in Hlen; lia].
  - destruct (earliest_due target (timers (browser s))) as [[t d]|] eqn:E; [|exact E].
    apply IH.
    destruct (earliest_due_In _ _ _ E) as (Hin & _).
    pose proof (filter_length_lt t _ _ Hin eq_refl) as Hlt.
    etransitivity; [apply commitInputToHistory_timers_length|]. cbn. lia.
Qed.

Lemma elapse_complete (d : N) (s : State) :
  earliest_due (now (browser s) + d) (timers (browser (elapse d s))) = None.
Proof. unfold elapse. cbn. now apply run_timers_complete. Qed.

(** The two scalings of [createBlob] are exact in double precision for
    every sample a [Float32Array] can hold: the product has a significand
    of less than 53 bits. *)
Lemma scaling_exact (m e : Z) :
  is_float32 (Number.Finite m e) ->
  (Z.abs (m * 32768) < 2 ^ 53 /\ Z.abs (m * 32767) < 2 ^ 53)%Z.
Proof.
  intros (Hm & _). change (2 ^ 24)%Z with 16777216%Z in Hm.
  change (2 ^ 53)%Z with 9007199254740992%Z. lia.
Qed.

(** Every sample is encoded within the range of a signed 16-bit integer,
    full scale at the two ends. *)
Lemma pcm16_range (x : Number.t) : (-32768 <= pcm16 x <= 32767)%Z.
Proof.
  unfold pcm16. generalize (Number.mul (clamp x)
    (Number.of_Z (if Number.lt (clamp x) (Number.of_Z 0) then 32768 else 32767))).
  intros [| |m e]; cbn -[Z.pow Z.modulo]; try lia.
  change (2 ^ 16)%Z with 65536%Z. change (2 ^ 15)%Z with 32768%Z.
  pose proof (Z.mod_pos_bound (Number.truncate m e) 65536 ltac:(lia)).
  destruct (Z.ltb_spec (Number.truncate m e mod 65536) 32768); lia.
Qed.

Example pcm16_full_scale :
  pcm16 (Number.of_Z 1) = 32767%Z /\ pcm16 (Number.of_Z (-1)) = (-32768)%Z
  /\ pcm16 (Number.Finite 3 0) = 32767%Z /\ pcm16 (Number.Infinity true) = (-32768)%Z
  /\ pcm16 Number.NaN = 0%Z.
Proof. repeat split. Qed.

(** Time passing is the firing of due timers, then the clock. *)
Lemma elapse_preserves (P : State -> Prop) :
  (forall s t d,
     In (t, d) (timers (browser s)) -> P s ->
     P (commitInputToHistory
          (set_browser (set_now (N.max (now (browser s)) d)
                          (clearTimeout t (browser s))) s))) ->
  (forall s n, now (browser s) <= n -> P s ->
               P (set_browser (set_now n (browser s)) s)) ->
  forall d s, P s -> P (elapse d s).
Proof.
  intros Hfire Hclock d s H. unfold elapse.
  set (target := now (browser s) + d).
  assert (G : forall fuel s0, P s0 -> now (browser s0) <= target ->
              P (run_timers fuel target s0)
              /\ now (browser (run_timers fuel target s0)) <= target).
  { induction fuel as [|fuel IH]; intros s0 H0 Hn; cbn; [now split|].
    destruct (earliest_due target (timers (browser s0))) as [[t dl]|] eqn:E; [|now split].
    destruct (earliest_due_In _ _ _ E) as (Hin & Hle). cbn [snd] in Hle.
    apply IH; [now apply Hfire|].
    destruct (commitInputToHistory_frame
                (set_browser (set_now (N.max (now (browser s0)) dl)
                                (clearTimeout t (browser s0))) s0))
      as (_ & _ & _ & _ & _ & Hnow & _).
    cbv zeta in Hnow. rewrite Hnow. cbn. lia. }
  destruct (G (length (timers (browser s))) s H) as (HP & Hn); [unfold target; lia|].
  now apply Hclock.
Qed.

End Fuel.

(** ** The debounce timer *)

Section Debounce.

Lemma onMessage_human (txt : jsstring) (s : State) :
  onMessage (PartialTranscript_human txt) s
  = onInputTranscription (serverContent (PartialTranscript_human txt)) s.
Proof. reflexivity. Qed.

Lemma onMessage_agent (txt : jsstring) (s : State) :
  onMessage (PartialTranscript_agent txt) s
  = onOutputTranscription (serverContent (PartialTranscript_agent txt)) s.
Proof. reflexivity. Qed.

(** Time that ends before the deadline of the one pending timer only moves
    the clock. *)
Lemma elapse_idle (s : State) (t : TimerId) (deadline g : N) :
  timers (browser s) = [(t, deadline)] ->
  now (browser s) + g < deadline ->
  elapse g s = set_browser (set_now (now (browser s) + g) (browser s)) s.
Proof.
  intros Ht Hg. unfold elapse. rewrite Ht. cbn [length run_timers].
  rewrite Ht. cbn [earliest_due snd].
  destruct (N.leb_spec deadline (now (browser s) + g)); [lia|reflexivity].
Qed.

(** Time that reaches the deadline fires the timer: the commit runs at the
    deadline. *)
Lemma elapse_fire (s : State) (t : TimerId) (deadline q : N) :
  timers (browser s) = [(t, deadline)] ->
  debounceTimerRef s = Some t ->
  now (browser s) <= deadline <= now (browser s) + q ->
  let fired := commitInputToHistory
                 (set_browser (set_now deadline (set_timers [] (browser s))) s) in
  elapse q s = set_browser (set_now (now (browser s) + q) (browser fired)) fired.
Proof.
  intros Ht Hr Hq. cbv zeta. unfold elapse. rewrite Ht. cbn [length run_timers].
  rewrite Ht. cbn [earliest_due snd].
  destruct (N.leb_spec deadline (now (browser s) + q)); [|lia].
  unfold clearTimeout. rewrite Ht. cbn [List.filter fst].
  rewrite Pos.eqb_refl. cbn [negb].
  rewrite N.max_r by lia. reflexivity.
Qed.

Lemma run_app (s : State) (evs1 evs2 : list Event) :
  run s (evs1 ++ evs2) = run (run s evs1) evs2.
Proof. apply fold_left_app. Qed.

(** A burst of human deltas, each followed by less than the quiet period:
    nothing is committed, the deltas pile up in order. *)
Lemma burst_accumulates (burst : list (jsstring * N)) :
  forall s,
    timers_ok s ->
    Forall (fun p => fst p <> [] /\ snd p < 1500) burst ->
    let s' := run s (burst_events burst) in
    timers_ok s'
    /\ transcriptHistory s' = transcriptHistory s
    /\ currentInputRef s' = currentInputRef s ++ concat (map fst burst)
    /\ currentOutputRef s' = currentOutputRef s
    /\ now (browser s') = now (browser s) + total_silence burst
    /\ scheduler s' = scheduler s.
Proof.
  induction burst as [|[d g] burst IH]; intros s Hok Hb; cbv zeta.
  - cbn. rewrite app_nil_r, N.add_0_r. repeat split. exact Hok.
  - inversion Hb as [|? ? [Hd Hg] Hb']; subst. cbn [fst snd] in *.
    change (burst_events ((d, g) :: burst))
      with ([Message (PartialTranscript_human d); Elapse g] ++ burst_events burst).
    rewrite run_app.
    set (c := {| inputTranscription := Some {| text := Some d |};
                 outputTranscription := None; turnComplete := None |}).
    destruct (onInputTranscription_delta c s) as (Hi & Hr & Ht & Hn & Hh & Ho);
      [exact Hd|exact Hok|]. cbv zeta in *. cbn [delta inputTranscription c] in Hi.
    set (s1 := onInputTranscription (Some c) s) in *.
    assert (E : run s [Message (PartialTranscript_human d); Elapse g]
                = set_browser (set_now (now (browser s1) + g) (browser s1)) s1).
    { cbn [run fold_left step]. rewrite onMessage_human.
      change (onInputTranscription _ s) with s1.
      apply (elapse_idle s1 _ _ g Ht). lia. }
    rewrite E.
    set (s2 := set_browser _ s1).
    assert (Hok2 : timers_ok s2).
    { intros p Hp. change (In p (timers (browser s1))) in Hp.
      rewrite Ht in Hp. destruct Hp as [<-|[]]. exact Hr. }
    destruct (IH s2 Hok2 Hb') as (K1 & K2 & K3 & K4 & K5 & K6). cbv zeta in *.
    repeat split; [exact K1|..].
    + rewrite K2. exact Hh.
    + rewrite K3. cbn [map concat fst]. change (currentInputRef s2) with (currentInputRef s1).
      rewrite Hi. now rewrite <- app_assoc.
    + rewrite K4. exact Ho.
    + rewrite K5. change (now (browser s2)) with (now (browser s1) + g).
      rewrite Hn. unfold total_silence. cbn [map fold_right snd]. lia.
    + rewrite K6. change (scheduler s2) with (scheduler s1).
      apply onInputTranscription_scheduler.
Qed.

End Debounce.

(** ** C1: the debounced commit *)

Section C1.

(** C1, as the code has it.  On the human channel: after a burst of
    non-empty deltas with less than the quiet period between them and no
    TurnComplete, starting from a buffer that is empty (or holds only the
    blanks that an earlier firing left uncommitted), 1.5 s without a delta
    dispatch exactly one update of the history, when the trimmed
    concatenation of the deltas is not blank, and none when it is blank; the
    update is dispatched when the timer fires, 1.5 s after the last delta,
    and the buffer is reset then.  With no update of App pending React
    computes the update at once: the entry appended has the trimmed
    concatenation as its text.  With an update pending the updater is
    queued, to be called at the next render.  The agent channel has no
    debounce timer: an agent delta touches neither the timer nor the buffer
    nor the history, and the human burst leaves the agent buffer as it
    was. *)
Theorem human_debounce_commit
  (s : State) (burst : list (jsstring * N)) (d : jsstring) (q : N) :
  timers_ok s ->
  trim (currentInputRef s) = [] ->
  Forall (fun p => fst p <> [] /\ snd p < 1500) burst ->
  d <> [] ->
  1500 <= q ->
  let s' := run s (burst_events burst ++ [Message (PartialTranscript_human d); Elapse q]) in
  let said := trim (concat (map fst burst) ++ d) in
  let at_ := now (browser s) + total_silence burst + 1500 in
  (if updatePending (scheduler s)
   then transcriptHistory s' = transcriptHistory s
        /\ updateQueue (scheduler s')
           = updateQueue (scheduler s) ++ (if truthy said then [AppendUser] else [])
   else transcriptHistory s'
        = transcriptHistory s ++
          (if truthy said
           then [TranscriptItem.mk (toString at_ ++ str "-user") user said at_]
           else [])
        /\ updateQueue (scheduler s') = updateQueue (scheduler s))
  /\ timers (browser s') = []
  /\ currentInputRef s'
     = (if truthy said then []
        else currentInputRef s ++ concat (map fst burst) ++ d)
  /\ currentOutputRef s' = currentOutputRef s
  /\ (forall a : jsstring,
        let sa := onMessage (PartialTranscript_agent a) s in
        browser sa = browser s
        /\ debounceTimerRef sa = debounceTimerRef s
        /\ currentInputRef sa = currentInputRef s
        /\ transcriptHistory sa = transcriptHistory s
        /\ scheduler sa = scheduler s).
Proof.
  intros Hok Hempty Hb Hd Hq. cbv zeta.
  rewrite run_app.
  destruct (burst_accumulates burst s Hok Hb) as (K1 & K2 & K3 & K4 & K5 & K6).
  cbv zeta in *.
  set (s1 := run s (burst_events burst)) in *.
  set (c := {| inputTranscription := Some {| text := Some d |};
               outputTranscription := None; turnComplete := None |}).
  destruct (onInputTranscription_delta c s1) as (Hi & Hr & Ht & Hn & Hh & Ho);
    [exact Hd|exact K1|]. cbv zeta in *. cbn [delta inputTranscription c] in Hi.
  pose proof (onInputTranscription_scheduler (Some c) s1) as Hsch.
  set (s2 := onInputTranscription (Some c) s1) in *.
  cbn [run fold_left step]. rewrite onMessage_human.
  change (onInputTranscription _ s1) with s2.
  rewrite (elapse_fire s2 _ _ q Ht Hr) by lia. cbv zeta.
  set (s3 := set_browser (set_now (now (browser s1) + 1500) (set_timers [] (browser s2))) s2).
  assert (Hin : currentInputRef s3 = currentInputRef s ++ concat (map fst burst) ++ d).
  { change (currentInputRef s3) with (currentInputRef s2).
    now rewrite Hi, K3, <- app_assoc. }
  assert (Hsaid : trim (currentInputRef s3) = trim (concat (map fst burst) ++ d)).
  { rewrite Hin. now apply trim_blank_prefix. }
  assert (Hat : now (browser s3) = now (browser s) + total_silence burst + 1500).
  { change (now (browser s3)) with (now (browser s1) + 1500). now rewrite K5. }
  assert (Hh3 : transcriptHistory s3 = transcriptHistory s) by (now rewrite <- K2, <- Hh).
  assert (Hr3 : debounceTimerRef s3 = Some (nextTimer (browser s1))) by exact Hr.
  assert (Ht3 : timers (browser s3) = []) by reflexivity.
  assert (Ho3 : currentOutputRef s3 = currentOutputRef s) by (now rewrite <- K4, <- Ho).
  assert (Hs3 : scheduler s3 = scheduler s).
  { change (scheduler s3) with (scheduler s2). now rewrite Hsch, K6. }
  clearbody s3.
  split; [|split; [|split; [|split]]].
  - cbn [transcriptHistory set_browser scheduler].
    rewrite commitInputToHistory_history, commitInputToHistory_queue.
    unfold entry_of. rewrite Hsaid, Hat, Hh3, Hs3.
    destruct (updatePending (scheduler s)); cbn [negb];
      rewrite ?andb_true_r, ?andb_false_r, ?app_nil_r; split; reflexivity.
  - cbn [browser set_browser timers set_now].
    now rewrite commitInputToHistory_timers, Hr3, Ht3.
  - cbn [currentInputRef set_browser].
    now rewrite commitInputToHistory_buffer, Hsaid, Hin.
  - cbn [currentOutputRef set_browser].
    destruct (commitInputToHistory_frame s3) as (_ & _ & Hout & _). cbv zeta in Hout.
    now rewrite Hout.
  - intros a. rewrite onMessage_agent.
    destruct (onOutputTranscription_frame
                (serverContent (PartialTranscript_agent a)) s)
      as (F1 & F2 & _ & F4 & F5 & _).
    cbv zeta in *. repeat split; try assumption.
    apply onOutputTranscription_scheduler.
Qed.

(** The scenario of the specification: "Hel", 50 ms, "lo there", then the
    quiet period. *)
Lemma human_debounce_commit_witness :
  transcriptHistory
    (run init [Message (PartialTranscript_human (str "Hel")); Elapse 50;
               Message (PartialTranscript_human (str "lo there")); Elapse 1500])
  = [TranscriptItem.mk (str "1550-user") user (str "Hello there") 1550].
Proof.
  refine (proj1 (proj1 (human_debounce_commit init [(str "Hel", 50)] (str "lo there") 1500
                          init_timers_ok eq_refl _ _ _))).
  - constructor; [split; [discriminate|reflexivity]|constructor].
  - discriminate.
  - discriminate.
Defined.

(** C1 as stated fails on the agent channel: the delta "Thinking" followed
    by the quiet period emits no entry; the text stays in the buffer. *)
Lemma agent_channel_not_debounced :
  let s := run connected [Message (PartialTranscript_agent (str "Thinking")); Elapse 1500] in
  transcriptHistory s = []
  /\ currentOutputRef s = str "Thinking"
  /\ ~ (exists item, transcriptHistory s = [item]
                     /\ TranscriptItem.text item = trim (str "Thinking")).
Proof.
  cbv zeta. split; [reflexivity|]. split; [reflexivity|].
  intros (item & H & _). discriminate H.
Qed.

End C1.

(** ** C2: TurnComplete *)

Section C2.

Lemma onInputTranscription_frame (c : option ServerContent) (s : State) :
  let s' := onInputTranscription c s in
  transcriptHistory s' = transcriptHistory s
  /\ currentOutputRef s' = currentOutputRef s
  /\ liveOutputText s' = liveOutputText s
  /\ now (browser s') = now (browser s)
  /\ connectionState s' = connectionState s
  /\ liveService s' = liveService s.
Proof.
  cbv zeta. unfold onInputTranscription.
  destruct c as [[[[[txt|]]|] o tc]|]; try (repeat split; fail).
  destruct (truthy txt); [|repeat split].
  cbn. destruct (debounceTimerRef s); repeat split.
Qed.

Lemma onTurnComplete_state (c : ServerContent) (s : State) :
  turnComplete c = Some true ->
  let s' := onTurnComplete (Some c) s in
  debounceTimerRef s' = debounceTimerRef s
  /\ timers (browser s') = timers (browser (commitInputToHistory s))
  /\ now (browser s') = now (browser s)
  /\ currentInputRef s' = (if truthy (trim (currentInputRef s)) then [] else currentInputRef s)
  /\ currentOutputRef s' = (if truthy (trim (currentOutputRef s)) then [] else currentOutputRef s).
Proof.
  intros Htc. destruct c as [i o tc]. cbn in Htc. subst tc.
  cbv zeta. unfold onTurnComplete. cbv zeta.
  destruct (commitInputToHistory_frame s) as (_ & Hr & Ho & _ & _ & Hn & _).
  cbv zeta in Hr, Ho, Hn. rewrite Ho.
  pose proof (commitInputToHistory_buffer s) as Hb.
  destruct (truthy (trim (currentOutputRef s))); cbn; updates; repeat split; assumption.
Qed.

Lemma cleared_not_pending (t : TimerId) (l : list (TimerId * N)) :
  ~ In t (map fst (List.filter (fun p => negb (Pos.eqb (fst p) t)) l)).
Proof.
  intros H. apply in_map_iff in H. destruct H as (p & <- & Hp).
  apply filter_In in Hp. destruct Hp as (_ & Hp).
  now rewrite Pos.eqb_refl in Hp.
Qed.

(** C2 on the code.  A message that carries TurnComplete dispatches at
    once, at the time it arrives and whatever deadline the pending timer
    has: the timer held by the ref is cancelled; an update of the history
    is dispatched for the human channel's accumulated text (with the delta
    the message itself may carry) unless it is blank after trimming, and
    then one for the agent channel's if and only if that is not blank after
    trimming; the buffer of each update dispatched is reset.  Only an update
    dispatched while none is pending is computed at the dispatch, from the
    text accumulated; so when both channels hold text the agent's updater is
    always queued.  A queued updater reads its buffer when React calls it:
    called at a render that follows the handler, each updater that this
    message queued builds an entry whose text is empty, and the text that
    was accumulated is in no entry and in no buffer. *)
Theorem turnComplete_commits_at_once
  (s : State) (msg : LiveServerMessage) (c : ServerContent) :
  serverContent msg = Some c ->
  turnComplete c = Some true ->
  let human := trim (currentInputRef s ++ delta (inputTranscription c)) in
  let agent_ := trim (currentOutputRef s ++ delta (outputTranscription c)) in
  let at_ := now (browser s) in
  let pending := updatePending (scheduler s) in
  let queued :=
    (if truthy human && pending then [AppendUser] else []) ++
    (if truthy agent_ && (pending || truthy human) then [AppendAgent] else []) in
  let s' := onMessage msg s in
  transcriptHistory s'
  = transcriptHistory s ++
    (if truthy human && negb pending
     then [TranscriptItem.mk (toString at_ ++ str "-user") user human at_]
     else []) ++
    (if truthy agent_ && negb (pending || truthy human)
     then [TranscriptItem.mk (toString at_ ++ str "-agent") model agent_ at_]
     else [])
  /\ updateQueue (scheduler s') = updateQueue (scheduler s) ++ queued
  /\ (forall t, debounceTimerRef s' = Some t ->
                ~ In t (map fst (timers (browser s'))))
  /\ now (browser s') = now (browser s)
  /\ currentInputRef s'
     = (if truthy human then []
        else currentInputRef s ++ delta (inputTranscription c))
  /\ currentOutputRef s'
     = (if truthy agent_ then []
        else currentOutputRef s ++ delta (outputTranscription c))
  /\ transcriptHistory (step s' Render)
     = transcriptHistory s'
       ++ map (fun u => entry_of u s') (updateQueue (scheduler s))
       ++ map (fun u => entry_of u s') queued
  /\ Forall (fun u => TranscriptItem.text (entry_of u s') = []) queued.
Proof.
  intros Hc Htc. cbv zeta. unfold onMessage. rewrite Hc.
  set (s1 := onInputTranscription (Some c) s).
  set (s2 := onOutputTranscription (Some c) s1).
  destruct (onInputTranscription_frame (Some c) s) as (I1 & I2 & _ & I4 & _).
  destruct (onOutputTranscription_frame (Some c) s1) as (O1 & O2 & _ & O4 & O5 & _).
  pose proof (onInputTranscription_buffer (Some c) s) as Ib.
  pose proof (onOutputTranscription_buffer (Some c) s1) as Ob.
  pose proof (onInputTranscription_scheduler (Some c) s) as Is.
  pose proof (onOutputTranscription_scheduler (Some c) s1) as Os.
  cbv zeta in *. fold s1 in I1, I2, I4, Ib, Is. fold s2 in O1, O2, O4, O5, Ob, Os.
  assert (Hin : currentInputRef s2 = currentInputRef s ++ delta (inputTranscription c))
    by (now rewrite O2, Ib).
  assert (Hout : currentOutputRef s2 = currentOutputRef s ++ delta (outputTranscription c))
    by (now rewrite Ob, I2).
  assert (Hnow : now (browser s2) = now (browser s)) by (now rewrite O5, I4).
  assert (Hhist : transcriptHistory s2 = transcriptHistory s) by (now rewrite O1, I1).
  assert (Hsch : scheduler s2 = scheduler s) by (now rewrite Os, Is).
  destruct (onTurnComplete_state c s2 Htc) as (T1 & T2 & T3 & T4 & T5).
  pose proof (onTurnComplete_history c s2 Htc) as Th.
  pose proof (onTurnComplete_queue c s2 Htc) as Tq.
  cbv zeta in *. unfold entry_of in Th.
  rewrite Hin, Hout, Hnow, Hhist, Hsch in Th.
  rewrite Hin, Hout, Hsch in Tq.
  rewrite Hin in T4. rewrite Hout in T5.
  clearbody s2. clear s1 I1 I2 I4 Ib O1 O2 O4 O5 Ob Is Os.
  set (s' := onTurnComplete (Some c) s2) in *.
  split; [exact Th|]. split; [exact Tq|].
  split; [|split; [|split; [|split; [|split]]]].
  - intros t Ht. rewrite T2, commitInputToHistory_timers.
    rewrite T1 in Ht. rewrite Ht. apply cleared_not_pending.
  - now rewrite T3.
  - exact T4.
  - exact T5.
  - cbn [step]. now rewrite render_history, Tq, map_app.
  - clearbody s'. apply Forall_app. split.
    + revert T4.
      destruct (truthy (trim (currentInputRef s ++ delta (inputTranscription c))));
        intros T4; cbn [andb]; [|constructor].
      destruct (updatePending (scheduler s)); constructor; [|constructor].
      cbn. now rewrite T4.
    + revert T5.
      destruct (truthy (trim (currentOutputRef s ++ delta (outputTranscription c))));
        intros T5; cbn [andb]; [|constructor].
      destruct (updatePending (scheduler s)
                || truthy (trim (currentInputRef s ++ delta (inputTranscription c))));
        constructor; [|constructor].
      cbn. now rewrite T5.
Qed.

(** The human channel holds "I felt lost", the agent channel "I see", and
    TurnComplete arrives; React renders after the handler.  The human entry
    is computed at the dispatch; the agent entry is built at the render and
    its text is empty. *)
Lemma turnComplete_commits_at_once_witness :
  let s := run connected [Message (PartialTranscript_human (str "I felt lost"));
                          Message (PartialTranscript_agent (str "I see"))] in
  let s' := onMessage TurnComplete s in
  timers (browser s) = [(1%positive, 1500)]
  /\ transcriptHistory s' = [TranscriptItem.mk (str "0-user") user (str "I felt lost") 0]
  /\ updateQueue (scheduler s') = [AppendAgent]
  /\ currentOutputRef s' = []
  /\ transcriptHistory (step s' Render)
     = [TranscriptItem.mk (str "0-user") user (str "I felt lost") 0;
        TranscriptItem.mk (str "0-agent") model [] 0].
Proof.
  cbv zeta.
  pose proof (turnComplete_commits_at_once
                (run connected [Message (PartialTranscript_human (str "I felt lost"));
                                Message (PartialTranscript_agent (str "I see"))])
                TurnComplete _ eq_refl eq_refl) as H.
  cbv zeta in H. destruct H as (H1 & H2 & _ & _ & _ & H6 & H7 & _).
  split; [vm_compute; reflexivity|].
  split; [rewrite H1; vm_compute; reflexivity|].
  split; [rewrite H2; vm_compute; reflexivity|].
  split; [rewrite H6; vm_compute; reflexivity|].
  rewrite H7. vm_compute. reflexivity.
Defined.

End C2.

(** ** C3, C6, C8: disconnect *)

Section Disconnect.


Lemma trim_nil : trim [] = [].
Proof. reflexivity. Qed.

Lemma LiveApiService_disconnect_settled (l : LiveApiService) (b : Browser) :
  settled l = true ->
  exists l' b',
    LiveApiService_disconnect l b = Returned (l', b')
    /\ timers b' = timers b /\ now b' = now b
    /\ sessionPromise l' = None /\ inputAudioContext l' = None /\ mediaStream l' = None.
Proof.
  intros Hs. unfold LiveApiService_disconnect.
  destruct l as [[[h|h|h]|] [ctx|] [ms|] pr so]; cbn in Hs; try discriminate;
    cbn; eexists; eexists; (split; [reflexivity|]); cbn; repeat split.
Qed.

(** What [handleDisconnect_resume] leaves does not depend on the agent
    buffer or its live text. *)
Lemma handleDisconnect_resume_clears (s : State) :
  handleDisconnect_resume s
  = handleDisconnect_resume (setLiveOutputText [] (set_currentOutputRef [] s)).
Proof.
  unfold handleDisconnect_resume, commitInputToHistory, setTranscriptHistory. cbn.
  destruct (debounceTimerRef s); cbn;
    destruct (truthy (trim (currentInputRef s))); cbn;
    destruct (updatePending (scheduler s)); reflexivity.
Qed.

Lemma handleDisconnect_resume_agent (l : LiveApiService) (b : Browser)
  (out live : jsstring) (s : State) :
  handleDisconnect_resume
    (set_browser b (set_liveService l (setLiveOutputText live (set_currentOutputRef out s))))
  = handleDisconnect_resume (set_browser b (set_liveService l s)).
Proof.
  rewrite handleDisconnect_resume_clears.
  now rewrite (handleDisconnect_resume_clears (set_browser b (set_liveService l s))).
Qed.

Lemma handleDisconnect_resume_state (s : State) :
  let s' := handleDisconnect_resume s in
  transcriptHistory s'
  = transcriptHistory s ++
    (if truthy (trim (currentInputRef s)) && negb (updatePending (scheduler s))
     then [TranscriptItem.mk (toString (now (browser s)) ++ str "-user") user
             (trim (currentInputRef s)) (now (browser s))]
     else [])
  /\ currentInputRef s' = [] /\ currentOutputRef s' = []
  /\ liveInputText s' = [] /\ liveOutputText s' = []
  /\ connectionState s' = DISCONNECTED
  /\ debounceTimerRef s' = debounceTimerRef s
  /\ timers (browser s')
     = match debounceTimerRef s with
       | Some t => List.filter (fun p => negb (Pos.eqb (fst p) t)) (timers (browser s))
       | None => timers (browser s)
       end
  /\ liveService s' = liveService s
  /\ now (browser s') = now (browser s).
Proof.
  cbv zeta. unfold handleDisconnect_resume. cbn.
  pose proof (commitInputToHistory_history (setConnectionState DISCONNECTED s)) as Hh.
  pose proof (commitInputToHistory_timers (setConnectionState DISCONNECTED s)) as Ht.
  destruct (commitInputToHistory_frame (setConnectionState DISCONNECTED s))
    as (Hc & Hr & _ & _ & Hl & Hn & _).
  cbv zeta in *. cbn in Hh, Ht, Hc, Hr, Hl, Hn.
  repeat split; assumption.
Qed.

Lemma handleDisconnect_resume_updates (s : State) :
  let s' := handleDisconnect_resume s in
  updateQueue (scheduler s')
  = updateQueue (scheduler s) ++
    (if truthy (trim (currentInputRef s)) && updatePending (scheduler s)
     then [AppendUser]
     else [])
  /\ updatePending (scheduler s')
     = updatePending (scheduler s) || truthy (trim (currentInputRef s))
  /\ awaiting (scheduler s') = awaiting (scheduler s).
Proof.
  cbv zeta. unfold handleDisconnect_resume. cbn.
  pose proof (commitInputToHistory_queue (setConnectionState DISCONNECTED s)) as Hq.
  pose proof (commitInputToHistory_pending (setConnectionState DISCONNECTED s)) as Hp.
  pose proof (commitInputToHistory_awaiting (setConnectionState DISCONNECTED s)) as Ha.
  cbn in Hq, Hp, Ha. repeat split; assumption.
Qed.

(** The click on End Session of a session whose audio context is running
    commits nothing and resets nothing: the stream and the context are
    released and the call waits for the promise of [close()]. *)
Lemma ClickEnd_waits (s : State) (ctx : nat) :
  connectionState s = CONNECTED ->
  inputAudioContext (liveService s) = Some ctx ->
  existsb (Nat.eqb ctx) (contexts (browser s)) = true ->
  let s' := step s ClickEnd in
  same_transcript s s'
  /\ connectionState s' = CONNECTED
  /\ awaiting (scheduler s') = awaiting (scheduler s) ++ [ContextClose ctx]
  /\ mediaStream (liveService s') = None
  /\ sessionPromise (liveService s') = sessionPromise (liveService s)
  /\ transports (browser s') = transports (browser s).
Proof.
  intros Hc Hx Hm. cbv zeta. cbn [step]. rewrite Hc. unfold handleDisconnect_call.
  destruct (mediaStream (liveService s)) as [ms|] eqn:Em; cbn; rewrite Hx; cbn; rewrite Hm;
    unfold same_transcript; cbn; repeat split; assumption.
Qed.

(** The event at which a call of [handleDisconnect] gets past
    [disconnect()] is followed by its last part, run on the transcript as
    it is then. *)
Lemma completes_resume (s : State) (e : Event) :
  completes s e ->
  exists s0,
    step s e = handleDisconnect_resume s0
    /\ same_transcript s s0
    /\ (forall out live : jsstring,
          step (setLiveOutputText live (set_currentOutputRef out s)) e
          = handleDisconnect_resume (setLiveOutputText live (set_currentOutputRef out s0))).
Proof.
  destruct e; cbn [completes]; try contradiction.
  - intros (Hc & Hx & Hs). unfold settled in Hs.
    assert (Hstep : forall st,
              connectionState st = CONNECTED ->
              liveService st = liveService s ->
              step st ClickEnd
              = handleDisconnect_session
                  (match mediaStream (liveService s) with
                   | Some ms =>
                       set_browser
                         (set_streams
                            (List.filter (fun x => negb (Nat.eqb x ms)) (streams (browser st)))
                            (browser st))
                         (set_liveService (set_mediaStream None (liveService s)) st)
                   | None => st
                   end)).
    { intros st C L. cbn [step]. rewrite C. unfold handleDisconnect_call. rewrite L.
      destruct (mediaStream (liveService s)) as [ms|];
        cbn [liveService set_browser set_liveService inputAudioContext set_mediaStream];
        rewrite ?L, Hx; reflexivity. }
    rewrite (Hstep s Hc eq_refl).
    unfold handleDisconnect_session.
    destruct (mediaStream (liveService s)) as [ms|] eqn:Em;
      cbn [liveService set_browser set_liveService sessionPromise set_mediaStream];
      destruct (sessionPromise (liveService s)) as [[h|h|h]|] eqn:Ep; try discriminate;
      (eexists; split; [reflexivity|]; split;
       [unfold same_transcript; cbn; repeat split|]);
      intros out live;
      rewrite (Hstep (setLiveOutputText live (set_currentOutputRef out s)) Hc eq_refl);
      rewrite ?Em; unfold handleDisconnect_session;
      cbn [liveService set_browser set_liveService sessionPromise set_mediaStream
           setLiveOutputText set_currentOutputRef];
      rewrite Ep; reflexivity.
  - intros (Hm & Hw). cbn [step]. cbn [browser setLiveOutputText set_currentOutputRef].
    rewrite Hm. unfold resume_all.
    assert (Hw' : forall st, awaiting (scheduler st) = awaiting (scheduler s) ->
              List.filter (is_awaited (SessionPromise h)) (awaiting (scheduler st))
              = [SessionPromise h]) by (intros st ->; exact Hw).
    assert (Hset : forall st, awaiting (scheduler st) = awaiting (scheduler s) ->
              awaiting (scheduler (settle h true (startAudioStream (onOpen st))))
              = awaiting (scheduler s)).
    { intros st Hst. unfold settle. cbn.
      destruct (sessionPromise (liveService st)) as [[h'|h'|h']|]; try exact Hst.
      destruct (Nat.eqb h h'); exact Hst. }
    rewrite (Hw' _ (Hset s eq_refl)).
    cbn [fold_left].
    eexists. split; [reflexivity|]. split.
    + eapply same_transcript_trans; [apply onOpen_same|].
      eapply same_transcript_trans; [apply startAudioStream_same|].
      eapply same_transcript_trans; [apply settle_same|].
      eapply same_transcript_trans; [apply (stop_waiting_same (SessionPromise h))|].
      unfold same_transcript. cbn. repeat split.
    + intros out live.
      rewrite (Hw' _ (Hset (setLiveOutputText live (set_currentOutputRef out s)) eq_refl)).
      cbn [fold_left]. unfold handleDisconnect_fulfilled. f_equal.
      unfold settle, startAudioStream, onOpen, sendText, send. cbn.
      destruct (sessionPromise (liveService s)) as [[h'|h'|h']|]; cbn;
        try destruct (Nat.eqb h h'); reflexivity.
  - intros (Hw & Hs). cbn [step]. unfold resume_all.
    cbn [scheduler setLiveOutputText set_currentOutputRef]. rewrite Hw. cbn [fold_left].
    unfold handleDisconnect_closed, handleDisconnect_session, settled in *.
    cbn [liveService set_liveService stop_waiting set_scheduler sessionPromise
         set_inputAudioContext setLiveOutputText set_currentOutputRef].
    destruct (sessionPromise (liveService s)) as [[h|h|h]|]; try discriminate;
      (eexists; split; [reflexivity|]; split;
       [unfold same_transcript; cbn; repeat split|intros out live; reflexivity]).
Qed.

(** C3, as the code has it.  At the event at which a call of
    [handleDisconnect] gets past the awaited [disconnect()] (the click
    itself when no audio context is held and the session promise is
    settled, the closing of the context when the call waited for it, the
    opening of the transport when it waited for the session promise), the
    rest of [handleDisconnect] runs in the same step: one update of the
    history is dispatched for the human channel's text as it is then,
    unless it is blank, and none for the agent channel; both buffers and
    both live texts are empty and the state is DISCONNECTED when the step
    is done; the timer of the ref is cancelled; and the state that results
    is the same whatever the agent buffer held, so the agent text pending
    then is dropped for good.  With no update of App pending the human
    update is computed at once and the entry holds the text, trimmed; with
    one pending the updater is queued. *)
Theorem disconnect_flushes_human_only (s : State) (e : Event) :
  completes s e ->
  let s' := step s e in
  let pending := updatePending (scheduler s) in
  transcriptHistory s'
  = transcriptHistory s ++
    (if truthy (trim (currentInputRef s)) && negb pending
     then [TranscriptItem.mk (toString (now (browser s)) ++ str "-user") user
             (trim (currentInputRef s)) (now (browser s))]
     else [])
  /\ updateQueue (scheduler s')
     = updateQueue (scheduler s) ++
       (if truthy (trim (currentInputRef s)) && pending then [AppendUser] else [])
  /\ currentInputRef s' = [] /\ currentOutputRef s' = []
  /\ liveInputText s' = [] /\ liveOutputText s' = []
  /\ connectionState s' = DISCONNECTED
  /\ (forall t, debounceTimerRef s' = Some t ->
                ~ In t (map fst (timers (browser s'))))
  /\ (forall out live : jsstring,
        step (setLiveOutputText live (set_currentOutputRef out s)) e = s').
Proof.
  intros Hc. cbv zeta.
  destruct (completes_resume s e Hc) as (s0 & E & Hs & Hagent).
  destruct Hs as (S1 & S2 & S3 & S4 & S5 & S6 & S7 & S8 & S9 & S10 & S11 & _).
  rewrite E.
  destruct (handleDisconnect_resume_state s0)
    as (R1 & R2 & R3 & R4 & R5 & R6 & R7 & R8 & _).
  destruct (handleDisconnect_resume_updates s0) as (U1 & _).
  cbv zeta in *.
  split; [now rewrite R1, S1, S2, S9, S11|].
  split; [now rewrite U1, S2, S10, S11|].
  repeat (split; [assumption|]).
  split.
  - intros t Hr. rewrite R8. rewrite R7 in Hr. rewrite Hr. apply cleared_not_pending.
  - intros out live. rewrite Hagent.
    rewrite handleDisconnect_resume_clears.
    now rewrite (handleDisconnect_resume_clears s0).
Qed.

(** The scenario of the specification: "Thinking" on the agent channel and
    "I felt" on the human channel, then End Session; the context closes. *)
Lemma disconnect_flushes_human_only_witness :
  let s := run connected [Message (PartialTranscript_agent (str "Thinking"));
                          Message (PartialTranscript_human (str "I felt"));
                          ClickEnd] in
  let s' := step s (ContextClosed 2%nat) in
  currentOutputRef s = str "Thinking"
  /\ awaiting (scheduler s) = [ContextClose 2%nat]
  /\ transcriptHistory s' = [TranscriptItem.mk (str "0-user") user (str "I felt") 0]
  /\ currentInputRef s' = [] /\ currentOutputRef s' = []
  /\ connectionState s' = DISCONNECTED.
Proof.
  cbv zeta.
  set (s := run connected [Message (PartialTranscript_agent (str "Thinking"));
                           Message (PartialTranscript_human (str "I felt"));
                           ClickEnd]).
  assert (Hc : completes s (ContextClosed 2%nat)) by (vm_compute; split; reflexivity).
  destruct (disconnect_flushes_human_only s (ContextClosed 2%nat) Hc)
    as (H1 & _ & H3 & H4 & _ & _ & H7 & _).
  cbv zeta in *.
  split; [vm_compute; reflexivity|].
  split; [vm_compute; reflexivity|].
  split; [rewrite H1; vm_compute; reflexivity|].
  repeat split; assumption.
Defined.

(** C3 as stated fails: the agent text that was uncommitted when End
    Session was clicked is committed by a TurnComplete that is delivered
    while [disconnect()] waits for the context to close. *)
Lemma turnComplete_during_disconnect :
  let s := run connected [Message (PartialTranscript_agent (str "Thinking")); ClickEnd] in
  let s' := run s [Message TurnComplete; ContextClosed 2%nat] in
  transcriptHistory s = []
  /\ currentOutputRef s = str "Thinking"
  /\ awaiting (scheduler s) = [ContextClose 2%nat]
  /\ connectionState s' = DISCONNECTED
  /\ transcriptHistory s'
     = [TranscriptItem.mk (str "0-agent") model (str "Thinking") 0].
Proof. vm_compute. repeat split. Qed.

(** *** The call as a whole *)

Lemma filter_none_awaited (a : Awaited) (l : list Awaited) :
  List.filter (is_awaited a) l = [] ->
  List.filter (fun b => negb (is_awaited a b)) l = l.
Proof.
  induction l as [|x l IH]; cbn; [reflexivity|].
  destruct (is_awaited a x); [discriminate|]. cbn. intros H. now rewrite IH.
Qed.

Lemma is_awaited_refl (a : Awaited) : is_awaited a a = true.
Proof. destruct a; cbn; apply Nat.eqb_refl. Qed.

(** A call that waits alone for [a] goes on when [a] comes. *)
Lemma resume_after_wait (a : Awaited) (k : State -> State) (s : State) :
  List.filter (is_awaited a) (awaiting (scheduler s)) = [] ->
  resume_all a k (wait_for a s) = k s.
Proof.
  intros Hw. unfold resume_all.
  assert (E1 : List.filter (is_awaited a) (awaiting (scheduler (wait_for a s))) = [a]).
  { cbn. now rewrite List.filter_app, Hw; cbn; rewrite is_awaited_refl. }
  assert (E2 : stop_waiting a (wait_for a s) = s).
  { unfold stop_waiting. cbn. rewrite List.filter_app, (filter_none_awaited _ _ Hw).
    cbn. rewrite is_awaited_refl. cbn. rewrite app_nil_r.
    destruct s as [cs ref inp outp li lo sp pt hist l b [q pend aw]]. reflexivity. }
  now rewrite E1, E2.
Qed.

(** [handleDisconnect] is the call cut at its awaits when no event comes
    between the click and the closing of the audio context: the two events
    in a row leave the state that [handleDisconnect] leaves, with the call
    waiting for the session promise when that is still pending. *)
Lemma handleDisconnect_staged (s : State) :
  connectionState s = CONNECTED ->
  (forall ctx, inputAudioContext (liveService s) = Some ctx ->
               existsb (Nat.eqb ctx) (contexts (browser s)) = true
               /\ List.filter (is_awaited (ContextClose ctx)) (awaiting (scheduler s)) = []) ->
  run s match inputAudioContext (liveService s) with
        | Some ctx => [ClickEnd; ContextClosed ctx]
        | None => [ClickEnd]
        end
  = match handleDisconnect s with
    | Returned s' | Threw s' => s'
    | Suspended s' =>
        match sessionPromise (liveService s') with
        | Some (Pending h) => wait_for (SessionPromise h) s'
        | _ => s'
        end
    end.
Proof.
  intros Hc Hctx.
  destruct (inputAudioContext (liveService s)) as [ctx|] eqn:Ectx.
  - destruct (Hctx ctx eq_refl) as (Hin & Hw).
    unfold run. cbn [fold_left step]. rewrite Hc.
    unfold handleDisconnect_call.
    set (s0 := match mediaStream (liveService s) with
               | Some ms => _
               | None => s
               end).
    assert (E0 : inputAudioContext (liveService s0) = Some ctx
                 /\ contexts (browser s0) = contexts (browser s)
                 /\ awaiting (scheduler s0) = awaiting (scheduler s))
      by (subst s0; destruct (mediaStream (liveService s)); cbn; now rewrite Ectx).
    destruct E0 as (E1 & E2 & E3). cbv zeta. rewrite E1, E2, Hin.
    rewrite resume_after_wait by (cbn; now rewrite E3).
    subst s0. unfold handleDisconnect, LiveApiService_disconnect,
      handleDisconnect_closed, handleDisconnect_session.
    destruct s as [cs ref inp outp li lo sp pt hist [sess c ms pr so] b sch].
    cbn in Ectx. subst c.
    destruct ms as [ms|]; destruct sess as [[h|h|h]|]; reflexivity.
  - unfold run. cbn [fold_left step]. rewrite Hc.
    unfold handleDisconnect, LiveApiService_disconnect,
      handleDisconnect_call, handleDisconnect_session.
    destruct s as [cs ref inp outp li lo sp pt hist [sess c ms pr so] b sch].
    cbn in Ectx. subst c.
    destruct ms as [ms|]; destruct sess as [[h|h|h]|]; reflexivity.
Qed.




End Disconnect.

(** ** Transports are opened by Start Interview only *)

Section Transports.

Lemma commitInputToHistory_transports (s : State) :
  transports (browser (commitInputToHistory s)) = transports (browser s).
Proof.
  unfold commitInputToHistory.
  destruct (debounceTimerRef s); cbn;
    destruct (truthy (trim (currentInputRef s))); cbn; updates; reflexivity.
Qed.

Lemma onMessage_transports (msg : LiveServerMessage) (s : State) :
  transports (browser (onMessage msg s)) = transports (browser s).
Proof.
  unfold onMessage.
  assert (Hi : transports (browser (onInputTranscription (serverContent msg) s))
               = transports (browser s)).
  { unfold onInputTranscription.
    destruct (serverContent msg) as [[[[[txt|]]|] o tc]|]; try reflexivity.
    destruct (truthy txt); [|reflexivity].
    cbn. destruct (debounceTimerRef s); reflexivity. }
  destruct (onOutputTranscription_frame (serverContent msg)
              (onInputTranscription (serverContent msg) s)) as (_ & _ & _ & _ & Hb & _).
  cbv zeta in Hb. rewrite <- Hi, <- Hb.
  generalize (onOutputTranscription (serverContent msg)
                (onInputTranscription (serverContent msg) s)).
  intros s2. unfold onTurnComplete.
  destruct (serverContent msg) as [[i o [[|]|]]|]; try reflexivity.
  cbv zeta.
  destruct (truthy (trim (currentOutputRef (commitInputToHistory s2)))); cbn;
    updates; apply commitInputToHistory_transports.
Qed.

Lemma run_timers_transports (fuel : nat) (target : N) :
  forall s, transports (browser (run_timers fuel target s)) = transports (browser s).
Proof.
  induction fuel as [|fuel IH]; intros s; cbn; [reflexivity|].
  destruct (earliest_due target (timers (browser s))) as [[t d]|]; [|reflexivity].
  now rewrite IH, commitInputToHistory_transports.
Qed.

Lemma handleDisconnect_resume_transports (s : State) :
  transports (browser (handleDisconnect_resume s)) = transports (browser s).
Proof.
  unfold handleDisconnect_resume. cbn.
  now rewrite commitInputToHistory_transports.
Qed.

Lemma handleDisconnect_transports (s : State) :
  incl (transports (browser (state_of (handleDisconnect s)))) (transports (browser s)).
Proof.
  unfold handleDisconnect, LiveApiService_disconnect.
  destruct (liveService s) as [[[h|h|h]|] [ctx|] [ms|] pr so];
    cbn -[handleDisconnect_resume];
    rewrite ?handleDisconnect_resume_transports; cbn;
    try apply incl_refl; apply incl_filter.
Qed.

Lemma handleDisconnect_session_transports (s : State) :
  incl (transports (browser (handleDisconnect_session s))) (transports (browser s)).
Proof.
  unfold handleDisconnect_session.
  destruct (sessionPromise (liveService s)) as [[h|h|h]|];
    rewrite ?handleDisconnect_resume_transports; cbn;
    try apply incl_refl; apply incl_filter.
Qed.

Lemma handleDisconnect_call_transports (s : State) :
  incl (transports (browser (handleDisconnect_call s))) (transports (browser s)).
Proof.
  unfold handleDisconnect_call.
  set (s1 := match mediaStream (liveService s) with
             | Some ms => _
             | None => s
             end).
  assert (H1 : transports (browser s1) = transports (browser s))
    by (unfold s1; destruct (mediaStream (liveService s)); reflexivity).
  clearbody s1. rewrite <- H1.
  destruct (inputAudioContext (liveService s1)) as [ctx|].
  - destruct (existsb (Nat.eqb ctx) (contexts (browser s1))); apply incl_refl.
  - apply handleDisconnect_session_transports.
Qed.

Lemma handleDisconnect_closed_transports (s : State) :
  incl (transports (browser (handleDisconnect_closed s))) (transports (browser s)).
Proof.
  unfold handleDisconnect_closed.
  eapply incl_tran; [apply handleDisconnect_session_transports|apply incl_refl].
Qed.

Lemma handleDisconnect_fulfilled_transports (h : nat) (s : State) :
  incl (transports (browser (handleDisconnect_fulfilled h s))) (transports (browser s)).
Proof.
  unfold handleDisconnect_fulfilled. rewrite handleDisconnect_resume_transports. cbn.
  apply incl_filter.
Qed.

Lemma resume_all_transports (a : Awaited) (k : State -> State) :
  (forall s, incl (transports (browser (k s))) (transports (browser s))) ->
  forall s, incl (transports (browser (resume_all a k s))) (transports (browser s)).
Proof.
  intros Hk s. unfold resume_all.
  assert (E : transports (browser s) = transports (browser (stop_waiting a s)))
    by reflexivity.
  rewrite E. generalize (stop_waiting a s).
  induction (List.filter (is_awaited a) (awaiting (scheduler s))) as [|x l IH];
    intros st; cbn; [apply incl_refl|].
  eapply incl_tran; [apply IH|apply Hk].
Qed.

Lemma send_transports (o : Outbound) (l : LiveApiService) (b : Browser) :
  transports (send o l b) = transports b.
Proof. unfold send. destruct (sessionPromise l) as [[h|h|h]|]; reflexivity. Qed.

Lemma settle_transports (h : nat) (f : bool) (s : State) :
  transports (browser (settle h f s)) = transports (browser s).
Proof.
  unfold settle. cbn.
  destruct (sessionPromise (liveService s)) as [[h'|h'|h']|]; try reflexivity.
  destruct (Nat.eqb h h'); reflexivity.
Qed.

(** No event but a click on Start Interview opens a transport. *)
Lemma only_ClickStart_opens (s : State) (e : Event) :
  e <> ClickStart ->
  incl (transports (browser (step s e))) (transports (browser s)).
Proof.
  intros He. destruct e; cbn [step]; try congruence.
  - destruct (connectionState s); try apply incl_refl.
    apply handleDisconnect_call_transports.
  - apply incl_refl.
  - destruct (showPasteInput s); apply incl_refl.
  - destruct (showPasteInput s && truthy (trim (pastedText s))); [|apply incl_refl].
    unfold handleManualSubmit.
    destruct (truthy (trim (pastedText s))); cbn; updates; apply incl_refl.
  - destruct (mem h (connecting (browser s))); [|apply incl_refl].
    eapply incl_tran;
      [apply resume_all_transports; intros st; apply handleDisconnect_fulfilled_transports|].
    rewrite settle_transports. unfold startAudioStream, onOpen, sendText. cbn.
    rewrite send_transports. apply incl_refl.
  - destruct (mem h (connecting (browser s))); [|apply incl_refl].
    cbn. rewrite settle_transports. apply incl_filter.
  - destruct (Nat.ltb 0 (micRequests (browser s))); apply incl_refl.
  - destruct (Nat.ltb 0 (micRequests (browser s))); apply incl_refl.
  - rewrite onMessage_transports. apply incl_refl.
  - apply incl_refl.
  - cbn. apply incl_filter.
  - destruct (mem ctx (contexts (browser s))); [|apply incl_refl].
    unfold onaudioprocess. destruct (createBlob inputData); [|apply incl_refl].
    cbn. rewrite send_transports. apply incl_refl.
  - unfold elapse. cbn. rewrite run_timers_transports. apply incl_refl.
  - apply resume_all_transports. intros st. apply handleDisconnect_closed_transports.
  - apply incl_refl.
  - apply incl_refl.
Qed.

Lemma no_ClickStart_no_transport (evs : list Event) :
  forall s, Forall (fun e => e <> ClickStart) evs ->
            incl (transports (browser (run s evs))) (transports (browser s)).
Proof.
  induction evs as [|e evs IH]; intros s H; [apply incl_refl|].
  inversion H as [|? ? He Hevs]; subst. cbn [run fold_left].
  eapply incl_tran; [apply (IH _ Hevs)|]. now apply only_ClickStart_opens.
Qed.

End Transports.

Section AfterDisconnect.

Lemma onMessage_TurnComplete_idle (s : State) :
  currentInputRef s = [] -> currentOutputRef s = [] -> timers (browser s) = [] ->
  onMessage TurnComplete s = s.
Proof.
  intros Hi Ho Ht.
  destruct s as [cs ref inp outp li lo sp pt hist l b]. cbn in *. subst.
  destruct b as [n ts nt tr cn st cx mr nh ob]. cbn in *. subst.
  unfold onMessage, onTurnComplete, commitInputToHistory. cbn.
  destruct ref; reflexivity.
Qed.

(** C8, as the code has it.  After [handleDisconnect] has returned, an
    event that arrives late is handled by the same callback as before and
    none fails.  Error, Closed and TurnComplete change nothing of the
    transcript: no text accumulated, no timer started, no entry.  A partial
    transcript is still accumulated, and on the human channel it starts the
    debounce timer. *)
Theorem events_after_disconnect (s s1 : State) (h : nat) (d : jsstring) :
  handleDisconnect s = Returned s1 ->
  timers_ok s ->
  d <> [] ->
  same_transcript s1 (step s1 TransportError)
  /\ same_transcript s1 (step s1 (Close h))
  /\ step s1 (Message TurnComplete) = s1
  /\ (let s2 := step s1 (Message (PartialTranscript_agent d)) in
      currentOutputRef s2 = d
      /\ transcriptHistory s2 = transcriptHistory s1
      /\ timers (browser s2) = [])
  /\ (let s2 := step s1 (Message (PartialTranscript_human d)) in
      currentInputRef s2 = d
      /\ transcriptHistory s2 = transcriptHistory s1
      /\ timers (browser s2) = [(nextTimer (browser s1), now (browser s1) + 1500)]).
Proof.
  intros H Hok Hd.
  destruct (handleDisconnect_cases s) as (s0 & Hs & _ & [E|[E|E]]);
    rewrite E in H; try discriminate. injection H as <-.
  pose proof (same_transcript_timers_ok _ _ Hs Hok) as Hok0.
  pose proof (handleDisconnect_resume_timers_ok s0 Hok0) as Hok1.
  destruct (handleDisconnect_resume_state s0)
    as (_ & R2 & R3 & _ & _ & _ & R7 & R8 & _).
  cbv zeta in *.
  assert (Ht : timers (browser (handleDisconnect_resume s0)) = []).
  { rewrite R8. destruct (debounceTimerRef s0) as [t|] eqn:Hr.
    - now apply clear_ref_timers.
    - now apply timers_ok_no_ref. }
  clear R7 R8.
  generalize dependent (handleDisconnect_resume s0). intros s1 E Hok1 R2 R3 Ht.
  split; [apply onError_same|].
  split.
  { cbn [step]. eapply same_transcript_trans; [apply drop_transport_same|apply onClose_same]. }
  split; [cbn [step]; now apply onMessage_TurnComplete_idle|].
  split.
  - cbv zeta. cbn [step]. rewrite onMessage_agent.
    destruct (onOutputTranscription_frame
                (serverContent (PartialTranscript_agent d)) s1)
      as (F1 & _ & _ & _ & F5 & _).
    cbv zeta in *. rewrite onOutputTranscription_buffer, F1, F5, R3, Ht.
    repeat split.
  - cbv zeta. cbn [step]. rewrite onMessage_human.
    destruct (onInputTranscription_delta
                {| inputTranscription := Some {| text := Some d |};
                   outputTranscription := None; turnComplete := None |} s1)
      as (D1 & _ & D3 & _ & D5 & _); [exact Hd|exact Hok1|].
    cbv zeta in *. cbn [delta inputTranscription] in D1. rewrite R2 in D1.
    repeat split; assumption.
Qed.

(** A connected session is ended and a human delta arrives afterwards. *)
Lemma events_after_disconnect_witness :
  let s1 := state_of (handleDisconnect connected) in
  step s1 (Message TurnComplete) = s1
  /\ currentInputRef (step s1 (Message (PartialTranscript_human (str "late")))) = str "late".
Proof.
  cbv zeta.
  assert (E : handleDisconnect connected = Returned (state_of (handleDisconnect connected)))
    by (vm_compute; reflexivity).
  assert (Hd : str "late" <> []) by discriminate.
  destruct (events_after_disconnect connected (state_of (handleDisconnect connected))
              0%nat (str "late") E (run_timers_ok _ init init_timers_ok) Hd)
    as (_ & _ & H3 & _ & H5 & _).
  split; [exact H3|exact H5].
Defined.

(** C8 as stated fails: a human delta delivered after End Session (the
    click, then the closing of the audio context, at which the call goes on
    to its end) is accumulated, starts the timer, and is committed when the
    timer fires. *)
Lemma late_delta_is_committed :
  let s1 := run connected [ClickEnd; ContextClosed 2%nat] in
  let s2 := step s1 (Message (PartialTranscript_human (str "late"))) in
  connectionState s1 = DISCONNECTED
  /\ transports (browser s1) = []
  /\ transcriptHistory s1 = []
  /\ currentInputRef s2 = str "late"
  /\ timers (browser s2) = [(1%positive, 1500)]
  /\ transcriptHistory (step s2 (Elapse 1500))
     = [TranscriptItem.mk (str "1500-user") user (str "late") 1500].
Proof. vm_compute. repeat split. Qed.

End AfterDisconnect.

(** ** C4, C5: errors, closes and connects *)

Section Connection.

(** C4 on the code.  An Error or Closed event sets the state and nothing
    else: the microphone stream and the audio context of the service stay
    as they were.  No transport is opened by the event, nor by anything that
    follows it short of a click on Start Interview.  On a connected session
    the stream and the context are still live after the event, and the next
    audio frame is still encoded and sent; after an error and a new connect
    two streams and two contexts are live, and the first pair outlives the
    disconnect that follows. *)
Theorem error_and_close_leave_capture_running (s : State) (h : nat) (evs : list Event) :
  let e := step s TransportError in
  let c := step s (Close h) in
  (connectionState e = ERROR /\ connectionState c = DISCONNECTED)
  /\ (liveService e = liveService s /\ browser e = browser s)
  /\ (liveService c = liveService s
      /\ streams (browser c) = streams (browser s)
      /\ contexts (browser c) = contexts (browser s)
      /\ nextHandle (browser c) = nextHandle (browser s)
      /\ transports (browser c) = remove h (transports (browser s)))
  /\ (incl (transports (browser (run e (List.filter not_ClickStart evs))))
           (transports (browser s))
      /\ incl (transports (browser (run c (List.filter not_ClickStart evs))))
              (transports (browser s)))
  /\ (streams (browser (step connected TransportError)) = [1%nat]
      /\ contexts (browser (step connected TransportError)) = [2%nat]
      /\ streams (browser (step connected (Close 0%nat))) = [1%nat]
      /\ contexts (browser (step connected (Close 0%nat))) = [2%nat]
      /\ length (outbox (browser (run connected
                   [TransportError; AudioProcess 2%nat [Number.Finite 1 0]])))
         = S (length (outbox (browser connected))))
  /\ (let again := run connected [TransportError; ClickStart; Open 3%nat; MicGranted] in
      streams (browser again) = [1%nat; 4%nat]
      /\ contexts (browser again) = [2%nat; 5%nat]
      /\ streams (browser (state_of (handleDisconnect again))) = [1%nat]
      /\ contexts (browser (state_of (handleDisconnect again))) = [2%nat]).
Proof.
  assert (Hf : Forall (fun e => e <> ClickStart) (List.filter not_ClickStart evs)).
  { apply List.Forall_forall. intros e He. apply filter_In in He.
    destruct He as (_ & He). now destruct e. }
  cbv zeta. split; [|split; [|split; [|split; [|split]]]].
  - split; reflexivity.
  - split; reflexivity.
  - repeat split.
  - split.
    + apply (no_ClickStart_no_transport _ (step s TransportError) Hf).
    + eapply incl_tran; [apply (no_ClickStart_no_transport _ (step s (Close h)) Hf)|].
      cbn. apply incl_filter.
  - vm_compute. repeat split.
  - vm_compute. repeat split.
Qed.

(** C5, as the code has it.  The Start Interview control is not rendered
    while CONNECTED and is disabled while CONNECTING: a click then changes
    nothing.  From DISCONNECTED and from ERROR the click runs
    [handleConnect], which moves to CONNECTING and opens one new transport,
    whose pending promise replaces the stored one; the transcript is not
    touched.  Nothing but such a click opens a transport. *)
Theorem connect_gate (s : State) (evs : list Event) :
  match connectionState s with
  | CONNECTED | CONNECTING => step s ClickStart = s
  | DISCONNECTED | ERROR =>
      let s' := step s ClickStart in
      s' = handleConnect s
      /\ connectionState s' = CONNECTING
      /\ transports (browser s') = transports (browser s) ++ [nextHandle (browser s)]
      /\ sessionPromise (liveService s') = Some (Pending (nextHandle (browser s)))
      /\ same_transcript s s'
  end
  /\ incl (transports (browser (run s (List.filter not_ClickStart evs))))
          (transports (browser s)).
Proof.
  split.
  - cbn [step]. destruct (connectionState s); cbv zeta;
      try reflexivity; repeat split.
  - apply no_ClickStart_no_transport.
    apply List.Forall_forall. intros e He. apply filter_In in He.
    destruct He as (_ & He). now destruct e.
Qed.

(** C5 as stated fails.  When the microphone is denied the session is in
    ERROR with its transport still open; Start Interview is accepted there
    and opens a second transport beside the first.  And [handleConnect]
    itself has no guard: run on a connected session it moves to CONNECTING
    and opens a transport. *)
Lemma connect_from_error_opens_second_transport :
  let s := run init [ClickStart; Open 0%nat; MicDenied] in
  connectionState s = ERROR
  /\ transports (browser s) = [0%nat]
  /\ connectionState (step s ClickStart) = CONNECTING
  /\ transports (browser (step s ClickStart)) = [0%nat; 1%nat]
  /\ connectionState connected = CONNECTED
  /\ connectionState (handleConnect connected) = CONNECTING
  /\ transports (browser (handleConnect connected)) = [0%nat; 3%nat].
Proof. vm_compute. repeat split. Qed.

End Connection.

(** ** C7, C10: what the history holds *)

Section History.

(** *** What the guards let through *)

Lemma run_timers_blank (fuel : nat) (target : N) :
  forall s, trim (currentInputRef s) = [] ->
            transcriptHistory (run_timers fuel target s) = transcriptHistory s
            /\ updateQueue (scheduler (run_timers fuel target s))
               = updateQueue (scheduler s).
Proof.
  induction fuel as [|fuel IH]; intros s Hb; cbn; [now split|].
  destruct (earliest_due target (timers (browser s))) as [[t d]|]; [|now split].
  set (s0 := set_browser _ s).
  assert (Hb0 : trim (currentInputRef s0) = []) by exact Hb.
  destruct (IH (commitInputToHistory s0)) as (E1 & E2).
  - rewrite commitInputToHistory_buffer, Hb0. exact Hb0.
  - rewrite E1, E2, commitInputToHistory_history, commitInputToHistory_queue, Hb0.
    cbn. now rewrite !app_nil_r.
Qed.

(** C7. Each commit path has its guard: from a state [b] whose buffers and
    paste area are blank, the firing of the timer, TurnComplete, the
    completion of End Session and Add to Transcript dispatch no update of
    the history, which stays as it is, and so does the queue of its
    updates.  Yet the history does come to hold an entry with an empty
    text.  When TurnComplete finds text in both buffers, the update of the
    agent channel is queued behind the one of the human channel; its
    updater reads [currentOutputRef] when React runs it, and by then the
    handler has emptied the buffer: the entry of the agent channel is
    appended with the text ''. *)
Theorem empty_text_is_committed (b : State) (e : Event) (d : N) :
  trim (currentInputRef b) = [] ->
  trim (currentOutputRef b) = [] ->
  trim (pastedText b) = [] ->
  e = Elapse d \/ e = Message TurnComplete \/ e = ClickAdd \/ completes b e ->
  (transcriptHistory (step b e) = transcriptHistory b
   /\ updateQueue (scheduler (step b e)) = updateQueue (scheduler b))
  /\ let s := run connected
                [Message (PartialTranscript_human (str "I felt lost"));
                 Message (PartialTranscript_agent (str "I see"));
                 Message TurnComplete; Render] in
     map TranscriptItem.speaker (transcriptHistory s) = [user; model]
     /\ map TranscriptItem.text (transcriptHistory s) = [str "I felt lost"; []]
     /\ currentOutputRef s = []
     /\ ~ Forall (fun item => TranscriptItem.text item <> []) (transcriptHistory s).
Proof.
  intros Hi Ho Hp He. split.
  - destruct He as [->|[->|[->|He]]].
    + cbn [step]. unfold elapse. cbn. now apply run_timers_blank.
    + cbn [step].
      change (onMessage TurnComplete b)
        with (onTurnComplete
                (Some {| inputTranscription := None; outputTranscription := None;
                         turnComplete := Some true |}) b).
      rewrite onTurnComplete_history, onTurnComplete_queue by reflexivity.
      rewrite Hi, Ho. cbn. now rewrite !app_nil_r.
    + cbn [step]. rewrite Hp. cbn. now rewrite andb_false_r.
    + destruct (completes_resume b e He) as (s0 & -> & Hs & _).
      destruct Hs as (Hh & Hin & _ & _ & _ & _ & _ & _ & _ & Hq & _).
      destruct (handleDisconnect_resume_state s0) as (R1 & _). cbv zeta in R1.
      destruct (handleDisconnect_resume_updates s0) as (U1 & _). cbv zeta in U1.
      rewrite R1, U1, Hin, Hi, Hh, Hq. cbn. now rewrite !app_nil_r.
  - cbv zeta. split; [vm_compute; reflexivity|]. split; [vm_compute; reflexivity|].
    split; [vm_compute; reflexivity|].
    intros F.
    assert (E : exists a c, transcriptHistory
               (run connected
                  [Message (PartialTranscript_human (str "I felt lost"));
                   Message (PartialTranscript_agent (str "I see"));
                   Message TurnComplete; Render]) = [a; c] /\ TranscriptItem.text c = []).
    { eexists _, _. split; vm_compute; reflexivity. }
    destruct E as (a & c & E & Ec). rewrite E in F.
    inversion F as [|? ? _ F']. inversion F' as [|? ? Hc _]. now apply Hc.
Qed.

(** A session in which only blanks were spoken and pasted: the timer
    fires and nothing is appended. *)
Lemma empty_text_is_committed_witness :
  let b := run connected
             [Message (PartialTranscript_human (str "  "));
              Message (PartialTranscript_agent (str " "));
              ClickPaste; TypePaste (str "   ")] in
  currentInputRef b = str "  "
  /\ transcriptHistory (run b [Elapse 1500; Message TurnComplete; ClickAdd; ClickEnd]) = []
  /\ transcriptHistory (step b (Elapse 1500)) = transcriptHistory b.
Proof.
  cbv zeta. split; [vm_compute; reflexivity|]. split; [vm_compute; reflexivity|].
  refine (proj1 (proj1 (empty_text_is_committed _ (Elapse 1500) 1500 _ _ _ _))).
  - vm_compute. reflexivity.
  - vm_compute. reflexivity.
  - vm_compute. reflexivity.
  - now left.
Defined.

(** *** Where the texts come from *)

Lemma tail_of_nil (pieces : list jsstring) : tail_of pieces [].
Proof. exists pieces, []. now rewrite app_nil_r. Qed.



Lemma run_of_app (pieces more : list jsstring) (raw : jsstring) :
  run_of pieces raw -> run_of (pieces ++ more) raw.
Proof.
  intros (b & t & a & -> & ->). exists b, t, (a ++ more).
  split; [|reflexivity]. now rewrite <- !app_assoc.
Qed.

Lemma entry_from_app (H A T H' A' T' : list jsstring) (w : Writer)
      (item : TranscriptItem.t) :
  entry_from H A T w item -> entry_from (H ++ H') (A ++ A') (T ++ T') w item.
Proof.
  intros (at_ & raw & -> & Hr). exists at_, raw. split; [reflexivity|].
  destruct w; [now apply run_of_app | apply in_or_app; now left | now apply run_of_app].
Qed.


Lemma provenance_app (H A T H' A' T' : list jsstring) (s : State) :
  provenance H A T s ->
  currentInputRef s = [] \/ H' = [] ->
  currentOutputRef s = [] \/ A' = [] ->
  provenance (H ++ H') (A ++ A') (T ++ T') s.
Proof.
  intros (Pi & Po & Pp & Pq & Ph) Hi Ho. unfold provenance.
  split; [|split; [|split; [|split]]].
  - destruct Hi as [->| ->]; [apply tail_of_nil | now rewrite app_nil_r].
  - destruct Ho as [->| ->]; [apply tail_of_nil | now rewrite app_nil_r].
  - destruct Pp as [Pp|Pp]; [now left | right; apply in_or_app; now left].
  - intros p Hp. apply in_or_app. left. now apply Pq.
  - eapply List.Forall_impl; [|exact Ph].
    intros item (w & Hw). exists w. now apply entry_from_app.
Qed.















End History.

(** ** [sanitizeJourneyMap] *)

Section Sanitize.

Lemma map_throwing_sanitizeStage (items : list JSON) :
  map_throwing sanitizeStage items
  = if existsb is_null items then Throws TypeError
    else Value (map stage_literal items).
Proof.
  induction items as [|x items IH]; [reflexivity|].
  cbn [map_throwing existsb map].
  destruct x; cbn [sanitizeStage is_null orb]; try reflexivity;
    rewrite IH; destruct (existsb is_null items); reflexivity.
Qed.

Lemma sanitizeJourneyMap_object (data : JSON) :
  typeof_object data = true -> data <> JNull ->
  sanitizeJourneyMap data
  = if existsb is_null (array_or_empty (get data (str "stages")))
    then Throws TypeError
    else Value (JourneyMapData.mk
                  (or_else (get data (str "title")) (JString (str "Untitled Journey")))
                  (map stage_literal (array_or_empty (get data (str "stages"))))).
Proof.
  intros Ho Hn. unfold sanitizeJourneyMap.
  rewrite map_throwing_sanitizeStage.
  destruct data; try discriminate; try congruence; cbn [truthy_value typeof_object negb orb];
    destruct (existsb is_null _); reflexivity.
Qed.

(** X1. [sanitizeJourneyMap] rejects null and every primitive with its own
    error; an array or an object it accepts, unless the stages hold a null,
    on which the callback of [map] throws a TypeError. *)
Theorem sanitizeJourneyMap_throws (data : JSON) :
  match data with
  | JArray _ | JObject _ =>
      if existsb is_null (array_or_empty (get data (str "stages")))
      then sanitizeJourneyMap data = Throws TypeError
      else exists m, sanitizeJourneyMap data = Value m
  | JNull | JBool _ | JNumber _ | JString _ =>
      sanitizeJourneyMap data
      = Throws (Error (str "Invalid data format received from AI"))
  end.
Proof.
  destruct data as [|b|n|s|items|members].
  - reflexivity.
  - unfold sanitizeJourneyMap. cbn. now destruct b.
  - unfold sanitizeJourneyMap. cbn [typeof_object negb]. now rewrite orb_true_r.
  - unfold sanitizeJourneyMap. cbn [typeof_object negb]. now rewrite orb_true_r.
  - rewrite sanitizeJourneyMap_object by (reflexivity || discriminate).
    destruct (existsb is_null _); [reflexivity|eauto].
  - rewrite sanitizeJourneyMap_object by (reflexivity || discriminate).
    destruct (existsb is_null _); [reflexivity|eauto].
Qed.

Lemma or_else_truthy (v : option JSON) (d : JSON) :
  truthy_value (Some d) = true -> truthy_value (Some (or_else v d)) = true.
Proof.
  intros Hd. unfold or_else. destruct v as [x|]; [|exact Hd].
  destruct (truthy_value (Some x)) eqn:E; [exact E|exact Hd].
Qed.

Lemma or_else_keeps (x d : JSON) :
  truthy_value (Some x) = true -> or_else (Some x) d = x.
Proof. intros H. unfold or_else. now rewrite H. Qed.

Lemma stage_literal_object (stage : JourneyStage.t) :
  truthy_value (Some (JourneyStage.name stage)) = true ->
  truthy_value (Some (JourneyStage.emotions stage)) = true ->
  stage_literal (stage_object stage) = stage.
Proof.
  intros Hn He. destruct stage as [n ua tp em pp op]. cbn in Hn, He.
  unfold stage_literal, stage_object.
  change (get _ (str "name")) with (Some n).
  change (get _ (str "userActions")) with (Some (JArray ua)).
  change (get _ (str "touchpoints")) with (Some (JArray tp)).
  change (get _ (str "emotions")) with (Some em).
  change (get _ (str "painPoints")) with (Some (JArray pp)).
  change (get _ (str "opportunities")) with (Some (JArray op)).
  now rewrite (or_else_keeps n _ Hn), (or_else_keeps em _ He).
Qed.

Lemma stage_literal_truthy (stage : JSON) :
  truthy_value (Some (JourneyStage.name (stage_literal stage))) = true
  /\ truthy_value (Some (JourneyStage.emotions (stage_literal stage))) = true.
Proof. split; apply or_else_truthy; reflexivity. Qed.

Lemma stage_object_not_null (stages : list JourneyStage.t) :
  existsb is_null (map stage_object stages) = false.
Proof. induction stages as [|x l IH]; [reflexivity|exact IH]. Qed.

(** A map whose title, stage names and emotions are truthy, as every map
    that [sanitizeJourneyMap] returns, is returned as it is. *)
Lemma sanitizeJourneyMap_fixpoint (m : JourneyMapData.t) :
  truthy_value (Some (JourneyMapData.title m)) = true ->
  Forall (fun stage =>
            truthy_value (Some (JourneyStage.name stage)) = true
            /\ truthy_value (Some (JourneyStage.emotions stage)) = true)
    (JourneyMapData.stages m) ->
  sanitizeJourneyMap (map_object m) = Value m.
Proof.
  intros Ht Hs. destruct m as [t stages]. cbn in Ht, Hs.
  rewrite sanitizeJourneyMap_object by (reflexivity || discriminate).
  unfold map_object. cbn [JourneyMapData.title JourneyMapData.stages].
  change (get _ (str "stages")) with (Some (JArray (map stage_object stages))).
  change (get _ (str "title")) with (Some t).
  cbn [array_or_empty]. rewrite stage_object_not_null, (or_else_keeps t _ Ht).
  f_equal. f_equal. rewrite map_map.
  induction Hs as [|x l (Hn & He) Hl IH]; [reflexivity|].
  cbn [map]. now rewrite IH, (stage_literal_object x Hn He).
Qed.

(** X2. What [sanitizeJourneyMap] returns has one stage for each element of
    the [stages] array, in order (none when [stages] is missing or not an
    array), with a truthy title, and a truthy name and emotions in every
    stage: the defaults stand in for what is missing, empty, null or
    zero. *)
Theorem sanitizeJourneyMap_defaults (data : JSON) (m : JourneyMapData.t) :
  sanitizeJourneyMap data = Value m ->
  JourneyMapData.stages m
  = map stage_literal (array_or_empty (get data (str "stages")))
  /\ JourneyMapData.title m
     = or_else (get data (str "title")) (JString (str "Untitled Journey"))
  /\ truthy_value (Some (JourneyMapData.title m)) = true
  /\ Forall (fun stage =>
               truthy_value (Some (JourneyStage.name stage)) = true
               /\ truthy_value (Some (JourneyStage.emotions stage)) = true)
       (JourneyMapData.stages m).
Proof.
  intros H.
  assert (Hobj : typeof_object data = true /\ data <> JNull).
  { destruct data as [|b|n|s|items|members]; try (split; [reflexivity|discriminate]);
      exfalso; revert H; unfold sanitizeJourneyMap; cbn [typeof_object negb truthy_value orb];
      rewrite ?orb_true_r; discriminate. }
  destruct Hobj as (Ho & Hn). rewrite (sanitizeJourneyMap_object data Ho Hn) in H.
  destruct (existsb is_null _); [discriminate|]. injection H as <-.
  cbn [JourneyMapData.stages JourneyMapData.title].
  split; [reflexivity|]. split; [reflexivity|].
  split; [apply or_else_truthy; reflexivity|].
  apply Forall_map. apply List.Forall_forall. intros x _. apply stage_literal_truthy.
Qed.

Lemma sanitizeJourneyMap_defaults_witness :
  sanitizeJourneyMap
    (JObject [(str "stages", JArray [JObject [(str "name", JString [])];
                                     JString (str "Exit")])])
  = Value (JourneyMapData.mk (JString (str "Untitled Journey"))
             [JourneyStage.mk (JString (str "Unknown Stage")) [] []
                (JString neutral_face) [] [];
              JourneyStage.mk (JString (str "Unknown Stage")) [] []
                (JString neutral_face) [] []])
  /\ length (JourneyMapData.stages
               (JourneyMapData.mk (JString (str "Untitled Journey"))
                  [JourneyStage.mk (JString (str "Unknown Stage")) [] []
                     (JString neutral_face) [] [];
                   JourneyStage.mk (JString (str "Unknown Stage")) [] []
                     (JString neutral_face) [] []])) = 2%nat.
Proof.
  assert (E : sanitizeJourneyMap
    (JObject [(str "stages", JArray [JObject [(str "name", JString [])];
                                     JString (str "Exit")])])
  = Value (JourneyMapData.mk (JString (str "Untitled Journey"))
             [JourneyStage.mk (JString (str "Unknown Stage")) [] []
                (JString neutral_face) [] [];
              JourneyStage.mk (JString (str "Unknown Stage")) [] []
                (JString neutral_face) [] []])) by (vm_compute; reflexivity).
  split; [exact E|].
  destruct (sanitizeJourneyMap_defaults _ _ E) as (H & _). now rewrite H.
Defined.

(** X3. Sanitizing is idempotent: a map that [sanitizeJourneyMap] returned,
    passed again as the object it is, comes back unchanged. *)
Theorem sanitizeJourneyMap_idempotent (data : JSON) (m : JourneyMapData.t) :
  sanitizeJourneyMap data = Value m ->
  sanitizeJourneyMap (map_object m) = Value m.
Proof.
  intros H.
  assert (Hobj : typeof_object data = true /\ data <> JNull).
  { destruct data as [|b|n|s|items|members]; try (split; [reflexivity|discriminate]);
      exfalso; revert H; unfold sanitizeJourneyMap; cbn [typeof_object negb truthy_value orb];
      rewrite ?orb_true_r; discriminate. }
  destruct Hobj as (Ho & Hn). rewrite (sanitizeJourneyMap_object data Ho Hn) in H.
  destruct (existsb is_null _); [discriminate|]. injection H as <-.
  apply sanitizeJourneyMap_fixpoint; cbn [JourneyMapData.stages JourneyMapData.title].
  - apply or_else_truthy. reflexivity.
  - apply Forall_map. apply List.Forall_forall. intros x _. apply stage_literal_truthy.
Qed.

Lemma sanitizeJourneyMap_idempotent_witness :
  sanitizeJourneyMap
    (map_object (JourneyMapData.mk (JString (str "Untitled Journey"))
                   [JourneyStage.mk (JString (str "Unknown Stage")) [] []
                      (JString neutral_face) [] []]))
  = Value (JourneyMapData.mk (JString (str "Untitled Journey"))
             [JourneyStage.mk (JString (str "Unknown Stage")) [] []
                (JString neutral_face) [] []]).
Proof.
  apply (sanitizeJourneyMap_idempotent
           (JObject [(str "stages", JArray [JBool true])])).
  vm_compute. reflexivity.
Defined.

End Sanitize.

(** ** The Markdown fence around the answer *)

Section Fence.

Lemma jsstring_eqb_eq (a b : jsstring) : jsstring_eqb a b = true <-> a = b.
Proof.
  revert b. induction a as [|x a IH]; intros [|y b]; cbn; split; try congruence.
  - intros H. apply andb_prop in H. destruct H as (H1 & H2).
    apply N.eqb_eq in H1. apply IH in H2. congruence.
  - intros H. injection H as -> ->. rewrite N.eqb_refl. now apply IH.
Qed.

Lemma startsWith_app (p x : jsstring) : startsWith p (p ++ x) = true.
Proof.
  unfold startsWith. apply jsstring_eqb_eq.
  now rewrite take_app_length.
Qed.

Lemma startsWith_app_app (p q x : jsstring) :
  startsWith (p ++ q) (p ++ x) = startsWith q x.
Proof.
  unfold startsWith. induction p as [|c p IH]; [reflexivity|].
  cbn. now rewrite N.eqb_refl.
Qed.

Lemma endsWith_app (x p : jsstring) : endsWith p (x ++ p) = true.
Proof.
  unfold endsWith. apply jsstring_eqb_eq.
  rewrite length_app. replace (length x + length p - length p)%nat with (length x) by lia.
  now rewrite drop_app_length.
Qed.

Lemma blank_forallb (b : jsstring) : trim b = [] <-> forallb is_ws b = true.
Proof.
  split.
  - intros H. apply trimStart_blank in H.
    induction b as [|c b IH]; [reflexivity|].
    cbn in *. destruct (is_ws c); [now apply IH|discriminate].
  - intros H. assert (E : trimStart b = []).
    { induction b as [|c b IH]; [reflexivity|].
      cbn in *. apply andb_prop in H. destruct H as (-> & H). now apply IH. }
    unfold trim. now rewrite E.
Qed.

Lemma blank_rev (b : jsstring) : trim b = [] -> trim (rev b) = [].
Proof.
  rewrite !blank_forallb, !forallb_forall. intros H x Hx.
  apply H. now apply in_rev.
Qed.

Lemma trimStart_trim (s : jsstring) : trimStart (trim s) = trim s.
Proof.
  unfold trim.
  destruct (trimStart_head s) as [->|(c & r & -> & H)]; [reflexivity|].
  rewrite (trimEnd_keep _ _ H). now apply trimStart_keep.
Qed.

Lemma trimEnd_trim (s : jsstring) : trimEnd (trim s) = trim s.
Proof. unfold trim. apply trimEnd_idem. Qed.

Lemma trimEnd_blank_app (x b : jsstring) :
  trim b = [] -> trimEnd (x ++ b) = trimEnd x.
Proof.
  intros H. unfold trimEnd. rewrite rev_app_distr.
  now rewrite (trimStart_blank_app _ _ (trimStart_blank _ (blank_rev b H))).
Qed.

Lemma fence_not_blank (x : jsstring) : trimStart (fence ++ x) = fence ++ x.
Proof. reflexivity. Qed.

(** X4. An answer wrapped in a Markdown code fence, tagged json or not, with
    white space inside the fence on either side, is unwrapped to the text it
    holds. *)
Theorem unwrapMarkdown_fenced (tagged : bool) (ws1 body ws2 : jsstring) :
  trim ws1 = [] ->
  trim ws2 = [] ->
  trim body = body ->
  (tagged = false -> startsWith (str "json") (ws1 ++ body ++ ws2 ++ fence) = false) ->
  unwrapMarkdown ((if tagged then fence_json else fence) ++ ws1 ++ body ++ ws2 ++ fence)
  = body.
Proof.
  intros H1 H2 Hb Htag.
  assert (Hopen : trimStart (ws1 ++ body ++ ws2 ++ fence)
                  = if truthy body then body ++ ws2 ++ fence else fence).
  { rewrite (trimStart_blank_app _ _ (trimStart_blank _ H1)).
    destruct body as [|c r]; cbn [truthy app].
    - rewrite (trimStart_blank_app _ _ (trimStart_blank _ H2)). reflexivity.
    - pose proof (trimStart_trim (c :: r)) as E. rewrite Hb in E.
      cbn in E |- *. destruct (is_ws c); [|reflexivity].
      exfalso. assert (L : (length (trimStart r) <= length r)%nat).
      { clear. induction r as [|a r IH]; cbn; [lia|]. destruct (is_ws a); cbn; lia. }
      rewrite E in L. cbn in L. lia. }
  assert (Hclose : replace_closing (if truthy body then body ++ ws2 ++ fence else fence) = body).
  { unfold replace_closing. destruct body as [|c r]; cbn [truthy]; [reflexivity|].
    rewrite !app_assoc, endsWith_app.
    rewrite length_app.
    replace (length ((c :: r) ++ ws2) + length fence - length fence)%nat
      with (length ((c :: r) ++ ws2)) by lia.
    rewrite take_app_length, (trimEnd_blank_app _ _ H2).
    rewrite <- Hb at 1. rewrite trimEnd_trim. exact Hb. }
  unfold unwrapMarkdown. destruct tagged.
  - rewrite startsWith_app. unfold replace_opening.
    rewrite startsWith_app, drop_app_length, Hopen. exact Hclose.
  - change fence_json with (fence ++ str "json").
    rewrite startsWith_app_app, (Htag eq_refl), startsWith_app.
    unfold replace_opening. rewrite startsWith_app, drop_app_length, Hopen. exact Hclose.
Qed.

Lemma unwrapMarkdown_fenced_witness :
  unwrapMarkdown (str "```json" ++ [10] ++ str "{}" ++ [10] ++ str "```") = str "{}"
  /\ unwrapMarkdown (str "```" ++ [10] ++ str "{}" ++ [32; 10] ++ str "```") = str "{}".
Proof.
  split.
  - apply (unwrapMarkdown_fenced true [10] (str "{}") [10]); reflexivity.
  - apply (unwrapMarkdown_fenced false [10] (str "{}") [32; 10]); reflexivity.
Defined.

Lemma startsWith_fence_json (s : jsstring) :
  startsWith fence s = false -> startsWith fence_json s = false.
Proof.
  intros H. destruct (startsWith fence_json s) eqn:E; [|reflexivity].
  unfold startsWith in E. apply jsstring_eqb_eq in E.
  rewrite <- (take_drop (length fence_json) s), E in H.
  change fence_json with (fence ++ str "json") in H.
  rewrite <- app_assoc, startsWith_app in H. discriminate.
Qed.

(** X5. An answer that does not open with a fence is left as it is, whatever
    it holds further on. *)
Theorem unwrapMarkdown_plain (jsonText : jsstring) :
  startsWith fence jsonText = false ->
  unwrapMarkdown jsonText = jsonText.
Proof.
  intros H. unfold unwrapMarkdown.
  now rewrite (startsWith_fence_json _ H), H.
Qed.

Lemma unwrapMarkdown_plain_witness :
  unwrapMarkdown (str "{} ```") = str "{} ```".
Proof. apply unwrapMarkdown_plain. reflexivity. Defined.

End Fence.

(** ** The analysis and its callers *)

Section AnalysisProperties.

Variable JSON_parse : jsstring -> option JSON.

Lemma analyzeTranscriptForMap_null_aux
  (transcriptHistory : list TranscriptItem.t) (api : ApiResult) :
  analyzeTranscriptForMap JSON_parse transcriptHistory api = Value None ->
  transcriptHistory = [].
Proof.
  destruct transcriptHistory as [|item rest]; [reflexivity|].
  cbn. destruct api as [|e|[[|c t]|]]; try discriminate.
  destruct (JSON_parse _); [|discriminate].
  destruct (sanitizeJourneyMap _); discriminate.
Qed.

(** [analyzeTranscriptForMap] resolves to null for the empty history,
    whatever the model would have answered, and for no other history: there
    it resolves to a map or throws. *)
Lemma analyzeTranscriptForMap_null
  (transcriptHistory : list TranscriptItem.t) (api : ApiResult) :
  analyzeTranscriptForMap JSON_parse transcriptHistory api = Value None
  <-> transcriptHistory = [].
Proof.
  split; [apply analyzeTranscriptForMap_null_aux|now intros ->].
Qed.

(** X6. [handleGenerateMap], run to its end: with an empty transcript it
    only alerts; otherwise the loading flag is back to false however the
    analysis ended, the map is replaced exactly when the analysis gave one
    and kept when it threw, with one alert for the failure; the alert for an
    empty result is never shown. *)
Theorem handleGenerateMap_settles
  (transcriptHistory : list TranscriptItem.t) (api : ApiResult) (app : App) :
  let app' := handleGenerateMap JSON_parse transcriptHistory api app in
  match transcriptHistory with
  | [] =>
      journeyMap app' = journeyMap app
      /\ isMapLoading app' = isMapLoading app
      /\ alerts app' = alerts app ++ [NoTranscript]
  | _ :: _ =>
      isMapLoading app' = false
      /\ match analyzeTranscriptForMap JSON_parse transcriptHistory api with
         | Value (Some map) => journeyMap app' = Some map /\ alerts app' = alerts app
         | Value None => False
         | Throws e =>
             journeyMap app' = journeyMap app
             /\ alerts app' = alerts app ++ [FailedToGenerate e]
         end
  end.
Proof.
  cbv zeta. destruct transcriptHistory as [|item rest]; [repeat split|].
  split; [reflexivity|].
  unfold handleGenerateMap. cbn [handleGenerateMap_start].
  destruct (analyzeTranscriptForMap JSON_parse (item :: rest) api) as [[m|]|e] eqn:E;
    [repeat split| |repeat split].
  apply analyzeTranscriptForMap_null_aux in E. discriminate.
Qed.

End AnalysisProperties.

(** ** The snippet of [generateFollowUpQuestions] *)

Section Snippet.

Lemma slice_last_app {A : Type} (n : nat) (older recent : list A) :
  length recent = n -> slice_last n (older ++ recent) = recent.
Proof.
  intros H. unfold slice_last. rewrite length_app, H.
  replace (length older + n - n)%nat with (length older) by lia.
  apply drop_app_length.
Qed.

Lemma slice_last_short {A : Type} (n : nat) (items : list A) :
  (length items <= n)%nat -> slice_last n items = items.
Proof.
  intros H. unfold slice_last.
  replace (length items - n)%nat with 0%nat by lia. reflexivity.
Qed.

(** X7. The snippet sent for follow-up questions quotes the last ten entries
    of the history and nothing older: two histories that end with the same
    ten entries give the same snippet, and a history of at most ten entries
    is quoted whole. *)
Theorem followUpSnippet_last_ten
  (older older' recent short : list TranscriptItem.t) :
  length recent = 10%nat ->
  (length short <= 10)%nat ->
  followUpSnippet (older ++ recent) = followUpSnippet (older' ++ recent)
  /\ slice_last 10 (older ++ recent) = recent
  /\ slice_last 10 short = short.
Proof.
  intros H Hs. unfold followUpSnippet.
  rewrite !(slice_last_app 10 _ recent H).
  repeat split. now apply slice_last_short.
Qed.

Lemma followUpSnippet_last_ten_witness :
  let item := TranscriptItem.mk (str "0-user") user (str "hm") 0 in
  let old := TranscriptItem.mk (str "0-agent") model (str "Welcome") 0 in
  followUpSnippet (old :: repeat item 10) = followUpSnippet (repeat item 10)
  /\ followUpSnippet [old; item] = str "AI: Welcome" ++ [10] ++ str "Human: hm".
Proof.
  cbv zeta. split; [|vm_compute; reflexivity].
  refine (proj1 (followUpSnippet_last_ten
                   [TranscriptItem.mk (str "0-agent") model (str "Welcome") 0] []
                   (repeat (TranscriptItem.mk (str "0-user") user (str "hm") 0) 10)
                   [] _ _)).
  - reflexivity.
  - cbn. lia.
Defined.

End Snippet.

(** ** The name of the downloaded report *)

Section Download.

Ltac cases_on_tests :=
  repeat (match goal with
          | |- context [N.leb ?a ?b] => destruct (N.leb_spec a b)
          | |- context [N.eqb ?a ?b] => destruct (N.eqb_spec a b)
          | H : context [N.leb ?a ?b] |- _ => destruct (N.leb_spec a b)
          | H : context [N.eqb ?a ?b] |- _ => destruct (N.eqb_spec a b)
          end; cbn [andb orb negb] in *; cbv iota in *);
  try reflexivity; try discriminate; try lia.

Lemma download_stem_char (c : N) :
  let d := (if is_digit c || is_upper c || is_lower c then c else 95) in
  stem_char (if is_upper d then d + 32 else d) = true.
Proof.
  cbv zeta. unfold stem_char, is_digit, is_upper, is_lower. cases_on_tests.
Qed.

Lemma stem_char_fixed (c : N) :
  stem_char c = true ->
  (let d := (if is_digit c || is_upper c || is_lower c then c else 95) in
   if is_upper d then d + 32 else d) = c.
Proof.
  cbv zeta. unfold stem_char, is_digit, is_upper, is_lower. intros H.
  cases_on_tests.
Qed.

(** X8. The stem of the download name has one code unit for each code unit
    of the title, each of them a lower-case ASCII letter, a digit or an
    underscore, so that the name holds no separator and no dot but the one
    of its extension; a stem is its own stem. *)
Theorem download_name_safe (title : jsstring) :
  download_name title = download_stem title ++ str ".html"
  /\ length (download_stem title) = length title
  /\ forallb stem_char (download_stem title) = true
  /\ download_stem (download_stem title) = download_stem title.
Proof.
  unfold download_name, download_stem, toLowerCase_ascii, replace_non_alnum.
  split; [reflexivity|]. rewrite !map_map. split; [apply length_map|].
  split.
  - induction title as [|c title IH]; [reflexivity|].
    cbn [map forallb]. rewrite IH, andb_true_r. apply download_stem_char.
  - induction title as [|c title IH]; [reflexivity|].
    cbn [map]. rewrite IH. f_equal.
    apply stem_char_fixed. apply download_stem_char.
Qed.

(** X9. The report of a map that [sanitizeJourneyMap] returned: when its
    title is a string, the download name has a stem that is not empty, made
    of lower-case letters, digits and underscores; otherwise the title is a
    truthy value of the model's answer that is not a string (a number,
    true, an array or an object), which the sanitizer lets through, and
    naming the download throws a TypeError. *)
Theorem report_name_of_sanitized (data : JSON) (m : JourneyMapData.t) :
  sanitizeJourneyMap data = Value m ->
  match report_name m with
  | Value name =>
      exists stem,
        name = stem ++ str ".html" /\ stem <> []
        /\ forallb stem_char stem = true
  | Throws e =>
      e = TypeError
      /\ get data (str "title") = Some (JourneyMapData.title m)
      /\ truthy_value (Some (JourneyMapData.title m)) = true
      /\ forall s, JourneyMapData.title m <> JString s
  end.
Proof.
  intros H.
  assert (Ht : JourneyMapData.title m
               = or_else (get data (str "title")) (JString (str "Untitled Journey"))).
  { revert H. unfold sanitizeJourneyMap.
    destruct (negb (truthy_value (Some data)) || negb (typeof_object data));
      [discriminate|].
    destruct (map_throwing sanitizeStage _); [|discriminate].
    intros [= <-]. reflexivity. }
  assert (Hy : truthy_value (Some (JourneyMapData.title m)) = true).
  { rewrite Ht. apply or_else_truthy. reflexivity. }
  unfold report_name.
  destruct (JourneyMapData.title m) as [|b|n|t|items|members] eqn:E.
  1, 2, 3, 5, 6:
    (split; [reflexivity|]; split; [|split; [exact Hy|discriminate]];
     revert Ht; unfold or_else;
     destruct (get data (str "title")) as [x|]; [|discriminate];
     destruct (truthy_value (Some x)); [now intros ->|discriminate]).
  exists (download_stem t). split; [reflexivity|]. split.
  - intros Hnil.
    assert (Hl : length (download_stem t) = length t)
      by (unfold download_stem, toLowerCase_ascii, replace_non_alnum;
          now rewrite !length_map).
    rewrite Hnil in Hl. destruct t; [discriminate Hy|discriminate Hl].
  - unfold download_stem, toLowerCase_ascii, replace_non_alnum. rewrite map_map.
    clear. induction t as [|c t IH]; [reflexivity|].
    cbn [map forallb]. rewrite IH, andb_true_r. apply download_stem_char.
Qed.

Lemma report_name_of_sanitized_witness :
  report_name
    (JourneyMapData.mk (JString (str "Untitled Journey")) [])
  = Value (str "untitled_journey.html")
  /\ report_name (JourneyMapData.mk (JNumber (Number.of_Z 7)) []) = Throws TypeError
  /\ exists stem, str "untitled_journey.html" = stem ++ str ".html" /\ stem <> [].
Proof.
  split; [vm_compute; reflexivity|]. split; [vm_compute; reflexivity|].
  pose proof (report_name_of_sanitized (JObject [])
                (JourneyMapData.mk (JString (str "Untitled Journey")) [])) as H.
  assert (E : sanitizeJourneyMap (JObject [])
              = Value (JourneyMapData.mk (JString (str "Untitled Journey")) []))
    by (vm_compute; reflexivity).
  specialize (H E).
  assert (R : report_name (JourneyMapData.mk (JString (str "Untitled Journey")) [])
              = Value (str "untitled_journey.html")) by (vm_compute; reflexivity).
  rewrite R in H. destruct H as (stem & H1 & H2 & _). now exists stem.
Defined.

End Download.

(** ** Further invariants of the session *)

Section SessionInvariants.

(** *** One pending timer *)

Lemma filter_length_le {A : Type} (f : A -> bool) (l : list A) :
  (length (List.filter f l) <= length l)%nat.
Proof.
  induction l as [|x l IH]; cbn; [lia|]. destruct (f x); cbn; lia.
Qed.

Lemma commitInputToHistory_one_timer (s : State) :
  one_timer s -> one_timer (commitInputToHistory s).
Proof.
  intros (Hl & Hok). split; [|now apply commitInputToHistory_timers_ok].
  rewrite commitInputToHistory_timers.
  destruct (debounceTimerRef s); [|exact Hl].
  etransitivity; [apply filter_length_le|exact Hl].
Qed.

Lemma onMessage_one_timer (msg : LiveServerMessage) (s : State) :
  one_timer s -> one_timer (onMessage msg s).
Proof.
  intros (Hl & Hok). split; [|now apply onMessage_timers_ok].
  unfold onMessage. set (c := serverContent msg).
  assert (Hi : one_timer (onInputTranscription c s)).
  { split; [|now apply onInputTranscription_timers_ok].
    destruct c as [c|]; [|exact Hl].
    destruct (delta (inputTranscription c)) as [|a r] eqn:Hd.
    - unfold onInputTranscription.
      destruct c as [[[[txt|]]|] o tc]; try exact Hl.
      cbn in Hd. subst txt. exact Hl.
    - destruct (onInputTranscription_delta c s) as (_ & _ & Ht & _);
        [rewrite Hd; discriminate|exact Hok|].
      rewrite Ht. cbn. lia. }
  assert (Ho : one_timer (onOutputTranscription c (onInputTranscription c s))).
  { destruct (onOutputTranscription_frame c (onInputTranscription c s))
      as (_ & _ & _ & Hr & Hb & _). cbv zeta in Hr, Hb.
    destruct Hi as (Hil & Hiok). split; [now rewrite Hb|].
    intros p Hp. rewrite Hr. apply Hiok. now rewrite <- Hb. }
  clearbody c. revert Ho.
  generalize (onOutputTranscription c (onInputTranscription c s)). intros s1 H1.
  destruct c as [c|]; [|exact (proj1 H1)].
  destruct (turnComplete c) as [[|]|] eqn:Htc;
    try (destruct c; cbn in Htc; subst; exact (proj1 H1)).
  destruct (onTurnComplete_state c s1 Htc) as (_ & Ht & _). cbv zeta in Ht.
  rewrite Ht. exact (proj1 (commitInputToHistory_one_timer s1 H1)).
Qed.

Lemma handleManualSubmit_same (s : State) : same_transcript_but_history s (handleManualSubmit s).
Proof.
  unfold same_transcript_but_history, handleManualSubmit, setTranscriptHistory.
  destruct (negb (truthy (trim (pastedText s)))); cbn; [repeat split|].
  destruct (updatePending (scheduler s)); cbn; repeat split.
Qed.

Lemma same_transcript_one_timer (s s' : State) :
  same_transcript s s' -> one_timer s -> one_timer s'.
Proof.
  intros Hs (Hl & Hok). split; [|now apply (same_transcript_timers_ok s)].
  destruct Hs as (_ & _ & _ & _ & _ & _ & Ht & _). now rewrite Ht.
Qed.

Lemma step_one_timer (s : State) (e : Event) : one_timer s -> one_timer (step s e).
Proof.
  apply step_preserves; clear s e.
  - exact same_transcript_one_timer.
  - exact onMessage_one_timer.
  - intros v s H. exact H.
  - intros s (Hl & Hok).
    destruct (handleManualSubmit_same s) as (_ & _ & _ & _ & Hr & Ht & _).
    split; [now rewrite Ht|]. intros p Hp. rewrite Hr. apply Hok. now rewrite <- Ht.
  - intros s (Hl & Hok). split; [|now apply handleDisconnect_resume_timers_ok].
    destruct (handleDisconnect_resume_state s) as (_ & _ & _ & _ & _ & _ & _ & Ht & _).
    cbv zeta in Ht. rewrite Ht.
    destruct (debounceTimerRef s); [|exact Hl].
    etransitivity; [apply filter_length_le|exact Hl].
  - apply elapse_preserves.
    + intros s t d _ (Hl & Hok). apply commitInputToHistory_one_timer. split.
      * cbn. etransitivity; [apply filter_length_le|exact Hl].
      * intros p Hp. cbn in *. apply filter_In in Hp. now apply Hok.
    + intros s n _ H. exact H.
  - intros s H. exact H.
  - intros s H. exact H.
Qed.

(** X10. In every state the session reaches from the mounted component, at
    most one debounce timer is pending, and it is the one
    [debounceTimerRef] holds: a delta replaces the pending timer, it never
    adds a second one. *)
Theorem at_most_one_debounce_timer (evs : list Event) :
  (length (timers (browser (run init evs))) <= 1)%nat
  /\ forall t deadline,
       In (t, deadline) (timers (browser (run init evs))) ->
       debounceTimerRef (run init evs) = Some t.
Proof.
  assert (H : one_timer (run init evs)).
  { apply run_preserves; [exact step_one_timer|].
    split; [cbn; lia|exact init_timers_ok]. }
  destruct H as (Hl & Hok). split; [exact Hl|].
  intros t d Hin. exact (Hok (t, d) Hin).
Qed.

(** *** The live texts *)

Lemma commitInputToHistory_mirror (s : State) :
  live_texts_mirror s -> live_texts_mirror (commitInputToHistory s).
Proof.
  intros (Hi & Ho). unfold live_texts_mirror, commitInputToHistory, setTranscriptHistory.
  destruct (debounceTimerRef s); cbn;
    destruct (truthy (trim (currentInputRef s))); cbn;
    destruct (updatePending (scheduler s)); cbn; now split.
Qed.

Lemma onMessage_mirror (msg : LiveServerMessage) (s : State) :
  live_texts_mirror s -> live_texts_mirror (onMessage msg s).
Proof.
  intros H. unfold onMessage. set (c := serverContent msg). clearbody c.
  assert (Hi : live_texts_mirror (onInputTranscription c s)).
  { destruct H as (Hi & Ho). unfold live_texts_mirror, onInputTranscription.
    destruct c as [[[[[txt|]]|] o tc]|]; try (now split).
    destruct (truthy txt); [|now split].
    cbn. destruct (debounceTimerRef s); cbn; now split. }
  revert Hi. generalize (onInputTranscription c s). clear s H. intros s H.
  assert (Ho : live_texts_mirror (onOutputTranscription c s)).
  { destruct H as (Hi & Ho). unfold live_texts_mirror, onOutputTranscription.
    destruct c as [[i [[[txt|]]|] tc]|]; try (now split).
    destruct (truthy txt); now split. }
  revert Ho. generalize (onOutputTranscription c s). clear s H. intros s H.
  unfold onTurnComplete. destruct c as [[i o [[|]|]]|]; try exact H.
  cbv zeta. pose proof (commitInputToHistory_mirror s H) as (Hi & Ho).
  unfold setTranscriptHistory.
  destruct (truthy (trim (currentOutputRef (commitInputToHistory s)))); [|now split].
  destruct (updatePending (scheduler (commitInputToHistory s))); now split.
Qed.

Lemma step_mirror (s : State) (e : Event) :
  live_texts_mirror s -> live_texts_mirror (step s e).
Proof.
  apply step_preserves; clear s e.
  - intros s s' (_ & Hi & Ho & Hli & Hlo & _) (H1 & H2).
    split; congruence.
  - exact onMessage_mirror.
  - intros v s H. exact H.
  - intros s (H1 & H2).
    destruct (handleManualSubmit_same s) as (Hi & Ho & Hli & Hlo & _).
    split; congruence.
  - intros s _.
    destruct (handleDisconnect_resume_state s) as (_ & Hi & Ho & Hli & Hlo & _).
    cbv zeta in *. split; congruence.
  - apply elapse_preserves.
    + intros s t d _ H. apply commitInputToHistory_mirror. exact H.
    + intros s n _ H. exact H.
  - intros s H. exact H.
  - intros s H. exact H.
Qed.

(** X11. In every state the session reaches from the mounted component, the
    two live texts shown under the transcript are the two channel buffers:
    the human one is [currentInputRef], the agent one [currentOutputRef]. *)
Theorem live_texts_are_the_buffers (evs : list Event) :
  liveInputText (run init evs) = currentInputRef (run init evs)
  /\ liveOutputText (run init evs) = currentOutputRef (run init evs).
Proof.
  apply (run_preserves live_texts_mirror step_mirror). now split.
Qed.

(** *** The history only grows *)

Lemma onMessage_history (msg : LiveServerMessage) (s : State) :
  exists l,
    transcriptHistory (onMessage msg s) = transcriptHistory s ++ l
    /\ Forall (fun item => TranscriptItem.timestamp item = now (browser s)) l
    /\ now (browser (onMessage msg s)) = now (browser s).
Proof.
  unfold onMessage. set (c := serverContent msg). clearbody c.
  destruct (onInputTranscription_frame c s) as (Hh & _ & _ & Hn & _).
  destruct (onOutputTranscription_frame c (onInputTranscription c s))
    as (Hh' & _ & _ & _ & Hb & _).
  cbv zeta in *. rewrite <- Hh, <- Hh', <- Hn, <- Hb.
  generalize (onOutputTranscription c (onInputTranscription c s)). intros s1.
  destruct c as [c|]; [|exists []; now rewrite app_nil_r].
  destruct (turnComplete c) as [[|]|] eqn:Htc;
    try (destruct c; cbn in Htc; subst; exists []; now rewrite app_nil_r).
  rewrite (onTurnComplete_history c s1 Htc).
  destruct (onTurnComplete_state c s1 Htc) as (_ & _ & Hn1 & _). cbv zeta in Hn1.
  eexists; split; [reflexivity|]. split; [|exact Hn1].
  destruct (truthy (trim (currentInputRef s1))), (truthy (trim (currentOutputRef s1))),
    (updatePending (scheduler s1)); cbn; repeat constructor.
Qed.

Lemma step_history (s : State) (e : Event) (h0 : list TranscriptItem.t) :
  (exists l, transcriptHistory s = h0 ++ l) ->
  exists l, transcriptHistory (step s e) = h0 ++ l.
Proof.
  apply (step_preserves (fun s' => exists l, transcriptHistory s' = h0 ++ l)); clear s e.
  - intros s s' (Hh & _) (l & H). exists l. congruence.
  - intros msg s (l & H). destruct (onMessage_history msg s) as (l' & E & _).
    exists (l ++ l'). now rewrite E, H, app_assoc.
  - intros v s H. exact H.
  - intros s (l & H). rewrite handleManualSubmit_history, H, <- app_assoc.
    now eexists.
  - intros s (l & H).
    destruct (handleDisconnect_resume_state s) as (E & _). cbv zeta in E.
    rewrite E, H, <- app_assoc. now eexists.
  - apply elapse_preserves.
    + intros s t d _ (l & H). rewrite commitInputToHistory_history. cbn.
      rewrite H, <- app_assoc. now eexists.
    + intros s n _ H. exact H.
  - intros s (l & H). rewrite render_history, H, <- app_assoc. now eexists.
  - intros s H. exact H.
Qed.

(** X12. The history is append-only: whatever the events, and from whatever
    state, the history after them is the history before them followed by
    the entries they added; no event removes, reorders or rewrites an
    entry. *)
Theorem history_append_only (s : State) (evs : list Event) :
  exists added,
    transcriptHistory (run s evs) = transcriptHistory s ++ added.
Proof.
  apply (run_preserves (fun s' => exists l, transcriptHistory s' = transcriptHistory s ++ l)).
  - intros s' e. apply step_history.
  - exists []. now rewrite app_nil_r.
Qed.

(** *** Timestamps *)

Lemma ascending_from_snoc (n lo : N) (l : list N) :
  lo <= n -> ascending_from lo l -> Forall (fun x => x <= n) l ->
  ascending_from lo (l ++ [n]).
Proof.
  revert lo. induction l as [|x l IH]; intros lo Hlo Ha Hf; cbn in *.
  - split; [exact Hlo|exact I].
  - destruct Ha as (Hx & Ha). inversion Hf; subst. split; [exact Hx|].
    now apply IH.
Qed.

Lemma stamps_append (l h : list TranscriptItem.t) (n n' : N) :
  n <= n' ->
  ascending_from 0 (map TranscriptItem.timestamp h) ->
  Forall (fun item => TranscriptItem.timestamp item <= n) h ->
  Forall (fun item => TranscriptItem.timestamp item = n') l ->
  ascending_from 0 (map TranscriptItem.timestamp (h ++ l))
  /\ Forall (fun item => TranscriptItem.timestamp item <= n') (h ++ l).
Proof.
  revert h n. induction l as [|x l IH]; intros h n Hn Ha Hf Hl.
  - rewrite app_nil_r. split; [exact Ha|].
    eapply List.Forall_impl; [|exact Hf]. cbn. intros; lia.
  - inversion Hl as [|? ? Hx Hl']; subst.
    replace (h ++ x :: l) with ((h ++ [x]) ++ l) by now rewrite <- app_assoc.
    assert (Hf' : Forall (fun item => TranscriptItem.timestamp item
                                       <= TranscriptItem.timestamp x) h).
    { eapply List.Forall_impl; [|exact Hf]. cbn. intros; lia. }
    apply (IH (h ++ [x]) (TranscriptItem.timestamp x)); [lia| |
      |exact Hl'].
    + rewrite map_app. cbn [map]. apply ascending_from_snoc; [lia|exact Ha|].
      clear -Hf'. induction Hf'; constructor; assumption.
    + apply List.Forall_app. split; [exact Hf'|]. constructor; [lia|constructor].
Qed.

Lemma step_stamps (s : State) (e : Event) :
  stamps_in_order s -> stamps_in_order (step s e).
Proof.
  apply step_preserves; clear s e.
  - intros s s' (Hh & _ & _ & _ & _ & _ & _ & _ & Hn & _) (Ha & Hf).
    unfold stamps_in_order. now rewrite Hh, Hn.
  - intros msg s (Ha & Hf).
    destruct (onMessage_history msg s) as (l & E & Hl & Hn).
    unfold stamps_in_order. rewrite E, Hn.
    now apply (stamps_append l _ (now (browser s))); [lia| | |].
  - intros v s H. exact H.
  - intros s (Ha & Hf). unfold stamps_in_order.
    destruct (handleManualSubmit_same s) as (_ & _ & _ & _ & _ & _ & _ & Hn).
    rewrite handleManualSubmit_history, Hn.
    apply (stamps_append _ _ (now (browser s))); [lia|exact Ha|exact Hf|].
    destruct (truthy (trim (pastedText s))), (updatePending (scheduler s));
      repeat constructor.
  - intros s (Ha & Hf). unfold stamps_in_order.
    destruct (handleDisconnect_resume_state s)
      as (E & _ & _ & _ & _ & _ & _ & _ & _ & Hn).
    cbv zeta in E, Hn. rewrite E, Hn.
    apply (stamps_append _ _ (now (browser s))); [lia|exact Ha|exact Hf|].
    destruct (truthy (trim (currentInputRef s))), (updatePending (scheduler s));
      repeat constructor.
  - apply elapse_preserves.
    + intros s t d _ (Ha & Hf). unfold stamps_in_order.
      destruct (commitInputToHistory_frame
                  (set_browser (set_now (N.max (now (browser s)) d)
                                  (clearTimeout t (browser s))) s))
        as (_ & _ & _ & _ & _ & Hn & _).
      cbv zeta in Hn. rewrite Hn, commitInputToHistory_history. cbn.
      apply (stamps_append _ _ (now (browser s))); [lia|exact Ha|exact Hf|].
      destruct (truthy (trim (currentInputRef s))), (updatePending (scheduler s));
        repeat constructor.
    + intros s n Hn (Ha & Hf). split; [exact Ha|]. cbn.
      eapply List.Forall_impl; [|exact Hf]. cbn. intros; lia.
  - intros s (Ha & Hf). unfold stamps_in_order. rewrite render_history.
    change (now (browser (render s))) with (now (browser s)).
    apply (stamps_append _ _ (now (browser s))); [lia|exact Ha|exact Hf|].
    apply List.Forall_forall. intros item Hin. apply List.in_map_iff in Hin.
    destruct Hin as (u & <- & _). now destruct u.
  - intros s H. exact H.
Qed.

(** X13. In every state the session reaches from the mounted component, the
    timestamps of the history never decrease from one entry to the next,
    and none is later than the clock: the order of the history is the
    order in time. *)
Theorem history_in_time_order (evs : list Event) :
  ascending_from 0 (map TranscriptItem.timestamp (transcriptHistory (run init evs)))
  /\ Forall (fun item => TranscriptItem.timestamp item <= now (browser (run init evs)))
       (transcriptHistory (run init evs)).
Proof.
  apply (run_preserves stamps_in_order step_stamps). split; constructor.
Qed.

End SessionInvariants.

(** ** Release of the resources *)

Section Release.







End Release.

(** ** Waiting for the Google scripts *)

Section GoogleScripts.

Lemma waitForGoogleScripts_loop_spec (loaded : nat -> bool) :
  forall count fuel retries,
    (retries + count = 20)%nat -> (count < fuel)%nat ->
    waitForGoogleScripts_loop fuel retries loaded
    = Some (match first_loaded count retries loaded with
            | Some k => (true, k)
            | None => (false, 20%nat)
            end).
Proof.
  induction count as [|count IH]; intros fuel retries Hc Hf;
    (destruct fuel as [|fuel]; [lia|]); cbn [waitForGoogleScripts_loop first_loaded].
  - replace retries with 20%nat by lia. reflexivity.
  - destruct (Nat.ltb_spec retries 20) as [_|H]; [|lia].
    destruct (loaded retries); [reflexivity|].
    apply IH; lia.
Qed.

Lemma first_loaded_spec (loaded : nat -> bool) :
  forall count from,
    match first_loaded count from loaded with
    | Some k =>
        (from <= k < from + count)%nat /\ loaded k = true
        /\ forall j, (from <= j < k)%nat -> loaded j = false
    | None => forall j, (from <= j < from + count)%nat -> loaded j = false
    end.
Proof.
  induction count as [|count IH]; intros from; cbn [first_loaded].
  - intros j Hj. lia.
  - destruct (loaded from) eqn:E.
    + split; [lia|]. split; [exact E|]. intros j Hj. lia.
    + specialize (IH (S from)).
      destruct (first_loaded count (S from) loaded) as [k|].
      * destruct IH as (Hk & Hl & Hb). split; [lia|]. split; [exact Hl|].
        intros j Hj. destruct (Nat.eq_dec j from) as [->|Hne]; [exact E|].
        apply Hb. lia.
      * intros j Hj. destruct (Nat.eq_dec j from) as [->|Hne]; [exact E|].
        apply IH. lia.
Qed.

(** X16. [waitForGoogleScripts] ends (its loop needs no more than 21 rounds):
    it returns true at the first of its checks that finds both scripts,
    after as many waits of 200 ms as checks failed before, and false after
    20 failed checks and 20 waits.  The scripts are looked for at most 20
    times; nothing is checked after the last wait. *)
Theorem waitForGoogleScripts_bounded (loaded : nat -> bool) (fuel : nat) :
  (20 < fuel)%nat ->
  exists ready waits,
    waitForGoogleScripts fuel loaded = Some (ready, waits)
    /\ (waits <= 20)%nat
    /\ (forall j, (j < waits)%nat -> loaded j = false)
    /\ (if ready then (waits < 20)%nat /\ loaded waits = true else waits = 20%nat).
Proof.
  intros Hf. unfold waitForGoogleScripts.
  rewrite (waitForGoogleScripts_loop_spec loaded 20 fuel 0) by lia.
  pose proof (first_loaded_spec loaded 20 0) as H.
  destruct (first_loaded 20 0 loaded) as [k|].
  - destruct H as (Hk & Hl & Hb). exists true, k.
    split; [reflexivity|]. split; [lia|]. split; [intros j Hj; apply Hb; lia|].
    split; [lia|exact Hl].
  - exists false, 20%nat. split; [reflexivity|]. split; [lia|].
    split; [intros j Hj; apply H; lia|reflexivity].
Qed.

Lemma waitForGoogleScripts_bounded_witness :
  waitForGoogleScripts 21 (fun k => Nat.leb 3 k) = Some (true, 3%nat)
  /\ waitForGoogleScripts 21 (fun k => Nat.leb 20 k) = Some (false, 20%nat)
  /\ exists ready waits,
       waitForGoogleScripts 21 (fun k => Nat.leb 20 k) = Some (ready, waits)
       /\ (waits <= 20)%nat.
Proof.
  split; [vm_compute; reflexivity|]. split; [vm_compute; reflexivity|].
  destruct (waitForGoogleScripts_bounded (fun k => Nat.leb 20 k) 21) as (r & w & H1 & H2 & _).
  - lia.
  - exists r, w. now split.
Defined.

End GoogleScripts.

(** ** The audio payload, read back *)

Section Payload.

Lemma all_bytes2_spec (P : N -> N -> bool) :
  all_bytes2 P = true -> forall a b, a <= 255 -> b <= 255 -> P a b = true.
Proof.
  unfold all_bytes2. intros H a b Ha Hb.
  rewrite forallb_forall in H.
  specialize (H (N.to_nat a)). rewrite in_seq in H.
  specialize (H ltac:(lia)). rewrite forallb_forall in H.
  specialize (H (N.to_nat b)). rewrite in_seq in H.
  specialize (H ltac:(lia)). now rewrite !N2Nat.id in H.
Qed.

Lemma is_sextet_spec (s : N) :
  is_sextet s = true ->
  base64_index (base64_char s) = Some s /\ (base64_char s =? 61) = false.
Proof.
  unfold is_sextet. destruct (base64_index (base64_char s)) as [i|]; [|discriminate].
  intros H. apply andb_prop in H. destruct H as (H1 & H2).
  apply N.eqb_eq in H1. apply Bool.negb_true_iff in H2. now subst.
Qed.

(** The four sextets of three bytes, checked on every pair of bytes that
    meets in one of them. *)
Lemma sextets_checked :
  all_bytes2 (fun a b =>
    let s1 := N.shiftr a 2 in
    let s2 := N.lor (N.shiftl (N.land a 3) 4) (N.shiftr b 4) in
    let s3 := N.lor (N.shiftl (N.land a 15) 2) (N.shiftr b 6) in
    let s4 := N.land b 63 in
    is_sextet s1 && is_sextet s2 && is_sextet s3 && is_sextet s4
    && (N.lor (N.shiftl s1 2) (N.shiftr s2 4) =? a)
    && (N.land s2 15 =? N.shiftr b 4)
    && (N.shiftr s3 2 =? N.land a 15)
    && (N.lor (N.shiftl (N.shiftr a 4) 4) (N.land a 15) =? a)
    && (N.lor (N.shiftl (N.land s3 3) 6) s4 =? b)) = true.
Proof. vm_compute. reflexivity. Qed.

Lemma sextets (a b : N) :
  a <= 255 -> b <= 255 ->
  let s1 := N.shiftr a 2 in
  let s2 := N.lor (N.shiftl (N.land a 3) 4) (N.shiftr b 4) in
  let s3 := N.lor (N.shiftl (N.land a 15) 2) (N.shiftr b 6) in
  let s4 := N.land b 63 in
  (is_sextet s1 = true /\ is_sextet s2 = true /\ is_sextet s3 = true
   /\ is_sextet s4 = true)
  /\ N.lor (N.shiftl s1 2) (N.shiftr s2 4) = a
  /\ N.land s2 15 = N.shiftr b 4
  /\ N.shiftr s3 2 = N.land a 15
  /\ N.lor (N.shiftl (N.shiftr a 4) 4) (N.land a 15) = a
  /\ N.lor (N.shiftl (N.land s3 3) 6) s4 = b.
Proof.
  intros Ha Hb. pose proof (all_bytes2_spec _ sextets_checked a b Ha Hb) as H.
  cbv beta zeta in H. cbv zeta.
  repeat (apply andb_prop in H; destruct H as (H & ?)).
  repeat match goal with H : (_ =? _) = true |- _ => apply N.eqb_eq in H end.
  repeat split; assumption.
Qed.

Lemma base64_decode_base64_bounded (n : nat) :
  forall bytes : list N,
    (length bytes <= n)%nat ->
    forallb (fun c => c <=? 255) bytes = true ->
    base64_decode (base64 bytes) = Some bytes.
Proof.
  induction n as [n IH] using lt_wf_ind. intros bytes Hn Hb.
  destruct bytes as [|a [|b [|c rest]]]; [reflexivity| | |].
  - cbn [forallb] in Hb. rewrite andb_true_r in Hb. apply N.leb_le in Hb.
    destruct (sextets a 0 Hb ltac:(lia)) as ((S1 & S2 & _) & Ea & _).
    cbv zeta in *. change (N.shiftr 0 4) with 0 in *. rewrite N.lor_0_r in *.
    apply is_sextet_spec in S1, S2. destruct S1 as (I1 & _), S2 as (I2 & _).
    cbn [base64 base64_decode]. rewrite I1, I2. cbn [N.eqb Pos.eqb andb].
    now rewrite Ea.
  - cbn [forallb] in Hb. rewrite andb_true_r in Hb.
    apply andb_prop in Hb. destruct Hb as (Ha & Hb).
    apply N.leb_le in Ha, Hb.
    destruct (sextets a b Ha Hb) as ((S1 & S2 & _) & Ea & E2 & _).
    destruct (sextets b 0 Hb ltac:(lia)) as ((_ & _ & S3 & _) & _ & _ & E3 & Eb & _).
    cbv zeta in *. change (N.shiftr 0 6) with 0 in *. rewrite N.lor_0_r in *.
    apply is_sextet_spec in S1, S2, S3.
    destruct S1 as (I1 & _), S2 as (I2 & _), S3 as (I3 & P3).
    cbn [base64 base64_decode]. rewrite I1, I2, P3, I3. cbn [N.eqb Pos.eqb].
    now rewrite Ea, E2, E3, Eb.
  - cbn [forallb] in Hb.
    apply andb_prop in Hb. destruct Hb as (Ha & Hb).
    apply andb_prop in Hb. destruct Hb as (Hb & Hc).
    apply andb_prop in Hc. destruct Hc as (Hc & Hr).
    apply N.leb_le in Ha, Hb, Hc.
    destruct (sextets a b Ha Hb) as ((S1 & S2 & _) & Ea & E2 & _).
    destruct (sextets b c Hb Hc) as ((_ & _ & S3 & S4) & _ & _ & E3 & Eb & Ec).
    cbv zeta in *.
    apply is_sextet_spec in S1, S2, S3, S4.
    destruct S1 as (I1 & _), S2 as (I2 & _), S3 as (I3 & P3), S4 as (I4 & P4).
    cbn [base64 base64_decode app]. rewrite I1, I2, P3, I3, P4, I4.
    rewrite (IH (length rest)) by (cbn in Hn; try lia; exact Hr).
    now rewrite Ea, E2, E3, Eb, Ec.
Qed.

Lemma base64_decode_base64 (bytes : list N) :
  forallb (fun c => c <=? 255) bytes = true ->
  base64_decode (base64 bytes) = Some bytes.
Proof. now apply (base64_decode_base64_bounded (length bytes)). Qed.

Lemma byte_pair_checked :
  all_bytes2 (fun lo hi => N.lor lo (N.shiftl hi 8) =? lo + 256 * hi) = true.
Proof. vm_compute. reflexivity. Qed.

Lemma Int16Array_of_buffer_bytes (int16 : Int16Array) :
  Forall (fun v => (-32768 <= v <= 32767)%Z) int16 ->
  Int16Array_of_bytes (Uint8Array_of_buffer int16) = Some int16.
Proof.
  unfold Uint8Array_of_buffer.
  induction 1 as [|v l Hv Hl IH]; [reflexivity|].
  cbn [flat_map app Int16Array_of_bytes]. cbv zeta. rewrite IH.
  change (2 ^ 16)%Z with 65536%Z. change (2 ^ 8)%Z with 256%Z.
  change (2 ^ 15)%Z with 32768%Z.
  pose proof (Z.mod_pos_bound v 65536 ltac:(lia)) as Hw.
  set (w := (v mod 65536)%Z) in *.
  pose proof (Z.mod_pos_bound w 256 ltac:(lia)) as Hlo.
  assert (Hhi : (0 <= w / 256 < 256)%Z)
    by (split; [apply Z.div_pos; lia|apply Z.div_lt_upper_bound; lia]).
  pose proof (all_bytes2_spec _ byte_pair_checked
                (Z.to_N (w mod 256)) (Z.to_N (w / 256)) ltac:(lia) ltac:(lia)) as E.
  cbv beta in E. apply N.eqb_eq in E. rewrite E.
  rewrite N2Z.inj_add, N2Z.inj_mul, !Z2N.id by lia.
  change (Z.of_N 256) with 256%Z.
  assert (Hu : (w mod 256 + 256 * (w / 256) = w)%Z)
    by (pose proof (Z.div_mod w 256 ltac:(lia)); lia).
  rewrite Hu. f_equal. f_equal.
  assert (Hv' : (v = w \/ v = w - 65536)%Z).
  { unfold w. pose proof (Z.div_mod v 65536 ltac:(lia)) as D.
    assert ((v / 65536 = 0 \/ v / 65536 = -1)%Z) as [Q|Q].
    { assert (-1 <= v / 65536 < 1)%Z; [|lia].
      split; [apply Z.div_le_lower_bound; lia|apply Z.div_lt_upper_bound; lia]. }
    all: rewrite Q in D; lia. }
  destruct (Z.ltb_spec w 32768); lia.
Qed.

(** [createBlob] in terms of its own loop body: the payload is the base64
    text of the bytes of the stored samples. *)
Lemma createBlob_bytes (frame : Float32Array) :
  createBlob frame
  = Some {| data := base64 (Uint8Array_of_buffer (map int16_of_sample frame));
            mimeType := str "audio/pcm;rate=16000" |}.
Proof.
  unfold createBlob.
  change (for_loop (length frame) 0 _ (replicate (length frame) 0%Z))
    with (for_loop (length frame) 0
            (fun i acc => <[ i := int16_of_sample (default Number.NaN (frame !! i)) ]> acc)
            (replicate (length frame) 0%Z)).
  rewrite for_loop_store by (rewrite ?length_replicate; lia).
  rewrite take_0, drop_0, app_nil_l.
  rewrite for_loop_append by lia.
  rewrite drop_0, firstn_all, app_nil_l.
  unfold btoa. rewrite Uint8Array_of_buffer_map.
  now rewrite int16_le_bytes, <- Uint8Array_of_buffer_map.
Qed.

Lemma int16_of_sample_range (x : Number.t) :
  (-32768 <= int16_of_sample x <= 32767)%Z.
Proof.
  unfold int16_of_sample. rewrite sample_pcm16. apply pcm16_range.
Qed.

(** X17. The payload of [createBlob] loses nothing of the samples it stored:
    for every frame the call returns a blob of type audio/pcm;rate=16000
    whose text decodes, as padded base64, to two bytes for each sample, and
    those bytes read as little-endian signed 16-bit integers are the values
    the loop stored, one for each sample of the frame and in its order,
    each within the 16-bit range. *)
Theorem createBlob_round_trip (frame : Float32Array) :
  exists blob bytes,
    createBlob frame = Some blob
    /\ mimeType blob = str "audio/pcm;rate=16000"
    /\ base64_decode (data blob) = Some bytes
    /\ length bytes = (2 * length frame)%nat
    /\ Int16Array_of_bytes bytes = Some (map int16_of_sample frame)
    /\ Forall (fun v => (-32768 <= v <= 32767)%Z) (map int16_of_sample frame).
Proof.
  assert (Hr : Forall (fun v => (-32768 <= v <= 32767)%Z) (map int16_of_sample frame)).
  { apply List.Forall_forall. intros v Hv. apply in_map_iff in Hv.
    destruct Hv as (x & <- & _). apply int16_of_sample_range. }
  eexists. exists (Uint8Array_of_buffer (map int16_of_sample frame)).
  split; [apply createBlob_bytes|]. cbn [data mimeType].
  split; [reflexivity|]. split; [|split; [|split; [|exact Hr]]].
  - apply base64_decode_base64. rewrite Uint8Array_of_buffer_map. apply int16_le_bytes.
  - rewrite Uint8Array_of_buffer_map. apply int16_le_length.
  - now apply Int16Array_of_buffer_bytes.
Qed.

End Payload.

(** ** The order of the samples *)

Section SampleOrder.

Lemma wrap_int16 (T : Z) :
  (-32768 <= T <= 32767)%Z ->
  (if (T mod 2 ^ 16 <? 2 ^ 15)%Z then (T mod 2 ^ 16)%Z else (T mod 2 ^ 16 - 2 ^ 16)%Z) = T.
Proof.
  intros H. change (2 ^ 16)%Z with 65536%Z. change (2 ^ 15)%Z with 32768%Z.
  assert (E : (T mod 65536 = T \/ T mod 65536 = T + 65536)%Z).
  { destruct (Z.ltb_spec T 0).
    - right. symmetry. apply (Z.mod_unique_pos _ _ (-1)); lia.
    - left. apply Z.mod_small. lia. }
  destruct (Z.ltb_spec (T mod 65536) 32768); lia.
Qed.

Lemma quot_scaled_bounds (M Q c : Z) :
  (0 < Q)%Z -> (0 <= c)%Z -> (- Q <= M <= Q)%Z ->
  (- c <= Z.quot (M * c) Q <= c)%Z
  /\ ((M < 0)%Z -> (Z.quot (M * c) Q <= 0)%Z)
  /\ ((0 <= M)%Z -> (0 <= Z.quot (M * c) Q)%Z).
Proof.
  intros HQ Hc HM.
  assert (Hpos : forall a, (0 <= a <= Q)%Z -> (0 <= Z.quot (a * c) Q <= c)%Z).
  { intros a Ha. split.
    - apply Z.quot_pos; nia.
    - apply Z.quot_le_upper_bound; nia. }
  destruct (Z.ltb_spec M 0) as [Hn|Hn].
  - replace (M * c)%Z with (- ((- M) * c))%Z by ring.
    rewrite Z.quot_opp_l by lia.
    pose proof (Hpos (- M)%Z ltac:(lia)). repeat split; lia.
  - pose proof (Hpos M ltac:(lia)). repeat split; lia.
Qed.

Lemma scaled_sample_range (M Q : Z) :
  (0 < Q)%Z -> (-32768 <= scaled_sample M Q <= 32767)%Z.
Proof.
  intros HQ. unfold scaled_sample.
  destruct (Z.ltb_spec M (- Q)); [lia|].
  destruct (Z.ltb_spec Q M); [lia|].
  destruct (Z.ltb_spec M 0).
  - destruct (quot_scaled_bounds M Q 32768 HQ ltac:(lia) ltac:(lia)) as (B & Bn & _).
    specialize (Bn ltac:(lia)). lia.
  - destruct (quot_scaled_bounds M Q 32767 HQ ltac:(lia) ltac:(lia)) as (B & _ & Bp).
    specialize (Bp ltac:(lia)). lia.
Qed.

Lemma scaled_sample_mono (M M' Q : Z) :
  (0 < Q)%Z -> (M <= M')%Z -> (scaled_sample M Q <= scaled_sample M' Q)%Z.
Proof.
  intros HQ HM.
  pose proof (scaled_sample_range M Q HQ) as R.
  pose proof (scaled_sample_range M' Q HQ) as R'.
  unfold scaled_sample in *.
  destruct (Z.ltb_spec M (- Q)); [destruct (Z.ltb_spec M' (- Q)); lia|].
  destruct (Z.ltb_spec M' (- Q)); [lia|].
  destruct (Z.ltb_spec Q M'); [destruct (Z.ltb_spec Q M); lia|].
  destruct (Z.ltb_spec Q M); [lia|].
  destruct (Z.ltb_spec M 0), (Z.ltb_spec M' 0); try lia.
  - apply Z.quot_le_mono; lia.
  - destruct (quot_scaled_bounds M Q 32768 HQ ltac:(lia) ltac:(lia)) as (_ & Bn & _).
    destruct (quot_scaled_bounds M' Q 32767 HQ ltac:(lia) ltac:(lia)) as (_ & _ & Bp).
    specialize (Bn ltac:(lia)). specialize (Bp ltac:(lia)). lia.
  - apply Z.quot_le_mono; lia.
Qed.

Lemma scaled_sample_scale (M Q t : Z) :
  (0 < t)%Z -> (0 < Q)%Z -> scaled_sample (M * t) (Q * t) = scaled_sample M Q.
Proof.
  intros Ht HQ. unfold scaled_sample.
  replace (M * t <? - (Q * t))%Z with (M <? - Q)%Z
    by (destruct (Z.ltb_spec M (- Q)), (Z.ltb_spec (M * t) (- (Q * t))); try reflexivity; nia).
  replace (Q * t <? M * t)%Z with (Q <? M)%Z
    by (destruct (Z.ltb_spec Q M), (Z.ltb_spec (Q * t) (M * t)); try reflexivity; nia).
  replace (M * t <? 0)%Z with (M <? 0)%Z
    by (destruct (Z.ltb_spec M 0), (Z.ltb_spec (M * t) 0); try reflexivity; nia).
  replace (M * t * 32768)%Z with (M * 32768 * t)%Z by ring.
  replace (M * t * 32767)%Z with (M * 32767 * t)%Z by ring.
  rewrite !Z.quot_mul_cancel_r by lia. reflexivity.
Qed.

Lemma truncate_scaled (m e c : Z) :
  Number.truncate (m * c) (e + 0)
  = Z.quot (m * 2 ^ (e - Z.min e 0) * c) (2 ^ (0 - Z.min e 0)).
Proof.
  unfold Number.truncate. rewrite Z.add_0_r.
  destruct (Z.leb_spec 0 e) as [He|He].
  - rewrite Z.min_r by lia. rewrite Z.sub_0_r. change (2 ^ (0 - 0))%Z with 1%Z.
    rewrite Z.quot_1_r. ring.
  - rewrite Z.min_l by lia. rewrite Z.sub_diag, Z.pow_0_r, Z.mul_1_r.
    now replace (0 - e)%Z with (- e)%Z by lia.
Qed.

Lemma pcm16_scaled0 (m e : Z) :
  pcm16 (Number.Finite m e)
  = scaled_sample (m * 2 ^ (e - Z.min e 0)) (2 ^ (0 - Z.min e 0)).
Proof.
  assert (HQ : (0 < 2 ^ (0 - Z.min e 0))%Z) by (apply pow2_pos; lia).
  pose proof (lt_finite_l m e (-1)) as Lm1.
  pose proof (lt_finite_l m e 0) as L0.
  pose proof (lt_finite_r m e 1) as R1.
  pose proof (truncate_scaled m e 32768) as T8.
  pose proof (truncate_scaled m e 32767) as T7.
  set (M := (m * 2 ^ (e - Z.min e 0))%Z) in *.
  set (Q := (2 ^ (0 - Z.min e 0))%Z) in *.
  unfold pcm16, clamp, scaled_sample, Number.of_Z in *.
  rewrite Lm1, R1.
  replace (-1 * Q)%Z with (- Q)%Z by lia. replace (1 * Q)%Z with Q by lia.
  destruct (Z.ltb_spec M (- Q)) as [A|A]; [reflexivity|].
  destruct (Z.ltb_spec Q M) as [B|B]; [reflexivity|].
  rewrite L0. replace (0 * Q)%Z with 0%Z by lia.
  destruct (Z.ltb_spec M 0) as [C|C]; unfold Number.mul, Number.ToInt16.
  - rewrite T8. apply wrap_int16.
    destruct (quot_scaled_bounds M Q 32768 HQ ltac:(lia) ltac:(lia)) as (Bd & Bn & _).
    specialize (Bn C). lia.
  - rewrite T7. apply wrap_int16.
    destruct (quot_scaled_bounds M Q 32767 HQ ltac:(lia) ltac:(lia)) as (Bd & _ & Bp).
    specialize (Bp C). lia.
Qed.

Lemma pcm16_scaled (m e K : Z) :
  (K <= Z.min e 0)%Z ->
  pcm16 (Number.Finite m e) = scaled_sample (m * 2 ^ (e - K)) (2 ^ (0 - K)).
Proof.
  intros HK. rewrite pcm16_scaled0.
  assert (Ht : (0 < 2 ^ (Z.min e 0 - K))%Z) by (apply pow2_pos; lia).
  assert (HQ : (0 < 2 ^ (0 - Z.min e 0))%Z) by (apply pow2_pos; lia).
  rewrite <- (scaled_sample_scale _ _ _ Ht HQ).
  rewrite <- Z.mul_assoc, <- !Z.pow_add_r by lia.
  f_equal; f_equal; f_equal; lia.
Qed.

Lemma lt_scaled (m e m' e' K : Z) :
  (K <= Z.min e e')%Z ->
  Number.lt (Number.Finite m e) (Number.Finite m' e')
  = (m * 2 ^ (e - K) <? m' * 2 ^ (e' - K))%Z.
Proof.
  intros HK. unfold Number.lt.
  assert (Ht : (0 < 2 ^ (Z.min e e' - K))%Z) by (apply pow2_pos; lia).
  replace (e - K)%Z with ((e - Z.min e e') + (Z.min e e' - K))%Z by lia.
  replace (e' - K)%Z with ((e' - Z.min e e') + (Z.min e e' - K))%Z by lia.
  rewrite !Z.pow_add_r by lia.
  set (t := (2 ^ (Z.min e e' - K))%Z) in *.
  destruct (Z.ltb_spec (m * 2 ^ (e - Z.min e e')) (m' * 2 ^ (e' - Z.min e e'))),
           (Z.ltb_spec (m * (2 ^ (e - Z.min e e') * t)) (m' * (2 ^ (e' - Z.min e e') * t)));
    try reflexivity; nia.
Qed.

Lemma int16_of_sample_le (x y : Number.t) :
  Number.lt x y = true -> (int16_of_sample x <= int16_of_sample y)%Z.
Proof.
  intros H.
  pose proof (int16_of_sample_range x) as Rx.
  pose proof (int16_of_sample_range y) as Ry.
  destruct x as [|[|]|m e], y as [|[|]|m' e']; try discriminate H;
    try (change (int16_of_sample (Number.Infinity true)) with (-32768)%Z; lia);
    try (change (int16_of_sample (Number.Infinity false)) with 32767%Z; lia).
  unfold int16_of_sample. rewrite !sample_pcm16.
  set (K := Z.min (Z.min e e') 0).
  rewrite (pcm16_scaled m e K), (pcm16_scaled m' e' K) by (unfold K; lia).
  rewrite (lt_scaled m e m' e' K) in H by (unfold K; lia).
  apply Z.ltb_lt in H.
  apply scaled_sample_mono; [apply pow2_pos; unfold K; lia|lia].
Qed.

(** X18. The value [createBlob] stores grows with the sample: a smaller
    sample never gets a larger value, so that clamping leaves no
    wrap-around; every sample above 1 is stored as 32767 and every sample
    below -1 as -32768. *)
Theorem int16_of_sample_monotone (x y : Number.t) :
  Number.lt x y = true ->
  (int16_of_sample x <= int16_of_sample y)%Z
  /\ (x = Number.of_Z 1 -> int16_of_sample y = 32767%Z)
  /\ (y = Number.of_Z (-1) -> int16_of_sample x = (-32768)%Z).
Proof.
  intros H. pose proof (int16_of_sample_le x y H) as Hle.
  split; [exact Hle|]. split; intros ->.
  - pose proof (int16_of_sample_range y).
    change (int16_of_sample (Number.of_Z 1)) with 32767%Z in Hle. lia.
  - pose proof (int16_of_sample_range x).
    change (int16_of_sample (Number.of_Z (-1))) with (-32768)%Z in Hle. lia.
Qed.

Lemma int16_of_sample_monotone_witness :
  (int16_of_sample (Number.Finite 1 (-1)) <= int16_of_sample (Number.Finite 3 (-2)))%Z
  /\ int16_of_sample (Number.Finite 1 (-1)) = 16383%Z
  /\ int16_of_sample (Number.Finite 3 (-2)) = 24575%Z
  /\ int16_of_sample (Number.Finite 5 (-2)) = 32767%Z.
Proof.
  split; [|split; [|split]]; try (vm_compute; reflexivity).
  apply (int16_of_sample_monotone (Number.Finite 1 (-1)) (Number.Finite 3 (-2))).
  vm_compute. reflexivity.
Defined.

End SampleOrder.

(** ** What is sent *)

Section Outbox.

Lemma commitInputToHistory_outbox (s : State) :
  outbox (browser (commitInputToHistory s)) = outbox (browser s).
Proof.
  unfold commitInputToHistory.
  destruct (debounceTimerRef s); cbn;
    destruct (truthy (trim (currentInputRef s))); cbn; updates; reflexivity.
Qed.

Lemma onMessage_outbox (msg : LiveServerMessage) (s : State) :
  outbox (browser (onMessage msg s)) = outbox (browser s).
Proof.
  unfold onMessage.
  assert (Hi : outbox (browser (onInputTranscription (serverContent msg) s))
               = outbox (browser s)).
  { unfold onInputTranscription.
    destruct (serverContent msg) as [[[[[txt|]]|] o tc]|]; try reflexivity.
    destruct (truthy txt); [|reflexivity].
    cbn. destruct (debounceTimerRef s); reflexivity. }
  destruct (onOutputTranscription_frame (serverContent msg)
              (onInputTranscription (serverContent msg) s)) as (_ & _ & _ & _ & Hb & _).
  cbv zeta in Hb. rewrite <- Hi, <- Hb.
  generalize (onOutputTranscription (serverContent msg)
                (onInputTranscription (serverContent msg) s)).
  intros s2. unfold onTurnComplete.
  destruct (serverContent msg) as [[i o [[|]|]]|]; try reflexivity.
  cbv zeta.
  destruct (truthy (trim (currentOutputRef (commitInputToHistory s2)))); cbn;
    updates; apply commitInputToHistory_outbox.
Qed.

Lemma run_timers_outbox (fuel : nat) (target : N) :
  forall s, outbox (browser (run_timers fuel target s)) = outbox (browser s).
Proof.
  induction fuel as [|fuel IH]; intros s; cbn; [reflexivity|].
  destruct (earliest_due target (timers (browser s))) as [[t d]|]; [|reflexivity].
  now rewrite IH, commitInputToHistory_outbox.
Qed.

Lemma handleDisconnect_resume_outbox (s : State) :
  outbox (browser (handleDisconnect_resume s)) = outbox (browser s).
Proof.
  unfold handleDisconnect_resume. cbn.
  now rewrite commitInputToHistory_outbox.
Qed.

Lemma handleDisconnect_session_outbox (s : State) :
  outbox (browser (handleDisconnect_session s)) = outbox (browser s).
Proof.
  unfold handleDisconnect_session.
  destruct (sessionPromise (liveService s)) as [[h|h|h]|];
    rewrite ?handleDisconnect_resume_outbox; reflexivity.
Qed.

Lemma handleDisconnect_call_outbox (s : State) :
  outbox (browser (handleDisconnect_call s)) = outbox (browser s).
Proof.
  unfold handleDisconnect_call.
  set (s1 := match mediaStream (liveService s) with
             | Some ms => _
             | None => s
             end).
  assert (H1 : outbox (browser s1) = outbox (browser s))
    by (unfold s1; destruct (mediaStream (liveService s)); reflexivity).
  clearbody s1. rewrite <- H1.
  destruct (inputAudioContext (liveService s1)) as [ctx|].
  - destruct (existsb (Nat.eqb ctx) (contexts (browser s1))); reflexivity.
  - apply handleDisconnect_session_outbox.
Qed.

Lemma handleDisconnect_closed_outbox (s : State) :
  outbox (browser (handleDisconnect_closed s)) = outbox (browser s).
Proof.
  unfold handleDisconnect_closed. now rewrite handleDisconnect_session_outbox.
Qed.

Lemma handleDisconnect_fulfilled_outbox (h : nat) (s : State) :
  outbox (browser (handleDisconnect_fulfilled h s)) = outbox (browser s).
Proof.
  unfold handleDisconnect_fulfilled. now rewrite handleDisconnect_resume_outbox.
Qed.

Lemma resume_all_outbox (a : Awaited) (k : State -> State) :
  (forall s, outbox (browser (k s)) = outbox (browser s)) ->
  forall s, outbox (browser (resume_all a k s)) = outbox (browser s).
Proof.
  intros Hk s. unfold resume_all.
  assert (E : outbox (browser s) = outbox (browser (stop_waiting a s)))
    by reflexivity.
  rewrite E. generalize (stop_waiting a s).
  induction (List.filter (is_awaited a) (awaiting (scheduler s))) as [|x l IH];
    intros st; cbn; [reflexivity|].
  now rewrite IH, Hk.
Qed.

Lemma send_outbox (o : Outbound) (l : LiveApiService) (b : Browser) :
  exists sent, outbox (send o l b) = outbox b ++ sent
               /\ Forall (fun p => snd p = o) sent.
Proof.
  unfold send. destruct (sessionPromise l) as [[h|h|h]|]; cbn;
    try (exists []; rewrite app_nil_r; split; [reflexivity|constructor]);
    (eexists; split; [reflexivity|]; repeat constructor).
Qed.

Lemma settle_outbox (h : nat) (f : bool) (s : State) :
  outbox (browser (settle h f s)) = outbox (browser s).
Proof.
  unfold settle. cbn.
  destruct (sessionPromise (liveService s)) as [[h'|h'|h']|]; try reflexivity.
  destruct (Nat.eqb h h'); reflexivity.
Qed.

Lemma step_outbox (s : State) (e : Event) :
  exists sent,
    outbox (browser (step s e)) = outbox (browser s) ++ sent
    /\ Forall (fun p => sent_by_session (snd p)) sent.
Proof.
  assert (Hnone : forall s', outbox (browser s') = outbox (browser s) ->
            exists sent, outbox (browser s') = outbox (browser s) ++ sent
                         /\ Forall (fun p => sent_by_session (snd p)) sent).
  { intros s' H. exists []. rewrite app_nil_r. split; [exact H|constructor]. }
  destruct e; cbn [step].
  - destruct (connectionState s); now apply Hnone.
  - destruct (connectionState s); try now apply Hnone.
    apply Hnone, handleDisconnect_call_outbox.
  - now apply Hnone.
  - destruct (showPasteInput s); now apply Hnone.
  - destruct (showPasteInput s && truthy (trim (pastedText s))); [|now apply Hnone].
    unfold handleManualSubmit.
    destruct (truthy (trim (pastedText s))); [|now apply Hnone].
    apply Hnone. cbn. now updates.
  - destruct (mem h (connecting (browser s))); [|now apply Hnone].
    rewrite (resume_all_outbox _ _ (handleDisconnect_fulfilled_outbox h)).
    rewrite settle_outbox. unfold startAudioStream, onOpen, sendText. cbn.
    destruct (send_outbox (ClientContent kickoff) (liveService s) (browser s))
      as (sent & E & Hs).
    exists sent. split; [exact E|].
    eapply List.Forall_impl; [|exact Hs]. cbn. intros p ->. reflexivity.
  - destruct (mem h (connecting (browser s))); [|now apply Hnone].
    apply Hnone. cbn. now rewrite settle_outbox.
  - destruct (Nat.ltb 0 (micRequests (browser s))); now apply Hnone.
  - destruct (Nat.ltb 0 (micRequests (browser s))); now apply Hnone.
  - apply Hnone, onMessage_outbox.
  - now apply Hnone.
  - now apply Hnone.
  - destruct (mem ctx (contexts (browser s))); [|now apply Hnone].
    unfold onaudioprocess. destruct (createBlob inputData) as [blob|] eqn:E;
      [|now apply Hnone].
    cbn. destruct (send_outbox (RealtimeInput blob) (liveService s) (browser s))
      as (sent & Eq & Hs).
    exists sent. split; [exact Eq|].
    eapply List.Forall_impl; [|exact Hs]. cbn. intros p ->. now exists inputData.
  - apply Hnone. unfold elapse. cbn. now rewrite run_timers_outbox.
  - apply Hnone. now rewrite (resume_all_outbox _ _ handleDisconnect_closed_outbox).
  - now apply Hnone.
  - now apply Hnone.
Qed.

(** X19. What the session hands to the transport, from whatever state and
    whatever the events: what was sent before stays, in its order, and each
    thing added is the kickoff text or an audio frame as [createBlob]
    encodes it.  No text of the transcript, typed or transcribed, is ever
    sent. *)
Theorem only_kickoff_and_audio_sent (s : State) (evs : list Event) :
  exists sent,
    outbox (browser (run s evs)) = outbox (browser s) ++ sent
    /\ Forall (fun p => sent_by_session (snd p)) sent.
Proof.
  revert s. induction evs as [|e evs IH]; intros s.
  - exists []. rewrite app_nil_r. split; [reflexivity|constructor].
  - cbn [run fold_left]. destruct (IH (step s e)) as (sent2 & E2 & H2).
    destruct (step_outbox s e) as (sent1 & E1 & H1).
    exists (sent1 ++ sent2). split.
    + unfold run in E2. rewrite E2, E1. now rewrite app_assoc.
    + apply List.Forall_app. now split.
Qed.

End Outbox.
